(** * HomDGCat mirror tool: the fetch engine and the static-file server

    A shallow embedding of [main.py]: the downloader ([load_filelist],
    [download_one], [_file_ok], [cmd_download], [cmd_status]), the
    built-in HTTP server ([_make_etag], [_gzip_cached], [_resolve_path],
    [_serve_file], [_cache_control]), the ASGI application ([_resolve],
    [handle]), the choice of the display language ([_detect_lang], the
    first loop of [main]) and [cmd_serve], followed by the properties
    proved about them.

    Python values are represented as follows.
    - [str] and [bytes] are [string]: a sequence of 8-bit characters.  Text
      outside ASCII stands for its UTF-8 encoding, which is what
      [urllib.request.quote] and the file system see.
    - [int] is [Z].
    - A [pathlib.Path] is the list of its components ([Path.parts] without
      the leading root); every path in the program is absolute.
    - The operating system and the network are an explicit [World] that
      every effectful function takes and returns: a table of files and
      directories without symbolic links, in which a system call addresses
      the node at the lexically resolved path; a clock; the answers of the
      remote site; and the logs of the requests, the sleeps and the system
      calls made.
    - The look-ups of the file system are modelled twice.  The first model
      takes [resolve()] for a computation on the path and lets [exists()]
      and [is_file()] always answer, as they do when a look-up fails by
      absence only; the properties of what the program downloads, reports
      and serves are stated over it.  The module [Os] writes out the system
      calls of [resolve()] and the errors that [exists()] and [is_file()]
      raise; the properties of the containment check are stated over it.
      Under the operating system [lexical] the two models agree.
    - Failures are values: [result] for an expression that may raise, [run]
      for a command that may exit.
    What is printed is left out.  The pool of [cmd_download] is run the way
    a single worker runs it; the properties of the tally are proved for
    results in any order. *)

From Stdlib Require Import ZArith Lia Ascii String.
From Stdlib Require Import DecimalString HexadecimalString HexadecimalZ.
From stdpp Require Import gmap strings list.

(** ** Python's [str] methods *)

Module Str.

Local Open Scope char_scope.

(** [s.lstrip(c)] for a one-character argument. *)
Fixpoint lstrip (c : ascii) (s : string) : string :=
  match s with
  | EmptyString => EmptyString
  | String a s' => if Ascii.eqb a c then lstrip c s' else s
  end.

(** [s[:k]] and [s[k:]] for [0 <= k]. *)
Definition slice_to (k : nat) (s : string) : string :=
  String.substring 0 k s.
Definition slice_from (k : nat) (s : string) : string :=
  String.substring k (String.length s - k) s.

(** [s[:-n]] for [0 < n]. *)
Definition drop_end (n : nat) (s : string) : string :=
  slice_to (String.length s - n) s.

Definition startswith (s pre : string) : bool := String.prefix pre s.

Definition endswith (s suf : string) : bool :=
  (String.length suf <=? String.length s)%nat
  && String.eqb (slice_from (String.length s - String.length suf) s) suf.

(** [s.split(sep)] for a one-character separator; never the empty list. *)
Fixpoint split (sep : ascii) (s : string) : list string :=
  match s with
  | EmptyString => [EmptyString]
  | String a s' =>
      if Ascii.eqb a sep then EmptyString :: split sep s'
      else match split sep s' with
           | h :: t => String a h :: t
           | [] => [String a EmptyString]
           end
  end.

(** [sub in s]. *)
Fixpoint contains (sub s : string) : bool :=
  String.prefix sub s
  || match s with
     | EmptyString => false
     | String _ s' => contains sub s'
     end.

(** White space as [str.isspace] sees it among the ASCII characters; white
    space outside ASCII is not recognised. *)
Definition isspace (a : ascii) : bool :=
  let n := nat_of_ascii a in
  ((9 <=? n) && (n <=? 13) || (28 <=? n) && (n <=? 32))%nat.

Fixpoint lstrip_ws (s : string) : string :=
  match s with
  | EmptyString => EmptyString
  | String a s' => if isspace a then lstrip_ws s' else s
  end.

Fixpoint rstrip_ws (s : string) : string :=
  match s with
  | EmptyString => EmptyString
  | String a s' =>
      match rstrip_ws s' with
      | EmptyString => if isspace a then EmptyString else String a EmptyString
      | r => String a r
      end
  end.

(** [s.strip()]. *)
Definition strip (s : string) : string := rstrip_ws (lstrip_ws s).

Definition lower_ascii (a : ascii) : ascii :=
  let n := nat_of_ascii a in
  if ((65 <=? n) && (n <=? 90))%nat then ascii_of_nat (n + 32) else a.

(** [s.lower()] on ASCII letters. *)
Fixpoint lower (s : string) : string :=
  match s with
  | EmptyString => EmptyString
  | String a s' => String (lower_ascii a) (lower s')
  end.

(** [x in (a, b, ...)] for strings. *)
Definition mem (x : string) (l : list string) : bool :=
  existsb (String.eqb x) l.

(** Lines of a text file.  Breaking at every carriage return and line
    feed gives the lines of universal-newline mode up to empty lines. *)
Fixpoint lines (s : string) : list string :=
  match s with
  | EmptyString => [EmptyString]
  | String a s' =>
      if Ascii.eqb a "010" || Ascii.eqb a "013" then EmptyString :: lines s'
      else match lines s' with
           | h :: t => String a h :: t
           | [] => [String a EmptyString]
           end
  end.

(** [s.rstrip(c)] and [s.strip(c)] for a one-character argument. *)
Fixpoint rstrip (c : ascii) (s : string) : string :=
  match s with
  | EmptyString => EmptyString
  | String a s' =>
      match rstrip c s' with
      | EmptyString => if Ascii.eqb a c then EmptyString else String a EmptyString
      | r => String a r
      end
  end.

Definition strip_char (c : ascii) (s : string) : string :=
  rstrip c (lstrip c s).

(** [sep.join(l)] *)
Definition join (sep : string) (l : list string) : string :=
  String.concat sep l.

End Str.

(** ** [urllib.request.quote] *)

Module Urllib.

Local Open Scope char_scope.

Definition hex_upper (n : N) : ascii :=
  match n with
  | 0%N => "0" | 1%N => "1" | 2%N => "2" | 3%N => "3"
  | 4%N => "4" | 5%N => "5" | 6%N => "6" | 7%N => "7"
  | 8%N => "8" | 9%N => "9" | 10%N => "A" | 11%N => "B"
  | 12%N => "C" | 13%N => "D" | 14%N => "E" | _ => "F"
  end.

(** ["%{:02X}".format(b)]. *)
Definition percent (a : ascii) : string :=
  let n := N_of_ascii a in
  String "%" (String (hex_upper (n / 16)) (String (hex_upper (n mod 16)) EmptyString)).

Definition in_string (a : ascii) (s : string) : bool :=
  existsb (Ascii.eqb a) (list_ascii_of_string s).

(** The characters [quote] never encodes: letters, digits and [_.-~]. *)
Definition always_safe (a : ascii) : bool :=
  let n := nat_of_ascii a in
  ((65 <=? n) && (n <=? 90) || (97 <=? n) && (n <=? 122)
   || (48 <=? n) && (n <=? 57))%nat
  || in_string a "_.-~".

Definition quote_char (safe : string) (a : ascii) : string :=
  if always_safe a || in_string a safe then String a EmptyString
  else percent a.

(** [quote(s, safe=safe)]: byte by byte over the UTF-8 encoding. *)
Fixpoint quote (s : string) (safe : string) : string :=
  match s with
  | EmptyString => EmptyString
  | String a s' => quote_char safe a +:+ quote s' safe
  end.

Definition hex_value (a : ascii) : option N :=
  let n := N_of_ascii a in
  if ((48 <=? n) && (n <=? 57))%N then Some (n - 48)%N
  else if ((65 <=? n) && (n <=? 70))%N then Some (n - 55)%N
  else if ((97 <=? n) && (n <=? 102))%N then Some (n - 87)%N
  else None.

(** [urllib.parse.unquote_to_bytes]: every [%XX] with two hexadecimal
    digits becomes the byte it names. *)
Fixpoint unquote_to_bytes (s : string) : string :=
  match s with
  | EmptyString => EmptyString
  | String a s' =>
      if Ascii.eqb a "%" then
        match s' with
        | String h (String l rest) =>
            match hex_value h, hex_value l with
            | Some x, Some y => String (ascii_of_N (16 * x + y)) (unquote_to_bytes rest)
            | _, _ => String a (unquote_to_bytes s')
            end
        | _ => String a (unquote_to_bytes s')
        end
      else String a (unquote_to_bytes s')
  end.

End Urllib.

(** ** [pathlib] paths *)

Module Pathlib.

(** The components of a path written as text: empty components and [.]
    are dropped when a path is built, [..] is kept. *)
Definition parts (s : string) : list string :=
  filter (λ c, c ≠ EmptyString ∧ c ≠ ".") (Str.split "/"%char s).

(** [base / s]: a text that starts with the separator replaces [base]. *)
Definition joinpath (base : list string) (s : string) : list string :=
  if Str.startswith s "/" then parts s else base ++ parts s.

Definition name (p : list string) : string := List.last p EmptyString.

Definition parent (p : list string) : list string := removelast p.

(** [name.rfind "."]. *)
Fixpoint rfind_dot (s : string) : option nat :=
  match s with
  | EmptyString => None
  | String a s' =>
      match rfind_dot s' with
      | Some i => Some (S i)
      | None => if Ascii.eqb a "."%char then Some 0%nat else None
      end
  end.

(** [p.suffix]: from the last dot of the name on, unless that dot is the
    first or the last character. *)
Definition suffix (p : list string) : string :=
  let n := name p in
  match rfind_dot n with
  | Some i =>
      if ((0 <? i) && (i <? String.length n - 1))%nat
      then Str.slice_from i n else EmptyString
  | None => EmptyString
  end.

Definition stem (p : list string) : string :=
  let n := name p in
  Str.slice_to (String.length n - String.length (suffix p)) n.

(** [p.with_suffix suf]. *)
Definition with_suffix (p : list string) (suf : string) : list string :=
  parent p ++ [stem p +:+ suf].

(** [p.resolve()] on a tree without symbolic links: [..] cancels the
    component before it, and stays at the root when there is none. *)
Fixpoint normalize (acc p : list string) : list string :=
  match p with
  | [] => acc
  | c :: rest =>
      if String.eqb c ".." then normalize (removelast acc) rest
      else normalize (acc ++ [c]) rest
  end.

Definition resolve (p : list string) : list string := normalize [] p.

(** [p.relative_to(root)]; [None] stands for the [ValueError] raised when
    [root] is not a prefix of [p]. *)
Definition relative_to (p root : list string) : option (list string) :=
  if decide (root `prefix_of` p) then Some (drop (length root) p) else None.

End Pathlib.

(** ** The world: file system, clock, remote site, logs *)

Inductive node :=
  | File (data : string) (mtime_ns : Z)
  | Dir (size : Z) (mtime_ns : Z).

Definition st_size (n : node) : Z :=
  match n with
  | File data _ => Z.of_nat (String.length data)
  | Dir size _ => size
  end.

Definition st_mtime_ns (n : node) : Z :=
  match n with File _ m | Dir _ m => m end.

Inductive exn :=
  | HTTPError (code : Z) (msg : string)
  | OtherError (msg : string).

(** [str(e)]. *)
Definition str_exn (e : exn) : string :=
  match e with HTTPError _ msg | OtherError msg => msg end.

(** What [resp.read] delivers, call after call. *)
Inductive stream :=
  | Eof
  | Chunk (data : string) (rest : stream)
  | Broken (msg : string).

(** What [urlopen] does with a request. *)
Inductive response :=
  | Refused (e : exn)
  | Opened (body : stream).

(** The system calls the program issues, in the order issued. *)
Inductive syscall :=
  | SysStat (p : list string)
  | SysMkdir (p : list string)
  | SysOpenWrite (p : list string)
  | SysWrite (p : list string)
  | SysRename (src dst : list string)
  | SysUnlink (p : list string)
  | SysRead (p : list string)
  | SysLstat (p : list string).

Record World := mkWorld {
  fs : gmap (list string) node;
  clock : Z;
  origin : nat → string → response;
  requests : list string;
  sleeps : list Z;
  syscalls : list syscall;
  gzip_cache : list ((list string * Z * Z) * string);
}.

Definition with_fs (f : gmap (list string) node) (w : World) : World :=
  mkWorld f (clock w) (origin w) (requests w) (sleeps w) (syscalls w) (gzip_cache w).

Definition with_cache (c : list ((list string * Z * Z) * string)) (w : World) : World :=
  mkWorld (fs w) (clock w) (origin w) (requests w) (sleeps w) (syscalls w) c.

Definition log (c : syscall) (w : World) : World :=
  mkWorld (fs w) (clock w) (origin w) (requests w) (sleeps w) (syscalls w ++ [c]) (gzip_cache w).

(** *** File-system operations on the node table

    A system call addresses the node at the resolved path. *)

Definition fs_is_dir (f : gmap (list string) node) (p : list string) : bool :=
  match p, f !! p with
  | [], _ => true
  | _, Some (Dir _ _) => true
  | _, _ => false
  end.

(** [mkdir(parents=True, exist_ok=True)]: creates the missing directories
    from the top down; fails on a component that is a regular file. *)
Fixpoint fs_mkdirs (size now : Z) (cur comps : list string)
    (f : gmap (list string) node) : gmap (list string) node * bool :=
  match comps with
  | [] => (f, true)
  | c :: rest =>
      let d := cur ++ [c] in
      match f !! d with
      | Some (Dir _ _) => fs_mkdirs size now d rest f
      | Some (File _ _) => (f, false)
      | None => fs_mkdirs size now d rest (<[d := Dir size now]> f)
      end
  end.

(** [open(p, "wb")]: creates or truncates; fails on a directory or under a
    missing directory. *)
Definition fs_create (now : Z) (p : list string)
    (f : gmap (list string) node) : option (gmap (list string) node) :=
  match f !! p with
  | Some (Dir _ _) => None
  | _ => if fs_is_dir f (removelast p) then Some (<[p := File EmptyString now]> f)
         else None
  end.

(** [f.write(data)] on a file opened at [p]. *)
Definition fs_append (now : Z) (p : list string) (data : string)
    (f : gmap (list string) node) : gmap (list string) node :=
  match f !! p with
  | Some (File old _) => <[p := File (old +:+ data) now]> f
  | _ => f
  end.

(** [os.replace src dst]. *)
Definition fs_rename (src dst : list string)
    (f : gmap (list string) node) : option (gmap (list string) node) :=
  match f !! src, f !! dst with
  | Some (File data m), Some (Dir _ _) => None
  | Some (File data m), _ =>
      if fs_is_dir f (removelast dst)
      then Some (<[dst := File data m]> (delete src f)) else None
  | _, _ => None
  end.

(** [unlink(missing_ok=True)]. *)
Definition fs_unlink (p : list string)
    (f : gmap (list string) node) : option (gmap (list string) node) :=
  match f !! p with
  | Some (Dir _ _) => None
  | _ => Some (delete p f)
  end.

(** *** What the program is deployed on

    The directory of the script and the library functions whose results
    the program passes on unchanged. *)

Class Platform := {
  (** [Path(__file__).parent] *)
  ROOT_DIR : list string;
  (** [urllib.parse.unquote] *)
  unquote : string → string;
  (** [gzip.GzipFile(..., compresslevel=6)] run at a given clock value *)
  gzip_compress : Z → string → string;
  (** [BaseHTTPRequestHandler.date_time_string] *)
  date_time_string : Z → string;
  (** [st_size] of a directory just made *)
  new_dir_size : Z;
}.

(** The value of an expression that may raise. *)
Inductive result (A : Type) :=
  | Ok (a : A)
  | Raise (e : exn).
Arguments Ok {A} a.
Arguments Raise {A} e.

Section Effects.

Context {P : Platform}.

(** [p.stat()]; [None] is the error of a path that names nothing. *)
Definition stat (p : list string) (w : World) : World * option node :=
  (log (SysStat p) w, fs w !! Pathlib.resolve p).

(** [p.exists()], for a [stat] that fails by absence only. *)
Definition path_exists (p : list string) (w : World) : World * bool :=
  let (w1, st) := stat p w in
  (w1, match st with Some _ => true | None => false end).

(** [p.is_file()], for a [stat] that fails by absence only. *)
Definition is_file (p : list string) (w : World) : World * bool :=
  let (w1, st) := stat p w in
  (w1, match st with Some (File _ _) => true | _ => false end).

(** [p.mkdir(parents=True, exist_ok=True)]: the directories on the way to
    the resolved path, which are the ones the call makes for a path
    without [..] component. *)
Definition mkdir_parents (p : list string) (w : World) : World * result unit :=
  let w1 := log (SysMkdir p) w in
  match fs_mkdirs new_dir_size (clock w) [] (Pathlib.resolve p) (fs w) with
  | (f, true) => (with_fs f w1, Ok ())
  | (f, false) => (with_fs f w1, Raise (OtherError "File exists"))
  end.

(** [open(p, "wb")] *)
Definition open_wb (p : list string) (w : World) : World * result unit :=
  let w1 := log (SysOpenWrite p) w in
  match fs_create (clock w) (Pathlib.resolve p) (fs w) with
  | Some f => (with_fs f w1, Ok ())
  | None => (w1, Raise (OtherError "cannot open for writing"))
  end.

(** [f.write(data)] *)
Definition write (p : list string) (data : string) (w : World) : World :=
  with_fs (fs_append (clock w) (Pathlib.resolve p) data (fs w)) (log (SysWrite p) w).

(** [src.replace(dst)] *)
Definition replace (src dst : list string) (w : World) : World * result unit :=
  let w1 := log (SysRename src dst) w in
  match fs_rename (Pathlib.resolve src) (Pathlib.resolve dst) (fs w) with
  | Some f => (with_fs f w1, Ok ())
  | None => (w1, Raise (OtherError "cannot replace"))
  end.

(** [p.unlink(missing_ok=True)] *)
Definition unlink (p : list string) (w : World) : World * result unit :=
  let w1 := log (SysUnlink p) w in
  match fs_unlink (Pathlib.resolve p) (fs w) with
  | Some f => (with_fs f w1, Ok ())
  | None => (w1, Raise (OtherError "Is a directory"))
  end.

(** [open(p, "rb").read()] *)
Definition read_bytes (p : list string) (w : World) : World * result string :=
  let w1 := log (SysRead p) w in
  match fs w !! Pathlib.resolve p with
  | Some (File data _) => (w1, Ok data)
  | Some (Dir _ _) => (w1, Raise (OtherError "Is a directory"))
  | None => (w1, Raise (OtherError "No such file or directory"))
  end.

(** [urllib.request.urlopen]: the request is logged and the remote site
    answers according to how many requests came before. *)
Definition urlopen (url : string) (w : World) : World * response :=
  (mkWorld (fs w) (clock w) (origin w) (requests w ++ [url]) (sleeps w)
     (syscalls w) (gzip_cache w),
   origin w (length (requests w)) url).

(** [time.sleep secs] *)
Definition sleep (secs : Z) (w : World) : World :=
  mkWorld (fs w) (clock w + secs * 1000000000) (origin w) (requests w)
    (sleeps w ++ [secs]) (syscalls w) (gzip_cache w).

End Effects.

(** ** The downloader *)

(** The third component of what [download_one] returns: a byte count or a
    text. *)
Inductive info :=
  | InfoInt (n : Z)
  | InfoStr (s : string).

(** [info == "404"] *)
Definition info_eqb (i : info) (s : string) : bool :=
  match i with
  | InfoInt _ => false
  | InfoStr t => String.eqb t s
  end.

(** [(status, path, info)]; the status is [True], [None] or [False]. *)
Definition outcome : Type := option bool * string * info.

(** How a command ends: it returns, it calls [sys.exit], or an exception
    leaves it. *)
Inductive run (A : Type) :=
  | Finished (a : A)
  | Exit (code : Z)
  | Uncaught (e : exn).
Arguments Finished {A} a.
Arguments Exit {A} code.
Arguments Uncaught {A} e.

Section Download.

Context {P : Platform}.

Definition SITE_DIR : list string := ROOT_DIR ++ ["site"].
Definition FILELIST : list string := ROOT_DIR ++ ["filelist.txt"].
Definition BASE_URL : string := "https://homdgcat.wiki".

(** [p.resolve().relative_to(SITE_DIR.resolve())]; [None] is the
    [(ValueError, OSError)] the callers catch.  The system calls of
    [resolve()] are left out here; [Os.inside_site] has them. *)
Definition inside_site (p : list string) : option (list string) :=
  Pathlib.relative_to (Pathlib.resolve p) (Pathlib.resolve SITE_DIR).

(** [SITE_DIR / url_path.lstrip("/")] *)
Definition local_path_of (url_path : string) : list string :=
  Pathlib.joinpath SITE_DIR (Str.lstrip "/"%char url_path).

(** Lines 166-168: the remote address of a directory page leaves out the
    file name. *)
Definition request_path_of (url_path : string) : string :=
  if Str.endswith url_path "/index.html"
  then Str.drop_end (String.length "index.html") url_path
  else url_path.

(** The [safe] argument of line 170. *)
Definition SAFE : string := "/:@!$&'()*+,;=-._~%".

(** Lines 169-171. *)
Definition full_url_of (url_path : string) : string :=
  BASE_URL +:+ Urllib.quote (request_path_of url_path) SAFE.

(** Line 172. *)
Definition tmp_path_of (local_path : list string) : list string :=
  Pathlib.with_suffix local_path (Pathlib.suffix local_path +:+ ".tmp").

(** Lines 183-188: the [while True] loop over what [resp.read] delivers;
    the result is [total]. *)
Fixpoint read_into (tmp_path : list string) (body : stream) (total : Z)
    (w : World) : World * result Z :=
  match body with
  | Eof => (w, Ok total)
  | Broken msg => (w, Raise (OtherError msg))
  | Chunk data rest =>
      if String.eqb data EmptyString then (w, Ok total)
      else read_into tmp_path rest (total + Z.of_nat (String.length data))
             (write tmp_path data w)
  end.

(** Lines 175-193: the body of the inner [try]. *)
Definition try_fetch (url_path full_url : string)
    (local_path tmp_path : list string) (w : World) : World * result outcome :=
  let (w1, resp) := urlopen full_url w in
  match resp with
  | Refused e => (w1, Raise e)
  | Opened body =>
      match open_wb tmp_path w1 with
      | (w2, Raise e) => (w2, Raise e)
      | (w2, Ok _) =>
          match read_into tmp_path body 0 w2 with
          | (w3, Raise e) => (w3, Raise e)
          | (w3, Ok total) =>
              if (0 <? total)%Z then
                match replace tmp_path local_path w3 with
                | (w4, Raise e) => (w4, Raise e)
                | (w4, Ok _) => (w4, Ok (Some true, url_path, InfoInt total))
                end
              else
                match unlink tmp_path w3 with
                | (w4, Raise e) => (w4, Raise e)
                | (w4, Ok _) => (w4, Ok (Some false, url_path, InfoStr "empty"))
                end
          end
      end
  end.

(** Lines 173-206: the [for attempt in range(retries)] loop, over the
    attempts still to make.  An exception that escapes a handler is
    caught by the outer [except] of line 207. *)
Fixpoint attempts (todo : list Z) (retries : Z) (url_path full_url : string)
    (local_path tmp_path : list string) (w : World) : World * outcome :=
  match todo with
  | [] => (w, (Some false, url_path, InfoStr "failed"))
  | attempt :: rest =>
      match try_fetch url_path full_url local_path tmp_path w with
      | (w1, Ok out) => (w1, out)
      | (w1, Raise (HTTPError code msg)) =>
          match unlink tmp_path w1 with
          | (w2, Raise e) => (w2, (Some false, url_path, InfoStr (str_exn e)))
          | (w2, Ok _) =>
              if (code =? 404)%Z then (w2, (Some false, url_path, InfoStr "404"))
              else if (attempt <? retries - 1)%Z
              then attempts rest retries url_path full_url local_path tmp_path
                     (sleep (2 ^ attempt) w2)
              else attempts rest retries url_path full_url local_path tmp_path w2
          end
      | (w1, Raise (OtherError msg)) =>
          match unlink tmp_path w1 with
          | (w2, Raise e) => (w2, (Some false, url_path, InfoStr (str_exn e)))
          | (w2, Ok _) =>
              if (attempt <? retries - 1)%Z
              then attempts rest retries url_path full_url local_path tmp_path
                     (sleep (2 ^ attempt) w2)
              else (w2, (Some false, url_path, InfoStr msg))
          end
      end
  end.

(** [range(n)] *)
Definition range (n : Z) : list Z := Z.of_nat <$> seq 0 (Z.to_nat n).

Definition download_one (url_path : string) (retries : Z) (w : World)
    : World * outcome :=
  let local_path := local_path_of url_path in
  match inside_site local_path with
  | None => (w, (Some false, url_path, InfoStr "path traversal blocked"))
  | Some _ =>
      let (w1, present) := path_exists local_path w in
      let (w2, nonempty) :=
        if present then
          let (w2, st) := stat local_path w1 in
          (w2, match st with
               | Some n => Ok (0 <? st_size n)%Z
               | None => Raise (OtherError "No such file or directory")
               end)
        else (w1, Ok false) in
      match nonempty with
      | Raise e => (w2, (Some false, url_path, InfoStr (str_exn e)))
      | Ok true => (w2, (None, url_path, InfoStr "exists"))
      | Ok false =>
          match mkdir_parents (Pathlib.parent local_path) w2 with
          | (w3, Raise e) => (w3, (Some false, url_path, InfoStr (str_exn e)))
          | (w3, Ok _) =>
              attempts (range retries) retries url_path (full_url_of url_path)
                local_path (tmp_path_of local_path) w3
          end
      end
  end.

(** [_file_ok] *)
Definition _file_ok (url_path : string) (w : World) : World * result bool :=
  let p := local_path_of url_path in
  match inside_site p with
  | None => (w, Ok false)
  | Some _ =>
      let (w1, present) := path_exists p w in
      if present then
        let (w2, st) := stat p w1 in
        (w2, match st with
             | Some n => Ok (0 <? st_size n)%Z
             | None => Raise (OtherError "No such file or directory")
             end)
      else (w1, Ok false)
  end.

(** *** The commands *)

(** Lines 143-146: the lines kept from the text of the list. *)
Definition manifest_lines (text : string) : list string :=
  List.filter
    (λ line, negb (String.eqb line EmptyString) && negb (Str.startswith line "#"))
    (Str.strip <$> Str.lines text).

Definition load_filelist (w : World) : World * run (list string) :=
  let (w1, present) := path_exists FILELIST w in
  if present then
    match read_bytes FILELIST w1 with
    | (w2, Raise e) => (w2, Uncaught e)
    | (w2, Ok text) => (w2, Finished (manifest_lines text))
    end
  else (w1, Exit 1).

(** Line 224: [[p for p in all_paths if not _file_ok(p)]]. *)
Fixpoint to_download_of (all_paths : list string) (w : World)
    : World * result (list string) :=
  match all_paths with
  | [] => (w, Ok [])
  | p :: rest =>
      match _file_ok p w with
      | (w1, Raise e) => (w1, Raise e)
      | (w1, Ok ok) =>
          match to_download_of rest w1 with
          | (w2, Raise e) => (w2, Raise e)
          | (w2, Ok l) => (w2, Ok (if ok then l else p :: l))
          end
      end
  end.

(** Lines 248-253: the pool, run as one worker does it: one entry after
    the other, results in the order of completion. *)
Fixpoint run_pool (to_download : list string) (retries : Z) (w : World)
    : World * list outcome :=
  match to_download with
  | [] => (w, [])
  | p :: rest =>
      let (w1, o) := download_one p retries w in
      let (w2, os) := run_pool rest retries w1 in
      (w2, o :: os)
  end.

Record Tally := mkTally {
  success : Z;
  not_found : Z;
  failed : Z;
  total_bytes : Z;
  failed_paths : list (string * info);
}.

Definition tally0 : Tally := mkTally 0 0 0 0 [].

(** Lines 258-265: one round of the loop over the completed downloads. *)
Definition count_outcome (t : Tally) (o : outcome) : Tally :=
  let '(ok, path, inf) := o in
  match ok with
  | Some true =>
      mkTally (success t + 1) (not_found t) (failed t)
        (total_bytes t + match inf with InfoInt n => n | InfoStr _ => 0 end)
        (failed_paths t)
  | _ =>
      if info_eqb inf "404"
      then mkTally (success t) (not_found t + 1) (failed t) (total_bytes t)
             (failed_paths t)
      else match ok with
           | Some _ =>
               mkTally (success t) (not_found t) (failed t + 1) (total_bytes t)
                 (failed_paths t ++ [(path, inf)])
           | None => t
           end
  end.

Definition count_outcomes (os : list outcome) : Tally :=
  fold_left count_outcome os tally0.

(** [str(info)] *)
Definition str_info (i : info) : string :=
  match i with
  | InfoStr s => s
  | InfoInt n => DecimalString.NilZero.string_of_int (Z.to_int n)
  end.

(** Line 286: [f"{path}\t{info}\n"]. *)
Definition report_line (e : string * info) : string :=
  e.1 +:+ String "009"%char (str_info e.2 +:+ String "010"%char EmptyString).

Definition FAIL_FILE : list string := ROOT_DIR ++ ["download_failures.txt"].

(** Lines 283-286. *)
Definition write_report (entries : list (string * info)) (w : World)
    : World * result unit :=
  match open_wb FAIL_FILE w with
  | (w1, Raise e) => (w1, Raise e)
  | (w1, Ok _) =>
      (fold_left (λ w e, write FAIL_FILE (report_line e) w) entries w1, Ok ())
  end.

Record Args := mkArgs { workers : Z; retry : Z }.

(** [cmd_download]; what is printed is left out.  [Finished None] is the
    early return of line 239. *)
Definition cmd_download (args : Args) (w : World) : World * run (option Tally) :=
  match load_filelist w with
  | (w1, Exit c) => (w1, Exit c)
  | (w1, Uncaught e) => (w1, Uncaught e)
  | (w1, Finished all_paths) =>
      match to_download_of all_paths w1 with
      | (w2, Raise e) => (w2, Uncaught e)
      | (w2, Ok []) => (w2, Finished None)
      | (w2, Ok to_download) =>
          let (w3, os) := run_pool to_download (retry args) w2 in
          let t := count_outcomes os in
          match failed_paths t with
          | [] => (w3, Finished (Some t))
          | entries =>
              match write_report entries w3 with
              | (w4, Raise e) => (w4, Uncaught e)
              | (w4, Ok _) => (w4, Finished (Some t))
              end
          end
      end
  end.

Record Status := mkStatus {
  existing : Z;
  missing : Z;
  total_size : Z;
  cats : gmap string Z;
}.

(** Lines 677-678. *)
Definition category (p : string) : string :=
  let parts := Str.split "/"%char (Str.strip_char "/"%char p) in
  if (2 <? length parts)%nat then Str.join "/" (take 2 parts)
  else hd EmptyString parts.

(** Lines 670-679: the loop of [cmd_status]. *)
Fixpoint status_loop (all_paths : list string) (s : Status) (w : World)
    : World * result Status :=
  match all_paths with
  | [] => (w, Ok s)
  | p :: rest =>
      match _file_ok p w with
      | (w1, Raise e) => (w1, Raise e)
      | (w1, Ok true) =>
          match stat (local_path_of p) w1 with
          | (w2, None) => (w2, Raise (OtherError "No such file or directory"))
          | (w2, Some n) =>
              status_loop rest
                (mkStatus (existing s + 1) (missing s) (total_size s + st_size n)
                   (cats s)) w2
          end
      | (w1, Ok false) =>
          let cat := category p in
          status_loop rest
            (mkStatus (existing s) (missing s + 1) (total_size s)
               (<[cat := (default 0 (cats s !! cat) + 1)%Z]> (cats s))) w1
      end
  end.

Definition cmd_status (w : World) : World * run Status :=
  match load_filelist w with
  | (w1, Exit c) => (w1, Exit c)
  | (w1, Uncaught e) => (w1, Uncaught e)
  | (w1, Finished all_paths) =>
      match status_loop all_paths (mkStatus 0 0 0 ∅) w1 with
      | (w2, Raise e) => (w2, Uncaught e)
      | (w2, Ok s) => (w2, Finished s)
      end
  end.

End Download.

(** ** The server *)

(** What the handler reads of a request: [self.path] and the two headers
    it looks up. *)
Record Request := mkRequest {
  path : string;
  if_none_match : option string;
  accept_encoding : option string;
}.

(** What the handler does with a request: [send_error], or a response of
    its own making (the header lines in the order of the [send_header]
    calls, and the body written to [wfile], if any), or an exception that
    leaves the handler.  The [Server] and [Date] lines that [send_response]
    adds by itself are the same for every reply and are left out. *)
Inductive reply :=
  | SendError (code : Z)
  | Sent (status : Z) (headers : list (string * string)) (body : option string)
  | Failed (e : exn).

Definition _COMPRESSIBLE : list string :=
  [".js"; ".css"; ".html"; ".json"; ".svg"; ".txt"; ".xml"].

Definition _STATIC_BIN : list string :=
  [".png"; ".jpg"; ".jpeg"; ".gif"; ".webp"; ".woff"; ".woff2"; ".wav"].

Definition _MIME_MAP : list (string * string) :=
  [ (".js", "application/javascript; charset=utf-8");
    (".css", "text/css; charset=utf-8");
    (".json", "application/json; charset=utf-8");
    (".html", "text/html; charset=utf-8");
    (".png", "image/png"); (".jpg", "image/jpeg"); (".jpeg", "image/jpeg");
    (".gif", "image/gif"); (".svg", "image/svg+xml; charset=utf-8");
    (".webp", "image/webp"); (".wav", "audio/wav");
    (".woff2", "font/woff2"); (".woff", "font/woff");
    (".xml", "application/xml; charset=utf-8");
    (".txt", "text/plain; charset=utf-8");
    (".ico", "image/x-icon") ].

(** [_MIME_MAP.get(ext, "application/octet-stream")] *)
Fixpoint mime_get (ext : string) (m : list (string * string)) : string :=
  match m with
  | [] => "application/octet-stream"
  | (k, v) :: rest => if String.eqb ext k then v else mime_get ext rest
  end.

(** [format(n, "x")] *)
Definition hex (n : Z) : string :=
  HexadecimalString.NilZero.string_of_int (Z.to_hex_int n).

(** [str(n)] *)
Definition str_int (n : Z) : string :=
  DecimalString.NilZero.string_of_int (Z.to_int n).

Definition dquote : ascii := "034"%char.

(** [_make_etag]: the quoted text [mtime-size], both in hexadecimal. *)
Definition _make_etag (st : node) : string :=
  String dquote
    (hex (st_mtime_ns st) +:+ "-" +:+ hex (st_size st) +:+ String dquote EmptyString).

(** [_cache_control] *)
Definition _cache_control (ext : string) : string :=
  if Str.mem ext (_STATIC_BIN ++ [".woff"; ".woff2"]) then "public, max-age=604800"
  else if Str.mem ext [".js"; ".css"] then "public, max-age=86400"
  else if String.eqb ext ".html" then "public, max-age=3600"
  else "public, max-age=3600".

(** Line 409: [if_none and etag in (t.strip() for t in if_none.split(","))]. *)
Definition etag_listed (if_none : option string) (etag : string) : bool :=
  match if_none with
  | None => false
  | Some v =>
      negb (String.eqb v EmptyString)
      && Str.mem etag (Str.strip <$> Str.split ","%char v)
  end.

(** The [lru_cache] of [_gzip_cached], most recently used entry first. *)
Fixpoint cache_find (k : list string * Z * Z)
    (c : list ((list string * Z * Z) * string)) : option string :=
  match c with
  | [] => None
  | (k', v) :: rest => if decide (k' = k) then Some v else cache_find k rest
  end.

Definition cache_remove (k : list string * Z * Z)
    (c : list ((list string * Z * Z) * string)) : list ((list string * Z * Z) * string) :=
  List.filter (λ e, negb (bool_decide (e.1 = k))) c.

Section Server.

Context {P : Platform}.

(** [_gzip_cached]: a hit returns the stored bytes; a miss reads the
    file, compresses it and stores the result, dropping the entry used
    least recently beyond 1024. *)
Definition _gzip_cached (fp : list string) (mtime_ns size : Z) (w : World)
    : World * result string :=
  let key := (fp, mtime_ns, size) in
  match cache_find key (gzip_cache w) with
  | Some v => (with_cache ((key, v) :: cache_remove key (gzip_cache w)) w, Ok v)
  | None =>
      match read_bytes fp w with
      | (w1, Raise e) => (w1, Raise e)
      | (w1, Ok raw) =>
          let v := gzip_compress (clock w) raw in
          (with_cache (take 1024 ((key, v) :: gzip_cache w)) w1, Ok v)
      end
  end.

(** Lines 389-393: the check on the chosen target. *)
Definition guard_target (target : list string) : option (list string) :=
  match inside_site target with
  | None => None
  | Some _ => Some target
  end.

(** Lines 370-394: the loop over the candidates. *)
Fixpoint resolve_candidates (candidates : list string) (w : World)
    : World * option (list string) :=
  match candidates with
  | [] => (w, None)
  | candidate :: rest =>
      let stripped := Str.lstrip "/"%char candidate in
      if String.eqb stripped EmptyString then
        let idx := Pathlib.joinpath (Pathlib.joinpath SITE_DIR "index") "index.html" in
        let (w1, found) := is_file idx w in
        if found then (w1, Some idx) else resolve_candidates rest w1
      else
        let fp := Pathlib.joinpath SITE_DIR stripped in
        let (w1, found) := is_file fp w in
        if found then (w1, guard_target fp)
        else
          let (w2, found') := is_file (Pathlib.joinpath fp "index.html") w1 in
          if found' then (w2, guard_target (Pathlib.joinpath fp "index.html"))
          else resolve_candidates rest w2
  end.

(** Line 365: [self.path.split("?")[0].split("#")[0]]. *)
Definition raw_of (self_path : string) : string :=
  hd EmptyString (Str.split "#"%char (hd EmptyString (Str.split "?"%char self_path))).

(** [_resolve_path] *)
Definition _resolve_path (self_path : string) (w : World)
    : World * option (list string) :=
  let raw := raw_of self_path in
  let decoded := unquote raw in
  resolve_candidates [decoded; raw] w.

(** Lines 420-425: [None] when [use_gzip] stays false, else the
    compressed body. *)
Definition gzip_choice (req : Request) (fp : list string) (ext : string)
    (st : node) (w : World) : World * result (option string) :=
  if Str.mem ext _COMPRESSIBLE && (256 <? st_size st)%Z then
    let ae := default EmptyString (accept_encoding req) in
    if Str.contains "gzip" ae then
      match _gzip_cached fp (st_mtime_ns st) (st_size st) w with
      | (w1, Raise e) => (w1, Raise e)
      | (w1, Ok body) => (w1, Ok (Some body))
      end
    else (w, Ok None)
  else (w, Ok None).

(** [int(st.st_mtime)] *)
Definition mtime_seconds (st : node) : Z :=
  (st_mtime_ns st ÷ 1000000000)%Z.

(** [_serve_file] *)
Definition _serve_file (req : Request) (fp : list string) (head_only : bool)
    (w : World) : World * reply :=
  match stat fp w with
  | (w1, None) => (w1, SendError 404)
  | (w1, Some st) =>
      let etag := _make_etag st in
      let ext := Str.lower (Pathlib.suffix fp) in
      if etag_listed (if_none_match req) etag then
        (w1, Sent 304
               ([("ETag", etag); ("Cache-Control", _cache_control ext)]
                ++ (if Str.mem ext _COMPRESSIBLE
                    then [("Vary", "Accept-Encoding")] else [])
                ++ [("Access-Control-Allow-Origin", "*")])
               None)
      else
        match gzip_choice req fp ext st w1 with
        | (w2, Raise e) => (w2, Failed e)
        | (w2, Ok use_gzip) =>
            if head_only then
              (w2, Sent 200
                     ([("Content-Type", mime_get ext _MIME_MAP)]
                      ++ match use_gzip with
                         | Some body =>
                             [("Content-Length", str_int (Z.of_nat (String.length body)));
                              ("Content-Encoding", "gzip");
                              ("Vary", "Accept-Encoding")]
                         | None => [("Content-Length", str_int (st_size st))]
                         end
                      ++ [("ETag", etag);
                          ("Cache-Control", _cache_control ext);
                          ("Last-Modified", date_time_string (mtime_seconds st));
                          ("Access-Control-Allow-Origin", "*")])
                     None)
            else
              let (w3, read) :=
                match use_gzip with
                | Some body => (w2, Ok body)
                | None => read_bytes fp w2
                end in
              match read with
              | Raise _ => (w3, SendError 500)
              | Ok body =>
                  (w3, Sent 200
                         ([("Content-Type", mime_get ext _MIME_MAP);
                           ("Content-Length", str_int (Z.of_nat (String.length body)));
                           ("ETag", etag);
                           ("Cache-Control", _cache_control ext);
                           ("Last-Modified", date_time_string (mtime_seconds st))]
                          ++ match use_gzip with
                             | Some _ =>
                                 [("Content-Encoding", "gzip");
                                  ("Vary", "Accept-Encoding")]
                             | None => []
                             end
                          ++ [("Access-Control-Allow-Origin", "*")])
                         (Some body))
              end
        end
  end.

Definition do_GET (req : Request) (w : World) : World * reply :=
  match _resolve_path (path req) w with
  | (w1, Some fp) => _serve_file req fp false w1
  | (w1, None) => (w1, SendError 404)
  end.

Definition do_HEAD (req : Request) (w : World) : World * reply :=
  match _resolve_path (path req) w with
  | (w1, Some fp) => _serve_file req fp true w1
  | (w1, None) => (w1, SendError 404)
  end.

End Server.

(** ** The ASGI server *)

(** What [_etag_for] takes from the library. *)
Class AsgiLibrary := {
  (** [hashlib.md5(s).hexdigest()] *)
  md5_hexdigest : string → string;
  (** [str(st.st_mtime)], for the [st_mtime_ns] of the same [stat] result *)
  str_st_mtime : Z → string;
}.

Definition _CACHE_MAX_AGE : list (string * Z) :=
  [ (".png", 604800); (".jpg", 604800); (".jpeg", 604800); (".gif", 604800);
    (".webp", 604800); (".woff", 604800); (".woff2", 604800); (".wav", 604800);
    (".ico", 604800);
    (".js", 86400); (".css", 86400);
    (".html", 3600); (".json", 3600) ]%Z.

(** [_CACHE_MAX_AGE.get(ext, 3600)] *)
Fixpoint max_age_get (ext : string) (m : list (string * Z)) : Z :=
  match m with
  | [] => 3600
  | (k, v) :: rest => if String.eqb ext k then v else max_age_get ext rest
  end.

(** What [handle] returns: a bare [Response], or a [FileResponse] for a
    path and its [stat] result. *)
Inductive asgi_reply :=
  | Response (status_code : Z) (headers : list (string * string))
  | FileResponse (target : list string) (st : node) (headers : list (string * string)).

Section Asgi.

Context {P : Platform} {L : AsgiLibrary}.

(** [site = SITE_DIR.resolve()] *)
Definition site : list string := Pathlib.resolve SITE_DIR.

(** [_etag_for]; both variants compute the same text. *)
Definition _etag_for (st : node) : string :=
  let base := str_st_mtime (st_mtime_ns st) +:+ "-" +:+ str_int (st_size st) in
  String dquote (md5_hexdigest base +:+ String dquote EmptyString).

(** [target.resolve().relative_to(site)] and what follows it. *)
Definition asgi_guard (target : list string) : option (list string) :=
  match Pathlib.relative_to (Pathlib.resolve target) site with
  | None => None
  | Some _ => Some target
  end.

(** [_resolve]; a candidate that starts with the separator replaces
    [site] when it is joined to it. *)
Fixpoint _resolve (candidates : list string) (w : World)
    : World * option (list string) :=
  match candidates with
  | [] => (w, None)
  | candidate :: rest =>
      if String.eqb candidate EmptyString || String.eqb candidate "/" then
        let idx := Pathlib.joinpath (Pathlib.joinpath site "index") "index.html" in
        let (w1, found) := is_file idx w in
        if found then (w1, Some idx) else _resolve rest w1
      else
        let fp := Pathlib.joinpath site candidate in
        let (w1, found) := is_file fp w in
        if found then (w1, asgi_guard fp)
        else
          let (w2, found') := is_file (Pathlib.joinpath fp "index.html") w1 in
          if found' then (w2, asgi_guard (Pathlib.joinpath fp "index.html"))
          else _resolve rest w2
  end.

(** [handle]: [path] is the path parameter of the route, [raw_path] the
    raw path of the scope, [if_none_header] the [if-none-match] header. *)
Definition handle (path raw_path : string) (if_none_header : option string)
    (w : World) : World * result asgi_reply :=
  let raw := Str.lstrip "/"%char raw_path in
  match _resolve [unquote path; path; raw] w with
  | (w1, None) => (w1, Ok (Response 404 []))
  | (w1, Some target) =>
      match stat target w1 with
      | (w2, None) => (w2, Raise (OtherError "No such file or directory"))
      | (w2, Some st) =>
          let etag := _etag_for st in
          let ext := Str.lower (Pathlib.suffix target) in
          let max_age := max_age_get ext _CACHE_MAX_AGE in
          let extra :=
            [("Cache-Control", "public, max-age=" +:+ str_int max_age);
             ("Access-Control-Allow-Origin", "*")] in
          let if_none := default EmptyString if_none_header in
          if String.eqb if_none "*"
             || Str.mem etag (Str.strip <$> Str.split ","%char if_none)
          then (w2, Ok (Response 304 (("ETag", etag) :: extra)))
          else (w2, Ok (FileResponse target st extra))
      end
  end.

End Asgi.

(** ** The display language *)

(** What a source of the locale does when it is called: it returns a pair
    whose first component is a name or [None], or it raises an exception,
    which is one of the three kinds [_detect_lang] catches or not. *)
Inductive locale_call :=
  | LocaleReturns (lang : option string)
  | LocaleRaises (caught : bool) (e : exn).

(** Line 53: the language for the name of a locale. *)
Definition lang_of_locale (lang : string) : string :=
  if Str.startswith lang "zh" || Str.startswith lang "Chinese" then "zh" else "en".

(** Lines 49-56: the loop over the sources, and the fallback to the
    environment. *)
Fixpoint detect_lang_loop (sources : list locale_call) (env_LANG : option string)
    : result string :=
  match sources with
  | [] =>
      Ok (if Str.startswith (default EmptyString env_LANG) "zh" then "zh" else "en")
  | LocaleRaises true _ :: rest => detect_lang_loop rest env_LANG
  | LocaleRaises false e :: _ => Raise e
  | LocaleReturns l :: rest =>
      let lang := default EmptyString l in
      if String.eqb lang EmptyString then detect_lang_loop rest env_LANG
      else Ok (lang_of_locale lang)
  end.

(** [_detect_lang]; the arguments are what [locale.getlocale] and
    [locale.getdefaultlocale] do, and the value of [LANG] when it is set. *)
Definition _detect_lang (getlocale getdefaultlocale : locale_call)
    (env_LANG : option string) : result string :=
  detect_lang_loop [getlocale; getdefaultlocale] env_LANG.

(** [s.split(sep, 1)[1]]; [None] is the [IndexError] of a text without the
    separator. *)
Fixpoint split1_second (sep : ascii) (s : string) : option string :=
  match s with
  | EmptyString => None
  | String a s' => if Ascii.eqb a sep then Some s' else split1_second sep s'
  end.

(** Lines 702-712 of [main]: the loop that looks for [--lang] before the
    parser is built.  [rest] holds the arguments from index [i] on; the
    result is the value of [_LANG] after the loop. *)
Fixpoint main_lang_loop (argv : list string) (i : nat) (rest : list string)
    (lang : string) : result string :=
  match rest with
  | [] => Ok lang
  | arg :: rest' =>
      if String.eqb arg "--lang" && (i <? length argv)%nat then
        let val :=
          if (i + 1 <=? length argv - 1)%nat then argv !! (i + 1)%nat else None in
        match val with
        | Some v => Ok (if Str.mem v ["zh"; "en"] then v else lang)
        | None => Ok lang
        end
      else if Str.startswith arg "--lang=" then
        match split1_second "="%char arg with
        | Some v => Ok (if Str.mem v ["zh"; "en"] then v else lang)
        | None => Raise (OtherError "list index out of range")
        end
      else main_lang_loop argv (S i) rest' lang
  end.

Definition main_lang (argv : list string) (lang : string) : result string :=
  main_lang_loop argv 1 (drop 1 argv) lang.

(** ** The [serve] command *)

Record ServeArgs := mkServeArgs {
  port : Z;
  cert : option string;
  key : option string;
}.

(** The server a command starts: [hypercorn] with its bind address and,
    under TLS, the certificate and the key; or the built-in server on a
    port. *)
Inductive served :=
  | ServeAsgi (bind : string) (tls : option (string * string))
  | ServeStdlib (on_port : Z).

(** The truth value of an optional text. *)
Definition truthy (s : option string) : bool :=
  match s with
  | Some t => negb (String.eqb t EmptyString)
  | None => false
  end.

(** [_serve_asgi], up to the call that serves. *)
Definition _serve_asgi (on_port : Z) (certfile keyfile : option string) : served :=
  ServeAsgi ("0.0.0.0:" +:+ str_int on_port)
    (if truthy certfile && truthy keyfile
     then Some (default EmptyString certfile, default EmptyString keyfile)
     else None).

(** [_serve_stdlib], up to the call that serves. *)
Definition _serve_stdlib (on_port : Z) : served := ServeStdlib on_port.

(** [cmd_serve]; [has_asgi] tells whether [starlette] and [hypercorn]
    can be imported. *)
Definition cmd_serve {P : Platform} (args : ServeArgs) (has_asgi : bool)
    (w : World) : World * run served :=
  let (w1, present) := path_exists SITE_DIR w in
  if negb present then (w1, Exit 1)
  else
    let use_tls := truthy (cert args) && truthy (key args) in
    if use_tls && negb has_asgi then (w1, Exit 1)
    else if has_asgi then (w1, Finished (_serve_asgi (port args) (cert args) (key args)))
    else (w1, Finished (_serve_stdlib (port args))).

(** ** The look-ups in detail

    The models above take [resolve()] for a computation on the path and
    [exists()] and [is_file()] for questions that are always answered.
    The library does more than that, and the functions of this module write
    it out, after the standard library of Python 3.11, for the code that
    checks a path against the site.
    - [resolve()] walks the path with [os.path.realpath]: every prefix it
      arrives at is examined with [lstat], and the result is looked up
      once more with [stat].  In a tree without symbolic links the result
      is the path with its [..] components cancelled; an error of these
      calls is not raised.
    - [exists()] and [is_file()] call [stat].  They answer [False] when it
      fails with [ENOENT], [ENOTDIR], [EBADF] or [ELOOP], which is what a
      path that names nothing gives, and raise every other error again:
      [ENAMETOOLONG] for a name longer than the file system takes,
      [EACCES] below a directory that may not be searched.
    What [stat] finds is left to the operating system: *)

Class Kernel := {
  (** [os.stat] on a path, in a tree: the node found, nothing when the
      call fails with an error that [exists()] and [is_file()] take for
      absence, or the error they raise again *)
  os_stat : gmap (list string) node → list string → result (option node);
}.

(** The operating system the first model assumes: every path is found at
    its resolved place, and a look-up fails by absence only. *)
Definition lexical : Kernel := {|
  os_stat := λ f p, Ok (f !! Pathlib.resolve p) |}.

Module Os.

(** The prefixes [os.path.realpath] examines with [lstat] on its way
    through [p], having arrived at [acc]: one for every component that is
    not [..]. *)
Fixpoint lstat_walk (acc p : list string) : list (list string) :=
  match p with
  | [] => []
  | c :: rest =>
      if String.eqb c ".." then lstat_walk (removelast acc) rest
      else (acc ++ [c]) :: lstat_walk (acc ++ [c]) rest
  end.

(** [p.resolve()]: the walk, and then one [stat] of the result, by which
    the library looks for a loop of links; its error is not raised
    either. *)
Definition resolve (p : list string) (w : World) : World * list string :=
  let w1 := fold_left (λ w q, log (SysLstat q) w) (lstat_walk [] p) w in
  (log (SysStat (Pathlib.resolve p)) w1, Pathlib.resolve p).

Section Lookups.

Context {P : Platform} {K : Kernel}.

(** [p.resolve().relative_to(SITE_DIR.resolve())] under
    [except (ValueError, OSError)]: [None] is the exception caught. *)
Definition inside_site (p : list string) (w : World)
    : World * option (list string) :=
  let (w1, resolved) := resolve p w in
  let (w2, site_resolved) := resolve SITE_DIR w1 in
  (w2, Pathlib.relative_to resolved site_resolved).

(** [p.stat()]; absence is the [OSError] of a missing file. *)
Definition stat (p : list string) (w : World) : World * result node :=
  (log (SysStat p) w,
   match os_stat (fs w) p with
   | Ok (Some n) => Ok n
   | Ok None => Raise (OtherError "No such file or directory")
   | Raise e => Raise e
   end).

(** [p.exists()] *)
Definition path_exists (p : list string) (w : World) : World * result bool :=
  (log (SysStat p) w,
   match os_stat (fs w) p with
   | Ok (Some _) => Ok true
   | Ok None => Ok false
   | Raise e => Raise e
   end).

(** [p.is_file()] *)
Definition is_file (p : list string) (w : World) : World * result bool :=
  (log (SysStat p) w,
   match os_stat (fs w) p with
   | Ok (Some (File _ _)) => Ok true
   | Ok _ => Ok false
   | Raise e => Raise e
   end).

(** [p.exists() and p.stat().st_size > 0] *)
Definition exists_nonempty (p : list string) (w : World) : World * result bool :=
  match path_exists p w with
  | (w1, Raise e) => (w1, Raise e)
  | (w1, Ok false) => (w1, Ok false)
  | (w1, Ok true) =>
      match stat p w1 with
      | (w2, Raise e) => (w2, Raise e)
      | (w2, Ok n) => (w2, Ok (0 <? st_size n)%Z)
      end
  end.

(** [download_one]: an exception of lines 161-172 is caught by the outer
    [except] of line 207. *)
Definition download_one (url_path : string) (retries : Z) (w : World)
    : World * outcome :=
  let local_path := local_path_of url_path in
  let (w0, inside) := inside_site local_path w in
  match inside with
  | None => (w0, (Some false, url_path, InfoStr "path traversal blocked"))
  | Some _ =>
      match exists_nonempty local_path w0 with
      | (w2, Raise e) => (w2, (Some false, url_path, InfoStr (str_exn e)))
      | (w2, Ok true) => (w2, (None, url_path, InfoStr "exists"))
      | (w2, Ok false) =>
          match mkdir_parents (Pathlib.parent local_path) w2 with
          | (w3, Raise e) => (w3, (Some false, url_path, InfoStr (str_exn e)))
          | (w3, Ok _) =>
              attempts (range retries) retries url_path (full_url_of url_path)
                local_path (tmp_path_of local_path) w3
          end
      end
  end.

(** [_file_ok]: the look-ups of line 218 are outside the [try]. *)
Definition _file_ok (url_path : string) (w : World) : World * result bool :=
  let p := local_path_of url_path in
  let (w0, inside) := inside_site p w in
  match inside with
  | None => (w0, Ok false)
  | Some _ => exists_nonempty p w0
  end.

Definition load_filelist (w : World) : World * run (list string) :=
  match path_exists FILELIST w with
  | (w1, Raise e) => (w1, Uncaught e)
  | (w1, Ok false) => (w1, Exit 1)
  | (w1, Ok true) =>
      match read_bytes FILELIST w1 with
      | (w2, Raise e) => (w2, Uncaught e)
      | (w2, Ok text) => (w2, Finished (manifest_lines text))
      end
  end.

(** Line 224: [[p for p in all_paths if not _file_ok(p)]]. *)
Fixpoint to_download_of (all_paths : list string) (w : World)
    : World * result (list string) :=
  match all_paths with
  | [] => (w, Ok [])
  | p :: rest =>
      match _file_ok p w with
      | (w1, Raise e) => (w1, Raise e)
      | (w1, Ok ok) =>
          match to_download_of rest w1 with
          | (w2, Raise e) => (w2, Raise e)
          | (w2, Ok l) => (w2, Ok (if ok then l else p :: l))
          end
      end
  end.

(** Lines 248-253, as one worker runs them. *)
Fixpoint run_pool (to_download : list string) (retries : Z) (w : World)
    : World * list outcome :=
  match to_download with
  | [] => (w, [])
  | p :: rest =>
      let (w1, o) := download_one p retries w in
      let (w2, os) := run_pool rest retries w1 in
      (w2, o :: os)
  end.

Definition cmd_download (args : Args) (w : World) : World * run (option Tally) :=
  match load_filelist w with
  | (w1, Exit c) => (w1, Exit c)
  | (w1, Uncaught e) => (w1, Uncaught e)
  | (w1, Finished all_paths) =>
      match to_download_of all_paths w1 with
      | (w2, Raise e) => (w2, Uncaught e)
      | (w2, Ok []) => (w2, Finished None)
      | (w2, Ok to_download) =>
          let (w3, os) := run_pool to_download (retry args) w2 in
          let t := count_outcomes os in
          match failed_paths t with
          | [] => (w3, Finished (Some t))
          | entries =>
              match write_report entries w3 with
              | (w4, Raise e) => (w4, Uncaught e)
              | (w4, Ok _) => (w4, Finished (Some t))
              end
          end
      end
  end.

(** Lines 670-679: the loop of [cmd_status]. *)
Fixpoint status_loop (all_paths : list string) (s : Status) (w : World)
    : World * result Status :=
  match all_paths with
  | [] => (w, Ok s)
  | p :: rest =>
      match _file_ok p w with
      | (w1, Raise e) => (w1, Raise e)
      | (w1, Ok true) =>
          match stat (local_path_of p) w1 with
          | (w2, Raise e) => (w2, Raise e)
          | (w2, Ok n) =>
              status_loop rest
                (mkStatus (existing s + 1) (missing s) (total_size s + st_size n)
                   (cats s)) w2
          end
      | (w1, Ok false) =>
          let cat := category p in
          status_loop rest
            (mkStatus (existing s) (missing s + 1) (total_size s)
               (<[cat := (default 0 (cats s !! cat) + 1)%Z]> (cats s))) w1
      end
  end.

Definition cmd_status (w : World) : World * run Status :=
  match load_filelist w with
  | (w1, Exit c) => (w1, Exit c)
  | (w1, Uncaught e) => (w1, Uncaught e)
  | (w1, Finished all_paths) =>
      match status_loop all_paths (mkStatus 0 0 0 ∅) w1 with
      | (w2, Raise e) => (w2, Uncaught e)
      | (w2, Ok s) => (w2, Finished s)
      end
  end.

(** Lines 389-393: the check on the chosen target. *)
Definition guard_target (target site_resolved : list string) (w : World)
    : World * option (list string) :=
  let (w1, resolved) := resolve target w in
  (w1, match Pathlib.relative_to resolved site_resolved with
       | None => None
       | Some _ => Some target
       end).

(** Lines 370-394: the loop over the candidates; [is_file] is called
    outside any [try]. *)
Fixpoint resolve_candidates (site_resolved : list string)
    (candidates : list string) (w : World)
    : World * result (option (list string)) :=
  match candidates with
  | [] => (w, Ok None)
  | candidate :: rest =>
      let stripped := Str.lstrip "/"%char candidate in
      if String.eqb stripped EmptyString then
        let idx := Pathlib.joinpath (Pathlib.joinpath SITE_DIR "index") "index.html" in
        match is_file idx w with
        | (w1, Raise e) => (w1, Raise e)
        | (w1, Ok true) => (w1, Ok (Some idx))
        | (w1, Ok false) => resolve_candidates site_resolved rest w1
        end
      else
        let fp := Pathlib.joinpath SITE_DIR stripped in
        match is_file fp w with
        | (w1, Raise e) => (w1, Raise e)
        | (w1, Ok true) =>
            let (w2, r) := guard_target fp site_resolved w1 in (w2, Ok r)
        | (w1, Ok false) =>
            match is_file (Pathlib.joinpath fp "index.html") w1 with
            | (w2, Raise e) => (w2, Raise e)
            | (w2, Ok true) =>
                let (w3, r) :=
                  guard_target (Pathlib.joinpath fp "index.html") site_resolved w2 in
                (w3, Ok r)
            | (w2, Ok false) => resolve_candidates site_resolved rest w2
            end
        end
  end.

(** [_resolve_path] *)
Definition _resolve_path (self_path : string) (w : World)
    : World * result (option (list string)) :=
  let raw := raw_of self_path in
  let decoded := unquote raw in
  let (w0, site_resolved) := resolve SITE_DIR w in
  resolve_candidates site_resolved [decoded; raw] w0.

End Lookups.

End Os.

(** ** Vocabulary of the statements *)

(** The world after the [stat] calls on [ps]: only the log grows. *)
Definition probed (ps : list (list string)) (w : World) : World :=
  mkWorld (fs w) (clock w) (origin w) (requests w) (sleeps w)
    (syscalls w ++ (SysStat <$> ps)) (gzip_cache w).

(** The world after the system calls [cs], when none of them changes the
    file system. *)
Definition logged (cs : list syscall) (w : World) : World :=
  mkWorld (fs w) (clock w) (origin w) (requests w) (sleeps w)
    (syscalls w ++ cs) (gzip_cache w).

(** An entry is present when its local path resolves inside the site and
    names something of non-zero size. *)
Definition present {P : Platform} (w : World) (url_path : string) : bool :=
  match inside_site (local_path_of url_path) with
  | None => false
  | Some _ =>
      match fs w !! Pathlib.resolve (local_path_of url_path) with
      | Some n => (0 <? st_size n)%Z
      | None => false
      end
  end.

(** The error a response ends in, if it does: a refusal, or a body that
    breaks before its end. *)
Fixpoint stream_error (body : stream) : option string :=
  match body with
  | Eof => None
  | Broken msg => Some msg
  | Chunk data rest =>
      if String.eqb data EmptyString then None else stream_error rest
  end.

Definition response_error (r : response) : option exn :=
  match r with
  | Refused e => Some e
  | Opened body => OtherError <$> stream_error body
  end.

(** A body that delivers nothing. *)
Definition empty_body (body : stream) : bool :=
  match body with
  | Eof => true
  | Chunk data _ => String.eqb data EmptyString
  | Broken _ => false
  end.

Definition is_404 (e : exn) : bool :=
  match e with
  | HTTPError code _ => (code =? 404)%Z
  | OtherError _ => false
  end.

(** The text [download_one] reports for the error that ends its loop. *)
Definition final_info (e : exn) : string :=
  match e with
  | HTTPError code _ => if (code =? 404)%Z then "404" else "failed"
  | OtherError msg => msg
  end.

(** The resolved temporary path of an entry. *)
Definition tmp_of {P : Platform} (url_path : string) : list string :=
  Pathlib.resolve (tmp_path_of (local_path_of url_path)).

(** The world in which [download_one] enters its loop, when it gets there:
    the local path is inside the site, the entry is not present, and the
    directories could be made. *)
Definition loop_start {P : Platform} (url_path : string) (w : World)
    : option World :=
  let local_path := local_path_of url_path in
  match inside_site local_path with
  | None => None
  | Some _ =>
      if present w url_path then None
      else
        let w2 :=
          match fs w !! Pathlib.resolve local_path with
          | Some _ => probed [local_path; local_path] w
          | None => probed [local_path] w
          end in
        match mkdir_parents (Pathlib.parent local_path) w2 with
        | (w3, Ok _) => Some w3
        | (_, Raise _) => None
        end
  end.

(** How many of the system calls [cs] remove the file at the path [p]. *)
Definition unlinks_of (p : list string) (cs : list syscall) : nat :=
  length
    (List.filter
       (λ c, match c with SysUnlink q => bool_decide (q = p) | _ => false end)
       cs).

(** The failures the loop of [cmd_download] lists: the outcomes whose
    status is [False] and whose text is not ["404"], in the order of
    completion. *)
Fixpoint reported (os : list outcome) : list (string * info) :=
  match os with
  | [] => []
  | (Some false, path, inf) :: rest =>
      if info_eqb inf "404" then reported rest else (path, inf) :: reported rest
  | _ :: rest => reported rest
  end.

(** The text of the report for the listed failures. *)
Definition report_text (entries : list (string * info)) : string :=
  fold_right String.append EmptyString (report_line <$> entries).

(** The digits of [hex]. *)
Definition hexchars : string := "0123456789abcdef".

(** The three conditions of lines 421-423 for a compressed answer. *)
Definition eligible (req : Request) (fp : list string) (st : node) : bool :=
  Str.mem (Str.lower (Pathlib.suffix fp)) _COMPRESSIBLE
  && (256 <? st_size st)%Z
  && Str.contains "gzip" (default EmptyString (accept_encoding req)).

(** The compressed bytes [_gzip_cached] returns for a file: the stored
    ones if the cache has them, else the compression of the file. *)
Definition gzip_body {P : Platform} (fp : list string) (data : string) (m : Z)
    (w : World) : string :=
  match cache_find (fp, m, Z.of_nat (String.length data)) (gzip_cache w) with
  | Some v => v
  | None => gzip_compress (clock w) data
  end.


(** What a body delivers before its end: the chunks up to the first empty
    one. *)
Fixpoint received (body : stream) : string :=
  match body with
  | Eof | Broken _ => EmptyString
  | Chunk data rest =>
      if String.eqb data EmptyString then EmptyString else data +:+ received rest
  end.

(** An outcome that says the download succeeded. *)
Definition is_success (o : outcome) : bool :=
  match o.1.1 with Some true => true | _ => false end.

(** An outcome the loop of [cmd_download] counts nowhere: the entry was
    already present. *)
Definition is_skipped (o : outcome) : bool :=
  match o.1.1 with None => negb (info_eqb o.2 "404") | _ => false end.

(** An outcome counted as not found. *)
Definition is_not_found (o : outcome) : bool :=
  negb (is_success o) && info_eqb o.2 "404".

(** The bytes a successful outcome reports. *)
Definition bytes_of (o : outcome) : Z :=
  match o with
  | (Some true, _, InfoInt n) => n
  | _ => 0
  end.

(** An entry as [load_filelist] returns it: not empty, not a comment,
    without white space at its ends and without line break. *)
Definition clean_entry (p : string) : Prop :=
  p ≠ EmptyString
  ∧ Str.startswith p "#" = false
  ∧ Str.strip p = p
  ∧ Urllib.in_string "010"%char p = false
  ∧ Urllib.in_string "013"%char p = false.

(** A text is trimmed on the left when it is empty or starts with
    something that is not white space. *)
Definition trimmed_left (s : string) : Prop :=
  match s with
  | EmptyString => True
  | String a _ => Str.isspace a = false
  end.



(** The characters [quote] leaves as they are under the safe list of
    line 170. *)
Definition url_safe (a : ascii) : bool :=
  Urllib.always_safe a || Urllib.in_string a SAFE.

(** A system call that only reads. *)
Definition read_only_call (c : syscall) : bool :=
  match c with
  | SysStat _ | SysRead _ => true
  | _ => false
  end.

(** The world after a handler ran: the log of system calls has grown by
    calls that only read, the cache may have changed, all else is as it
    was. *)
Definition served_world (w w' : World) : Prop :=
  fs w' = fs w ∧ clock w' = clock w ∧ origin w' = origin w
  ∧ requests w' = requests w ∧ sleeps w' = sleeps w
  ∧ ∃ cs, syscalls w' = syscalls w ++ cs ∧ forallb read_only_call cs = true.

(** A cache as [lru_cache(maxsize=1024)] keeps it: at most 1024 entries,
    no key twice. *)
Definition cache_ok (c : list ((list string * Z * Z) * string)) : Prop :=
  (length c ≤ 1024)%nat ∧ NoDup (fst <$> c).

(** An argument that the loop of [main] passes over. *)
Definition not_lang_option (arg : string) : Prop :=
  arg ≠ "--lang" ∧ Str.startswith arg "--lang=" = false.

(** A system call that looks a path up. *)
Definition look_up (c : syscall) : bool :=
  match c with
  | SysStat _ | SysLstat _ => true
  | _ => false
  end.

(** The system calls of [p.resolve()]. *)
Definition resolving (p : list string) : list syscall :=
  (SysLstat <$> Os.lstat_walk [] p) ++ [SysStat (Pathlib.resolve p)].

(** An entry is found present when its local path resolves inside the site
    and [stat] finds something of non-zero size there. *)
Definition found_present {P : Platform} {K : Kernel} (w : World)
    (url_path : string) : bool :=
  match inside_site (local_path_of url_path) with
  | None => false
  | Some _ =>
      match os_stat (fs w) (local_path_of url_path) with
      | Ok (Some n) => (0 <? st_size n)%Z
      | _ => false
      end
  end.

(** The look-up of an entry inside the site fails with an error that is
    raised. *)
Definition stat_raises {P : Platform} {K : Kernel} (w : World) (e : exn)
    (url_path : string) : Prop :=
  is_Some (inside_site (local_path_of url_path))
  ∧ os_stat (fs w) (local_path_of url_path) = Raise e.

(** A path without [..] component: [resolve()] returns it as it is, and
    the directories on the way to it are its prefixes. *)
Definition no_dotdot (p : list string) : Prop :=
  Forall (λ c, c ≠ "..") p.

(** [s.isascii()]: every byte is below 128, so that the text and its UTF-8
    encoding are the same bytes and its only white space is ASCII. *)
Definition is_ascii (s : string) : bool :=
  forallb (λ a, (nat_of_ascii a <? 128)%nat) (list_ascii_of_string s).

(** Two worlds that differ in the log of system calls at most. *)
Definition same_state (w w' : World) : Prop :=
  fs w = fs w' ∧ clock w = clock w' ∧ origin w = origin w'
  ∧ requests w = requests w' ∧ sleeps w = sleeps w'
  ∧ gzip_cache w = gzip_cache w'.

(** ** A small deployment, used by the examples *)

Module Demo.

(** Compression is a stand-in that marks the bytes; dates are printed as
    numbers of seconds. *)
Definition platform : Platform := {|
  ROOT_DIR := ["srv"; "HomDGCat"];
  unquote := Urllib.unquote_to_bytes;
  gzip_compress := λ _ raw, "gz:" +:+ raw;
  date_time_string := str_int;
  new_dir_size := 4096 |}.

Fixpoint copies (n : nat) (s : string) : string :=
  match n with
  | O => EmptyString
  | S n' => s +:+ copies n' s
  end.

(** A script of 320 bytes. *)
Definition script : string := copies 40 "let x=1;".

(** The mirror holds a page and a script; a file lies next to it, outside. *)
Definition tree (filelist : list string) : gmap (list string) node :=
  list_to_map
    [ (["srv"], Dir 4096 1);
      (["srv"; "HomDGCat"], Dir 4096 1);
      (["srv"; "HomDGCat"; "site"], Dir 4096 1);
      (["srv"; "HomDGCat"; "secret.txt"], File "top secret" 5);
      (["srv"; "HomDGCat"; "site"; "a.html"], File "<html>" 77);
      (["srv"; "HomDGCat"; "site"; "app.js"], File script 99);
      (["srv"; "HomDGCat"; "filelist.txt"],
       File (Str.join (String "010"%char EmptyString) filelist) 7) ].

(** The remote site: a page, a missing file, an empty file, a file the
    server fails on; everything else times out. *)
Definition remote (n : nat) (url : string) : response :=
  if String.eqb url "https://homdgcat.wiki/sr/char/1001/"
  then Opened (Chunk "hel" (Chunk "lo" Eof))
  else if String.eqb url "https://homdgcat.wiki/missing.js"
  then Refused (HTTPError 404 "HTTP Error 404: Not Found")
  else if String.eqb url "https://homdgcat.wiki/empty.js"
  then Opened Eof
  else if String.eqb url "https://homdgcat.wiki/bad.js"
  then Refused (HTTPError 500 "HTTP Error 500: Internal Server Error")
  else Refused (OtherError "timed out").

Definition world (filelist : list string) : World :=
  mkWorld (tree filelist) 1000 remote [] [] [] [].



End Demo.

(** * Properties *)

(** ** Paths *)

Section PathFacts.

Import Pathlib.

Lemma normalize_app (acc p q : list string) :
  normalize acc (p ++ q) = normalize (normalize acc p) q.
Proof.
  revert acc. induction p as [|c p IH]; intros acc; simpl; [done|].
  destruct (String.eqb c ".."); apply IH.
Qed.

Lemma normalize_snoc (acc p : list string) (c : string) :
  c ≠ ".." → normalize acc (p ++ [c]) = normalize acc p ++ [c].
Proof.
  intros Hc. rewrite normalize_app. simpl.
  by apply String.eqb_neq in Hc as ->.
Qed.

Lemma resolve_snoc (p : list string) (c : string) :
  c ≠ ".." → resolve (p ++ [c]) = resolve p ++ [c].
Proof. apply normalize_snoc. Qed.

Lemma prefix_snoc_inv {A} (l r : list A) (x : A) :
  l `prefix_of` r ++ [x] → l `prefix_of` r ∨ l = r ++ [x].
Proof.
  intros [k Hk]. destruct k as [|y k _] using rev_ind.
  - right. by rewrite app_nil_r in Hk.
  - left. rewrite app_assoc in Hk. apply app_inj_tail in Hk as [-> _].
    by exists k.
Qed.

End PathFacts.

Section SiteFacts.

Context {P : Platform}.
Import Pathlib.



Lemma inside_index :
  is_Some (inside_site (joinpath (joinpath SITE_DIR "index") "index.html")).
Proof.
  unfold inside_site, relative_to.
  destruct (decide _) as [|Hn]; [by eexists|]. exfalso. apply Hn.
  change (joinpath (joinpath SITE_DIR "index") "index.html")
    with ((SITE_DIR ++ ["index"]) ++ ["index.html"]).
  rewrite !resolve_snoc by done.
  rewrite <- app_assoc. by apply prefix_app_r.
Qed.

End SiteFacts.

(** ** The world under read-only probes *)

Lemma probed_nil (w : World) : probed [] w = w.
Proof. destruct w. unfold probed. simpl. by rewrite app_nil_r. Qed.

Lemma probed_log (p : list string) (w : World) : log (SysStat p) w = probed [p] w.
Proof. done. Qed.

Lemma probed_probed (ps qs : list (list string)) (w : World) :
  probed qs (probed ps w) = probed (ps ++ qs) w.
Proof. unfold probed. simpl. by rewrite fmap_app, app_assoc. Qed.

Section Traversal.

Context {P : Platform}.
Import Pathlib.

Lemma stat_probed (p : list string) (w : World) :
  stat p w = (probed [p] w, fs w !! resolve p).
Proof. done. Qed.

Lemma is_file_probed (p : list string) (w : World) :
  (is_file p w).1 = probed [p] w.
Proof. done. Qed.

Lemma path_exists_probed (p : list string) (w : World) :
  (path_exists p w).1 = probed [p] w.
Proof. done. Qed.

Lemma guard_target_inside (fp t : list string) :
  guard_target fp = Some t → is_Some (inside_site t).
Proof.
  unfold guard_target. destruct (inside_site fp) eqn:E; [|done].
  intros [= <-]. by rewrite E.
Qed.

(** The resolver only probes, and what it returns lies inside the site. *)
Lemma resolve_candidates_safe (candidates : list string) (w : World) :
  ∃ ps, (resolve_candidates candidates w).1 = probed ps w
        ∧ ∀ t, (resolve_candidates candidates w).2 = Some t →
               is_Some (inside_site t).
Proof.
  revert w. induction candidates as [|c rest IH]; intros w; simpl.
  { exists []. by rewrite probed_nil. }
  destruct (String.eqb (Str.lstrip "/" c) EmptyString).
  - set (idx := joinpath (joinpath SITE_DIR "index") "index.html").
    destruct (IH (log (SysStat idx) w)) as (ps & Hw & Ht).
    destruct (fs w !! resolve idx) as [[]|]; simpl.
    + exists [idx]. split; [done|]. intros t [= <-]. apply inside_index.
    + exists ([idx] ++ ps). split; [|exact Ht]. by rewrite Hw, probed_log, probed_probed.
    + exists ([idx] ++ ps). split; [|exact Ht]. by rewrite Hw, probed_log, probed_probed.
  - set (fp := joinpath SITE_DIR (Str.lstrip "/" c)).
    set (fpi := joinpath fp "index.html").
    destruct (IH (log (SysStat fpi) (log (SysStat fp) w))) as (ps & Hw & Ht).
    assert (∃ ps0, (let (w2, found') := is_file fpi (log (SysStat fp) w) in
              if found' then (w2, guard_target fpi)
              else resolve_candidates rest w2).1 = probed ps0 w
            ∧ ∀ t, (let (w2, found') := is_file fpi (log (SysStat fp) w) in
              if found' then (w2, guard_target fpi)
              else resolve_candidates rest w2).2 = Some t →
              is_Some (inside_site t)) as Hrest.
    { simpl. destruct (fs w !! resolve fpi) as [[]|]; simpl.
      - exists [fp; fpi]. split; [|apply guard_target_inside].
        by rewrite !probed_log, !probed_probed.
      - exists ([fp; fpi] ++ ps).
        split; [|exact Ht]. by rewrite Hw, !probed_log, !probed_probed.
      - exists ([fp; fpi] ++ ps).
        split; [|exact Ht]. by rewrite Hw, !probed_log, !probed_probed. }
    destruct (fs w !! resolve fp) as [[]|]; simpl; [|exact Hrest..].
    exists [fp]. split; [done|]. apply guard_target_inside.
Qed.



End Traversal.

(** ** Read-only steps *)

Lemma logged_nil (w : World) : logged [] w = w.
Proof. destruct w. unfold logged. simpl. by rewrite app_nil_r. Qed.

Lemma logged_log (c : syscall) (w : World) : log c w = logged [c] w.
Proof. done. Qed.

Lemma logged_logged (cs ds : list syscall) (w : World) :
  logged ds (logged cs w) = logged (cs ++ ds) w.
Proof. unfold logged. simpl. by rewrite app_assoc. Qed.

Lemma probed_logged (ps : list (list string)) (w : World) :
  probed ps w = logged (SysStat <$> ps) w.
Proof. done. Qed.

Section Presence.

Context {P : Platform}.
Import Pathlib.

Lemma present_probed (ps : list (list string)) (w : World) (p : string) :
  present (probed ps w) p = present w p.
Proof. done. Qed.

(** [_file_ok] never raises: it probes and answers [present]. *)
Lemma file_ok_spec (p : string) (w : World) :
  ∃ ps, _file_ok p w = (probed ps w, Ok (present w p)).
Proof.
  unfold _file_ok, present.
  destruct (inside_site (local_path_of p)).
  - simpl. destruct (fs w !! resolve (local_path_of p)) eqn:E; simpl.
    + exists [local_path_of p; local_path_of p].
      by rewrite !probed_log, probed_probed.
    + by exists [local_path_of p].
  - exists []. by rewrite probed_nil.
Qed.

Lemma to_download_of_spec (all_paths : list string) (w : World) :
  ∃ ps, to_download_of all_paths w
        = (probed ps w, Ok (List.filter (λ p, negb (present w p)) all_paths)).
Proof.
  revert w. induction all_paths as [|p rest IH]; intros w; simpl.
  { exists []. by rewrite probed_nil. }
  destruct (file_ok_spec p w) as (ps & ->).
  destruct (IH (probed ps w)) as (qs & ->).
  exists (ps ++ qs). rewrite probed_probed.
  change (present (probed ps w)) with (present w).
  by destruct (present w p).
Qed.

(** What [download_one] does with a present entry. *)
Lemma download_one_present (p : string) (retries : Z) (w : World) :
  present w p = true →
  download_one p retries w
  = (probed [local_path_of p; local_path_of p] w, (None, p, InfoStr "exists")).
Proof.
  unfold present, download_one.
  destruct (inside_site (local_path_of p)); [|done]. simpl.
  destruct (fs w !! resolve (local_path_of p)) eqn:E; [|done]. simpl.
  intros ->. by rewrite !probed_log, probed_probed.
Qed.

End Presence.

Section Manifest.

Context {P : Platform}.
Import Pathlib.

Lemma load_filelist_logged (w w1 : World) (all_paths : list string) :
  load_filelist w = (w1, Finished all_paths) →
  w1 = logged [SysStat FILELIST; SysRead FILELIST] w.
Proof.
  unfold load_filelist, read_bytes. simpl.
  destruct (fs w !! resolve FILELIST) as [[]|]; simpl; [|done..].
  intros [= <- _]. by rewrite !logged_log, logged_logged.
Qed.

Lemma present_logged (cs : list syscall) (w : World) (p : string) :
  present (logged cs w) p = present w p.
Proof. done. Qed.

Lemma file_ok_true_present (p : string) (w w1 : World) :
  _file_ok p w = (w1, Ok true) → present w p = true.
Proof. destruct (file_ok_spec p w) as (ps & ->). by intros [= _ ->]. Qed.


End Manifest.

(** ** Strings *)

Section StringFacts.

Lemma append_cons (a : ascii) (s t : string) :
  String a s +:+ t = String a (s +:+ t).
Proof. done. Qed.

Lemma append_nil_l (t : string) : EmptyString +:+ t = t.
Proof. done. Qed.

Lemma append_nil_r (s : string) : s +:+ EmptyString = s.
Proof. induction s as [|a s IH]; [done|]. by rewrite append_cons, IH. Qed.

Lemma append_assoc (s t u : string) : (s +:+ t) +:+ u = s +:+ (t +:+ u).
Proof. induction s as [|a s IH]; [done|]. by rewrite !append_cons, IH. Qed.

Lemma length_append (s t : string) :
  String.length (s +:+ t) = (String.length s + String.length t)%nat.
Proof. induction s as [|a s IH]; [done|]. rewrite append_cons. simpl. by rewrite IH. Qed.

Lemma substring_all (s : string) : String.substring 0 (String.length s) s = s.
Proof. induction s as [|a s IH]; [done|]. simpl. by rewrite IH. Qed.

Lemma substring_app_l (s t : string) :
  String.substring 0 (String.length s) (s +:+ t) = s.
Proof.
  induction s as [|a s IH]; [by destruct t|]. rewrite append_cons. simpl.
  by rewrite IH.
Qed.

Lemma substring_app_r (s t : string) (n : nat) :
  String.substring (String.length s) n (s +:+ t) = String.substring 0 n t.
Proof. induction s as [|a s IH]; [done|]. by rewrite append_cons. Qed.

Lemma substring_split (k : nat) (s : string) :
  (k ≤ String.length s)%nat →
  String.substring 0 k s +:+ String.substring k (String.length s - k) s = s.
Proof.
  revert k. induction s as [|a s IH]; intros k Hk.
  { by destruct k. }
  destruct k as [|k]; simpl.
  - by rewrite append_nil_l, substring_all.
  - rewrite append_cons, IH; [done|]. simpl in Hk. lia.
Qed.

Lemma endswith_inv (s suf : string) :
  Str.endswith s suf = true →
  s = Str.slice_to (String.length s - String.length suf) s +:+ suf.
Proof.
  unfold Str.endswith, Str.slice_to, Str.slice_from.
  intros [Hlen Heq%String.eqb_eq]%andb_prop. apply Nat.leb_le in Hlen.
  remember (String.length s - String.length suf)%nat as k eqn:Hk.
  rewrite <- Heq. symmetry. apply substring_split. lia.
Qed.

Lemma endswith_app (pre suf : string) : Str.endswith (pre +:+ suf) suf = true.
Proof.
  unfold Str.endswith, Str.slice_from. rewrite length_append.
  apply andb_true_intro. split; [apply Nat.leb_le; lia|].
  apply String.eqb_eq.
  replace (String.length pre + String.length suf - String.length suf)%nat
    with (String.length pre) by lia.
  replace (String.length pre + String.length suf - String.length pre)%nat
    with (String.length suf) by lia.
  by rewrite substring_app_r, substring_all.
Qed.

Lemma drop_end_app (pre suf : string) :
  Str.drop_end (String.length suf) (pre +:+ suf) = pre.
Proof.
  unfold Str.drop_end, Str.slice_to. rewrite length_append.
  replace (String.length pre + String.length suf - String.length suf)%nat
    with (String.length pre) by lia.
  apply substring_app_l.
Qed.

End StringFacts.

(** ** The request address *)

Section Quote.

Import Urllib.

Lemma split_cons (sep : ascii) (s : string) :
  ∃ h t, Str.split sep s = h :: t.
Proof.
  induction s as [|a s (h & t & IH)]; simpl; [by eexists _, _|].
  destruct (Ascii.eqb a sep); [by eexists _, _|]. rewrite IH. by eexists _, _.
Qed.

(** A piece without separator stays in front of the first component. *)
Lemma split_app_no_sep (sep : ascii) (p s h : string) (t : list string) :
  in_string sep p = false → Str.split sep s = h :: t →
  Str.split sep (p +:+ s) = (p +:+ h) :: t.
Proof.
  intros Hp Hs. induction p as [|a p IH]; [done|].
  unfold in_string in Hp. cbn [existsb list_ascii_of_string] in Hp.
  apply orb_false_elim in Hp as [Ha Hp].
  rewrite append_cons. cbn [Str.split]. rewrite Ascii.eqb_sym, Ha.
  by rewrite (IH Hp).
Qed.

Lemma hex_upper_not_slash (n : N) : Ascii.eqb "/" (hex_upper n) = false.
Proof.
  unfold hex_upper.
  repeat match goal with
         | |- context [match ?x with _ => _ end] => destruct x
         end; done.
Qed.

Lemma quote_char_slash : quote_char SAFE "/" = String "/" EmptyString.
Proof. done. Qed.

Lemma quote_char_no_slash (a : ascii) :
  Ascii.eqb a "/" = false → in_string "/" (quote_char SAFE a) = false.
Proof.
  intros Ha. unfold quote_char.
  destruct (always_safe a || in_string a SAFE); unfold in_string, percent;
    cbn [existsb list_ascii_of_string].
  - by rewrite Ascii.eqb_sym, Ha.
  - by rewrite !hex_upper_not_slash.
Qed.

(** Encoding keeps the separators: the components of the encoded path are
    the encoded components. *)
Lemma quote_split (s : string) :
  Str.split "/" (quote s SAFE) = (λ c, quote c SAFE) <$> Str.split "/" s.
Proof.
  induction s as [|a s IH]; [done|]. simpl.
  destruct (Ascii.eqb a "/") eqn:Ha.
  - apply Ascii.eqb_eq in Ha as ->. rewrite quote_char_slash, append_cons.
    simpl. by rewrite append_nil_l, IH.
  - destruct (split_cons "/" s) as (h & t & Hs). rewrite Hs in *. simpl in *.
    by apply split_app_no_sep; [apply quote_char_no_slash|].
Qed.

End Quote.

Section RequestPath.

Context {P : Platform}.

Lemma request_path_index (url_path : string) :
  Str.endswith url_path "/index.html" = true →
  ∃ dir, url_path = dir +:+ "/index.html" ∧ request_path_of url_path = dir +:+ "/".
Proof.
  intros Hend. unfold request_path_of. rewrite Hend.
  apply endswith_inv in Hend.
  set (dir := Str.slice_to _ _) in Hend. exists dir. split; [done|].
  rewrite Hend. change "/index.html" with ("/" +:+ "index.html").
  rewrite <- append_assoc. apply drop_end_app.
Qed.

End RequestPath.

(** ** The file system under [download_one] *)

Section NodeTable.

Implicit Types f : gmap (list string) node.

(** Making directories adds directories where nothing was, and nothing
    else. *)
Lemma fs_mkdirs_keeps (size now : Z) (comps cur : list string) f f' (ok : bool)
    (q : list string) (n : node) :
  fs_mkdirs size now cur comps f = (f', ok) → f !! q = Some n → f' !! q = Some n.
Proof.
  revert cur f. induction comps as [|c comps IH]; intros cur f; simpl.
  { by intros [= <- _]. }
  destruct (f !! (cur ++ [c])) as [[]|] eqn:E.
  - by intros [= <- _].
  - apply IH.
  - intros Hrun Hq. eapply IH; [done|].
    rewrite lookup_insert_ne; [done|]. congruence.
Qed.

Lemma fs_mkdirs_new (size now : Z) (comps cur : list string) f f' (ok : bool)
    (q : list string) (n : node) :
  fs_mkdirs size now cur comps f = (f', ok) → f' !! q = Some n →
  f !! q = Some n ∨ (f !! q = None ∧ n = Dir size now).
Proof.
  revert cur f. induction comps as [|c comps IH]; intros cur f; simpl.
  { intros [= <- _]. by left. }
  destruct (f !! (cur ++ [c])) as [[]|] eqn:E.
  - intros [= <- _]. by left.
  - apply IH.
  - intros Hrun Hq. destruct (IH _ _ Hrun Hq) as [Hold|[Hold ->]].
    + destruct (decide (cur ++ [c] = q)) as [<-|Hne].
      * rewrite lookup_insert_eq in Hold. right. by injection Hold as <-.
      * rewrite lookup_insert_ne in Hold by done. by left.
    + right. split; [|done].
      destruct (decide (cur ++ [c] = q)) as [<-|Hne].
      * by rewrite lookup_insert_eq in Hold.
      * by rewrite lookup_insert_ne in Hold.
Qed.

Lemma fs_is_dir_lookup f (p : list string) (size m : Z) :
  f !! p = Some (Dir size m) → fs_is_dir f p = true.
Proof. unfold fs_is_dir. destruct p; [done|]. by intros ->. Qed.

(** When it succeeds, the whole path is a directory. *)
Lemma fs_mkdirs_is_dir (size now : Z) (comps cur : list string) f f' :
  fs_is_dir f cur = true →
  fs_mkdirs size now cur comps f = (f', true) →
  fs_is_dir f' (cur ++ comps) = true.
Proof.
  revert cur f. induction comps as [|c comps IH]; intros cur f Hcur; simpl.
  { intros [= <-]. by rewrite app_nil_r. }
  rewrite (cons_middle c cur comps), app_assoc.
  destruct (f !! (cur ++ [c])) as [[]|] eqn:E; [done| |].
  - apply IH. by eapply fs_is_dir_lookup.
  - apply IH. eapply fs_is_dir_lookup. apply lookup_insert_eq.
Qed.

End NodeTable.

(** ** The temporary path *)

Section TmpPath.

Import Pathlib.

Lemma length_substring_0 (k : nat) (s : string) :
  String.length (String.substring 0 k s) = Nat.min k (String.length s).
Proof.
  revert k. induction s as [|a s IH]; intros [|k]; simpl; try done.
  by rewrite IH.
Qed.

(** The name of the temporary file is longer than the name it is made
    from. *)
Lemma tmp_name_longer (p : list string) :
  (String.length (name p) < String.length (stem p +:+ (suffix p +:+ ".tmp")))%nat.
Proof.
  rewrite !length_append. unfold stem, Str.slice_to.
  rewrite length_substring_0. simpl. lia.
Qed.

Lemma tmp_name_long (p : list string) :
  (4 ≤ String.length (stem p +:+ (suffix p +:+ ".tmp")))%nat.
Proof. rewrite !length_append. simpl. lia. Qed.

Lemma tmp_path_split (p : list string) :
  tmp_path_of p = parent p ++ [stem p +:+ (suffix p +:+ ".tmp")].
Proof. done. Qed.

Lemma resolve_tmp_path (p : list string) :
  resolve (tmp_path_of p)
  = resolve (parent p) ++ [stem p +:+ (suffix p +:+ ".tmp")].
Proof.
  rewrite tmp_path_split. apply resolve_snoc.
  intros Heq. pose proof (tmp_name_long p) as Hlen.
  rewrite Heq in Hlen. simpl in Hlen. lia.
Qed.

Lemma resolve_tmp_parent (p : list string) :
  removelast (resolve (tmp_path_of p)) = resolve (parent p).
Proof. rewrite resolve_tmp_path. apply removelast_last. Qed.

Lemma resolve_tmp_nonempty (p : list string) : resolve (tmp_path_of p) ≠ [].
Proof. rewrite resolve_tmp_path. by destruct (resolve (parent p)). Qed.

Lemma length_removelast {A} (l : list A) : (length (removelast l) ≤ length l)%nat.
Proof. induction l as [|x [|y l] IH]; simpl in *; lia. Qed.

(** The temporary file is never the target itself. *)
Lemma resolve_tmp_ne (p : list string) : resolve p ≠ resolve (tmp_path_of p).
Proof.
  rewrite resolve_tmp_path. destruct (decide (p = [])) as [->|Hne]; [done|].
  rewrite (app_removelast_last EmptyString Hne) at 1.
  fold (parent p) (name p). unfold resolve at 1. rewrite normalize_app. simpl.
  fold (resolve (parent p)).
  destruct (String.eqb (name p) "..") eqn:E.
  - intros Heq. apply (f_equal length) in Heq. rewrite length_app in Heq.
    pose proof (length_removelast (resolve (parent p))). simpl in Heq. lia.
  - intros Heq. apply app_inj_tail in Heq as [_ Heq].
    pose proof (tmp_name_longer p) as Hlen. rewrite <- Heq in Hlen. lia.
Qed.

End TmpPath.

(** ** One attempt *)

Section Attempt.

Context {P : Platform}.
Import Pathlib.

Variables (url_path url : string) (local_path tmp_path : list string).

Lemma not_dir_lookup (f : gmap (list string) node) (t : list string) :
  fs_is_dir f t = false →
  t ≠ [] ∧ (f !! t = None ∨ ∃ data m, f !! t = Some (File data m)).
Proof.
  unfold fs_is_dir. destruct t as [|c t]; [done|].
  destruct (f !! (c :: t)) as [[]|]; intros; split; try done; eauto.
Qed.

Lemma not_dir_file (f : gmap (list string) node) (t : list string) data m :
  t ≠ [] → f !! t = Some (File data m) → fs_is_dir f t = false.
Proof. unfold fs_is_dir. destruct t; [done|]. by intros _ ->. Qed.

Lemma not_dir_none (f : gmap (list string) node) (t : list string) :
  t ≠ [] → f !! t = None → fs_is_dir f t = false.
Proof. unfold fs_is_dir. destruct t; [done|]. by intros _ ->. Qed.

Lemma unlinks_of_app (p : list string) (cs ds : list syscall) :
  unlinks_of p (cs ++ ds) = (unlinks_of p cs + unlinks_of p ds)%nat.
Proof. unfold unlinks_of. by rewrite List.filter_app, length_app. Qed.

(** Copying the body touches the temporary file only, and ends in the
    error of a body that breaks. *)
Lemma read_into_spec (body : stream) (total : Z) (w : World) data m :
  fs w !! resolve tmp_path = Some (File data m) →
  let r := read_into tmp_path body total w in
  requests r.1 = requests w ∧ sleeps r.1 = sleeps w ∧ origin r.1 = origin w
  ∧ (∃ data' m', fs r.1 !! resolve tmp_path = Some (File data' m'))
  ∧ (∀ q, q ≠ resolve tmp_path → fs r.1 !! q = fs w !! q)
  ∧ (∀ msg, stream_error body = Some msg → r.2 = Raise (OtherError msg))
  ∧ unlinks_of tmp_path (syscalls r.1) = unlinks_of tmp_path (syscalls w).
Proof.
  revert total w data m. induction body as [|chunk rest IH|msg];
    intros total w data m Hfile; simpl.
  - repeat split; eauto. done.
  - destruct (String.eqb chunk EmptyString); simpl.
    { repeat split; eauto. done. }
    edestruct (IH (total + Z.of_nat (String.length chunk))%Z
                 (write tmp_path chunk w)) as (Hr & Hs & Ho & Hf & Hq & He & Hu).
    { unfold write, fs_append. simpl. rewrite Hfile. apply lookup_insert_eq. }
    repeat split; try done.
    + intros q Hne. rewrite Hq by done. unfold write, fs_append. simpl.
      rewrite Hfile. by rewrite lookup_insert_ne.
    + rewrite Hu. simpl. rewrite unlinks_of_app. unfold unlinks_of. simpl. lia.
  - repeat split; eauto. by intros ? [= <-].
Qed.

(** An attempt that meets a failing response raises its error, having made
    one request and touched the temporary file only. *)
Lemma try_fetch_error (w : World) (e : exn) :
  fs_is_dir (fs w) (resolve tmp_path) = false →
  fs_is_dir (fs w) (removelast (resolve tmp_path)) = true →
  response_error (origin w (length (requests w)) url) = Some e →
  ∃ w1, try_fetch url_path url local_path tmp_path w = (w1, Raise e)
        ∧ requests w1 = requests w ++ [url]
        ∧ sleeps w1 = sleeps w ∧ origin w1 = origin w
        ∧ fs_is_dir (fs w1) (resolve tmp_path) = false
        ∧ (∀ q, q ≠ resolve tmp_path → fs w1 !! q = fs w !! q)
        ∧ unlinks_of tmp_path (syscalls w1) = unlinks_of tmp_path (syscalls w).
Proof.
  intros Hnd Hpar Hresp. unfold try_fetch, urlopen.
  destruct (origin w (length (requests w)) url) as [e'|body]; simpl in Hresp.
  { injection Hresp as ->. eexists. repeat split; done. }
  destruct (stream_error body) as [msg|] eqn:Hbody; [|done].
  injection Hresp as <-.
  apply not_dir_lookup in Hnd as [Hne Hnode].
  unfold open_wb, fs_create. simpl.
  assert (∃ f, match fs w !! resolve tmp_path with
               | Some (Dir _ _) => None
               | _ => if fs_is_dir (fs w) (removelast (resolve tmp_path))
                      then Some (<[resolve tmp_path := File EmptyString (clock w)]> (fs w))
                      else None
               end = Some f
               ∧ f = <[resolve tmp_path := File EmptyString (clock w)]> (fs w))
    as (f & -> & ->).
  { rewrite Hpar. destruct Hnode as [->|(? & ? & ->)]; by eexists. }
  match goal with
  | |- context [read_into tmp_path body 0 ?w2] =>
      destruct (read_into_spec body 0 w2 EmptyString (clock w))
        as (Hr & Hs & Ho & (d' & m' & Hf) & Hq & He & Hu);
      [apply lookup_insert_eq|];
      destruct (read_into tmp_path body 0 w2) as [w3 r]
  end.
  simpl in *. rewrite (He msg) by done. eexists. repeat split; try done.
  - by eapply not_dir_file.
  - intros q Hq'. rewrite Hq by done. by rewrite lookup_insert_ne.
  - rewrite Hu. simpl. rewrite !unlinks_of_app. unfold unlinks_of. simpl. lia.
Qed.

(** Removing the temporary file. *)
Lemma unlink_tmp (w : World) :
  fs_is_dir (fs w) (resolve tmp_path) = false →
  ∃ w2, unlink tmp_path w = (w2, Ok ())
        ∧ requests w2 = requests w ∧ sleeps w2 = sleeps w ∧ origin w2 = origin w
        ∧ fs w2 = delete (resolve tmp_path) (fs w)
        ∧ unlinks_of tmp_path (syscalls w2) = S (unlinks_of tmp_path (syscalls w)).
Proof.
  intros [Hne Hnode]%not_dir_lookup. unfold unlink, fs_unlink.
  assert (unlinks_of tmp_path (syscalls w ++ [SysUnlink tmp_path])
          = S (unlinks_of tmp_path (syscalls w))) as Hu.
  { rewrite unlinks_of_app. unfold unlinks_of at 2. simpl.
    rewrite bool_decide_eq_true_2 by done. simpl. lia. }
  destruct Hnode as [->|(? & ? & ->)]; eexists; repeat split; done.
Qed.

End Attempt.

(** ** The loop over the attempts *)

Section Loop.

Context {P : Platform}.
Import Pathlib.

Variables (retries : Z) (url_path url : string) (local_path tmp_path : list string).

(** An attempt that fails with a 404, or that fails as the last one, ends
    the loop, with the temporary file removed and without sleep. *)
Lemma attempts_last (attempt : Z) (rest : list Z) (e : exn) (w : World) :
  fs_is_dir (fs w) (resolve tmp_path) = false →
  fs_is_dir (fs w) (removelast (resolve tmp_path)) = true →
  response_error (origin w (length (requests w)) url) = Some e →
  is_404 e = true ∨ (attempt = retries - 1 ∧ rest = [])%Z →
  ∃ w', attempts (attempt :: rest) retries url_path url local_path tmp_path w
        = (w', (Some false, url_path, InfoStr (final_info e)))
        ∧ requests w' = requests w ++ [url]
        ∧ sleeps w' = sleeps w
        ∧ fs w' !! resolve tmp_path = None
        ∧ (∀ q, q ≠ resolve tmp_path → fs w' !! q = fs w !! q)
        ∧ unlinks_of tmp_path (syscalls w') = S (unlinks_of tmp_path (syscalls w)).
Proof.
  intros Hnd Hpar Hresp Hend.
  destruct (try_fetch_error url_path url local_path tmp_path w e Hnd Hpar Hresp)
    as (w1 & Hrun & Hr1 & Hs1 & Ho1 & Hnd1 & Hq1 & Hu1).
  destruct (unlink_tmp tmp_path w1 Hnd1) as (w2 & Hun & Hr2 & Hs2 & Ho2 & Hf2 & Hu2).
  assert (fs w2 !! resolve tmp_path = None) as Hgone
    by (rewrite Hf2; apply lookup_delete_eq).
  assert (∀ q, q ≠ resolve tmp_path → fs w2 !! q = fs w !! q) as Hsame.
  { intros q Hq. rewrite Hf2, lookup_delete_ne by done. by apply Hq1. }
  cbn [attempts]. rewrite Hrun.
  destruct e as [code msg|msg]; rewrite Hun; simpl in *.
  - destruct (code =? 404)%Z eqn:Hcode.
    + exists w2. repeat split; try congruence; done.
    + destruct Hend as [|[-> ->]]; [done|].
      rewrite Z.ltb_irrefl.
      exists w2. repeat split; try congruence; done.
  - destruct Hend as [|[-> ->]]; [done|].
    rewrite Z.ltb_irrefl.
    exists w2. repeat split; try congruence; done.
Qed.

End Loop.

Section LoopPrefix.

Context {P : Platform}.
Import Pathlib.

Variables (retries : Z) (url_path url : string) (local_path tmp_path : list string).

(** The attempts that fail with the errors [errs], none of them a 404 and
    none at the last attempt, lead to the next attempt: each has made one
    request, removed the temporary file and slept. *)
Lemma attempts_retry (errs : list exn) (k : nat) (rest : list Z) (w : World) :
  fs_is_dir (fs w) (resolve tmp_path) = false →
  fs_is_dir (fs w) (removelast (resolve tmp_path)) = true →
  (∀ i x, errs !! i = Some x →
          response_error (origin w (length (requests w) + i) url) = Some x) →
  Forall (λ x, is_404 x = false) errs →
  (Z.of_nat (k + length errs) < retries)%Z →
  ∃ w', attempts ((Z.of_nat <$> seq k (length errs)) ++ rest) retries
          url_path url local_path tmp_path w
        = attempts rest retries url_path url local_path tmp_path w'
        ∧ requests w' = requests w ++ replicate (length errs) url
        ∧ sleeps w' = sleeps w ++ ((λ n, 2 ^ Z.of_nat n)%Z <$> seq k (length errs))
        ∧ origin w' = origin w
        ∧ fs_is_dir (fs w') (resolve tmp_path) = false
        ∧ fs_is_dir (fs w') (removelast (resolve tmp_path)) = true
        ∧ (∀ q, q ≠ resolve tmp_path → fs w' !! q = fs w !! q)
        ∧ unlinks_of tmp_path (syscalls w')
          = (unlinks_of tmp_path (syscalls w) + length errs)%nat.
Proof.
  revert k w. induction errs as [|x errs IH]; intros k w Hnd Hpar Hresp Hno Hk.
  { exists w. simpl. rewrite !app_nil_r. repeat split; try done; lia. }
  apply Forall_cons in Hno as [Hx Hno].
  destruct (try_fetch_error url_path url local_path tmp_path w x Hnd Hpar)
    as (w1 & Hrun & Hr1 & Hs1 & Ho1 & Hnd1 & Hq1 & Hu1).
  { rewrite <- (Hresp 0%nat x) by done. by rewrite Nat.add_0_r. }
  destruct (unlink_tmp tmp_path w1 Hnd1) as (w2 & Hun & Hr2 & Hs2 & Ho2 & Hf2 & Hu2).
  assert (∀ q, q ≠ resolve tmp_path → fs w2 !! q = fs w !! q) as Hsame.
  { intros q Hq. rewrite Hf2, lookup_delete_ne by done. by apply Hq1. }
  destruct (not_dir_lookup _ _ Hnd) as [Hne _].
  assert (removelast (resolve tmp_path) ≠ resolve tmp_path) as Hparne.
  { intros Heq. apply (f_equal length) in Heq.
    rewrite (app_removelast_last EmptyString Hne) in Heq at 2.
    rewrite length_app in Heq. simpl in Heq. lia. }
  cbn [length] in Hk.
  destruct (IH (S k) (sleep (2 ^ Z.of_nat k) w2))
    as (w' & Hloop & Hr & Hs & Ho & Hnd' & Hpar' & Hq & Hu).
  - simpl. apply not_dir_none; [done|]. rewrite Hf2. apply lookup_delete_eq.
  - simpl. unfold fs_is_dir in *.
    destruct (removelast (resolve tmp_path)); [done|]. by rewrite Hsame.
  - intros i y Hy. simpl. rewrite Ho2, Ho1, Hr2, Hr1, length_app. simpl.
    replace (length (requests w) + 1 + i)%nat
      with (length (requests w) + S i)%nat by lia.
    by apply Hresp.
  - done.
  - lia.
  - exists w'. cbn [length seq fmap list_fmap app attempts]. rewrite Hrun.
    assert ((Z.of_nat k <? retries - 1)%Z = true) as Hlt by lia.
    destruct x as [code msg|msg]; rewrite Hun; simpl in Hx.
    + rewrite Hx, Hlt. split; [exact Hloop|].
      simpl in *. rewrite Hr, Hs, Ho, Hr2, Hr1, Hs2, Hs1, Ho2, Ho1.
      rewrite <- !app_assoc. repeat split; try done.
      * intros q Hq'. rewrite Hq by done. by apply Hsame.
      * lia.
    + rewrite Hlt. split; [exact Hloop|].
      simpl in *. rewrite Hr, Hs, Ho, Hr2, Hr1, Hs2, Hs1, Ho2, Ho1.
      rewrite <- !app_assoc. repeat split; try done.
      * intros q Hq'. rewrite Hq by done. by apply Hsame.
      * lia.
Qed.

(** An attempt that is answered with a body that delivers nothing ends the
    loop: the temporary file is made and removed, and nothing is renamed. *)
Lemma attempts_empty (attempt : Z) (rest : list Z) (body : stream) (w : World) :
  fs_is_dir (fs w) (resolve tmp_path) = false →
  fs_is_dir (fs w) (removelast (resolve tmp_path)) = true →
  origin w (length (requests w)) url = Opened body →
  empty_body body = true →
  ∃ w', attempts (attempt :: rest) retries url_path url local_path tmp_path w
        = (w', (Some false, url_path, InfoStr "empty"))
        ∧ requests w' = requests w ++ [url]
        ∧ sleeps w' = sleeps w
        ∧ fs w' !! resolve tmp_path = None
        ∧ (∀ q, q ≠ resolve tmp_path → fs w' !! q = fs w !! q)
        ∧ unlinks_of tmp_path (syscalls w') = S (unlinks_of tmp_path (syscalls w)).
Proof.
  intros Hnd Hpar Hresp Hempty.
  cbn [attempts]. unfold try_fetch, urlopen.
  rewrite Hresp. unfold open_wb, fs_create. cbn [fs clock].
  apply not_dir_lookup in Hnd as [Hne Hnode]. rewrite Hpar.
  set (f1 := <[resolve tmp_path := File EmptyString (clock w)]> (fs w)).
  assert (match fs w !! resolve tmp_path with
          | Some (Dir _ _) => None
          | _ => Some f1
          end = Some f1) as -> by (destruct Hnode as [->|(? & ? & ->)]; done).
  assert (∀ w2, read_into tmp_path body 0 w2 = (w2, Ok 0%Z)) as ->.
  { intros w2. destruct body as [|chunk rest'|]; simpl in *; [done| |done].
    by rewrite Hempty. }
  cbn [Z.ltb Z.compare]. unfold unlink, fs_unlink. cbn [fs with_fs log].
  unfold f1 at 1. rewrite lookup_insert_eq.
  eexists. split; [done|]. cbn [requests sleeps fs with_fs log].
  repeat split; try done.
  - apply lookup_delete_eq.
  - intros q Hq. rewrite lookup_delete_ne by done. unfold f1.
    by rewrite lookup_insert_ne.
  - simpl. rewrite !unlinks_of_app. unfold unlinks_of. simpl.
    rewrite bool_decide_eq_true_2 by done. simpl. lia.
Qed.

End LoopPrefix.

(** ** From the start of [download_one] to its loop *)

Section LoopStart.

Context {P : Platform}.
Import Pathlib.

Lemma fs_mkdirs_new_length (size now : Z) (comps cur : list string)
    (f f' : gmap (list string) node) (ok : bool) (q : list string) :
  fs_mkdirs size now cur comps f = (f', ok) → f !! q = None → is_Some (f' !! q) →
  (length q ≤ length cur + length comps)%nat.
Proof.
  revert cur f. induction comps as [|c comps IH]; intros cur f; simpl.
  { intros [= <- _] -> [? ?]. done. }
  destruct (f !! (cur ++ [c])) as [[]|] eqn:E.
  - intros [= <- _] -> [? ?]. done.
  - intros Hrun Hq Hq'. pose proof (IH _ _ Hrun Hq Hq') as Hlen.
    rewrite length_app in Hlen. simpl in Hlen. lia.
  - intros Hrun Hq Hq'. destruct (decide (cur ++ [c] = q)) as [<-|Hne].
    + rewrite length_app. simpl. lia.
    + assert (<[cur ++ [c] := Dir size now]> f !! q = None) as Hq''
        by by rewrite lookup_insert_ne.
      pose proof (IH _ _ Hrun Hq'' Hq') as Hlen.
      rewrite length_app in Hlen. simpl in Hlen. lia.
Qed.

(** What [loop_start] records: [download_one] continues with its loop in
    that world, which differs from the first one by the directories made
    above the target. *)
Lemma loop_start_spec (url_path : string) (w w0 : World) :
  loop_start url_path w = Some w0 →
  (∀ retries,
     download_one url_path retries w
     = attempts (range retries) retries url_path (full_url_of url_path)
         (local_path_of url_path) (tmp_path_of (local_path_of url_path)) w0)
  ∧ requests w0 = requests w ∧ sleeps w0 = sleeps w ∧ origin w0 = origin w
  ∧ fs_is_dir (fs w0) (resolve (parent (local_path_of url_path))) = true
  ∧ (∀ q n, fs w !! q = Some n → fs w0 !! q = Some n)
  ∧ (∀ q n, fs w0 !! q = Some n →
            fs w !! q = Some n
            ∨ (fs w !! q = None ∧ n = Dir new_dir_size (clock w)
               ∧ (length q ≤ length (resolve (parent (local_path_of url_path))))%nat))
  ∧ (∀ p, unlinks_of p (syscalls w0) = unlinks_of p (syscalls w)).
Proof.
  unfold loop_start, download_one, present.
  set (local_path := local_path_of url_path).
  destruct (inside_site local_path); [|done]. simpl.
  set (w2 := match fs w !! resolve local_path with
             | Some _ => probed [local_path; local_path] w
             | None => probed [local_path] w
             end).
  assert (fs w2 = fs w ∧ clock w2 = clock w ∧ requests w2 = requests w
          ∧ sleeps w2 = sleeps w ∧ origin w2 = origin w) as (Hf & Hc & Hr & Hs & Ho).
  { unfold w2. by destruct (fs w !! resolve local_path). }
  assert (∀ p, unlinks_of p (syscalls w2) = unlinks_of p (syscalls w)) as Hu.
  { intros p. unfold w2. destruct (fs w !! resolve local_path); simpl;
      rewrite unlinks_of_app; unfold unlinks_of; simpl; lia. }
  assert (∀ n, fs w !! resolve local_path = Some n →
               log (SysStat local_path) (log (SysStat local_path) w) = w2) as Hw2.
  { intros n Hn. unfold w2. rewrite Hn. by rewrite !probed_log, probed_probed. }
  assert (fs w !! resolve local_path = None → log (SysStat local_path) w = w2) as Hw2'.
  { intros Hn. unfold w2. by rewrite Hn. }
  clearbody w2.
  destruct (fs w !! resolve local_path) as [n|] eqn:Hn; simpl.
  - destruct (0 <? st_size n)%Z; [done|]. rewrite (Hw2 n) by done.
    unfold mkdir_parents. rewrite Hf, Hc.
    destruct (fs_mkdirs _ _ _ _ _) as [f' []] eqn:Hmk; [|done].
    intros [= <-]. simpl. repeat split; try done.
    + apply (fs_mkdirs_is_dir _ _ _ [] _ _ eq_refl Hmk).
    + intros q m. by apply (fs_mkdirs_keeps _ _ _ _ _ _ _ _ _ Hmk).
    + intros q m Hq. destruct (fs_mkdirs_new _ _ _ _ _ _ _ _ _ Hmk Hq) as [|[Hnone ->]];
        [by left|right]. repeat split; try done.
      by apply (fs_mkdirs_new_length _ _ _ _ _ _ _ _ Hmk Hnone).
    + intros p. rewrite unlinks_of_app, Hu. unfold unlinks_of. simpl. lia.
  - rewrite Hw2' by done.
    unfold mkdir_parents. rewrite Hf, Hc.
    destruct (fs_mkdirs _ _ _ _ _) as [f' []] eqn:Hmk; [|done].
    intros [= <-]. simpl. repeat split; try done.
    + apply (fs_mkdirs_is_dir _ _ _ [] _ _ eq_refl Hmk).
    + intros q m. by apply (fs_mkdirs_keeps _ _ _ _ _ _ _ _ _ Hmk).
    + intros q m Hq. destruct (fs_mkdirs_new _ _ _ _ _ _ _ _ _ Hmk Hq) as [|[Hnone ->]];
        [by left|right]. repeat split; try done.
      by apply (fs_mkdirs_new_length _ _ _ _ _ _ _ _ Hmk Hnone).
    + intros p. rewrite unlinks_of_app, Hu. unfold unlinks_of. simpl. lia.
Qed.

(** The temporary path holds no directory after the directories above the
    target were made, if it held none before. *)
Lemma loop_start_tmp (url_path : string) (w w0 : World) :
  loop_start url_path w = Some w0 →
  fs_is_dir (fs w) (tmp_of url_path) = false →
  fs_is_dir (fs w0) (tmp_of url_path) = false
  ∧ fs_is_dir (fs w0) (removelast (tmp_of url_path)) = true.
Proof.
  intros (_ & _ & _ & _ & Hpar & _ & Hnew & _)%loop_start_spec Hnd.
  unfold tmp_of in *. rewrite resolve_tmp_parent. split; [|done].
  apply not_dir_lookup in Hnd as [Hne Hnode].
  destruct (fs w0 !! resolve (tmp_path_of (local_path_of url_path))) as [n|] eqn:E;
    [|by apply not_dir_none].
  destruct (Hnew _ _ E) as [Hold|(_ & _ & Hlen)].
  - destruct Hnode as [Hnone|(data & m & Hfile)]; [congruence|].
    rewrite Hold in Hfile. injection Hfile as ->. by eapply not_dir_file.
  - rewrite resolve_tmp_path, length_app in Hlen. simpl in Hlen. lia.
Qed.

End LoopStart.

Lemma range_split (retries : Z) (n : nat) :
  (Z.of_nat n < retries)%Z →
  range retries
  = (Z.of_nat <$> seq 0 (S n)) ++ (Z.of_nat <$> seq (S n) (Z.to_nat retries - S n)).
Proof.
  intros Hn. unfold range. rewrite <- fmap_app, <- seq_app. do 2 f_equal. lia.
Qed.

(** ** The requests of [download_one] *)

Section Requests.

Context {P : Platform}.
Import Pathlib.

Lemma read_into_requests (tmp_path : list string) (body : stream) (total : Z)
    (w : World) :
  requests (read_into tmp_path body total w).1 = requests w.
Proof.
  revert total w. induction body as [|chunk rest IH|msg]; intros total w; simpl;
    [done| |done].
  destruct (String.eqb chunk EmptyString); [done|]. by rewrite IH.
Qed.

Lemma try_fetch_requests (url_path url : string) (local_path tmp_path : list string)
    (w : World) :
  requests (try_fetch url_path url local_path tmp_path w).1 = requests w ++ [url].
Proof.
  unfold try_fetch, urlopen.
  destruct (origin w (length (requests w)) url) as [e|body]; [done|].
  unfold open_wb. cbn [fs clock].
  destruct (fs_create _ _ _) as [f|]; [|done].
  match goal with
  | |- context [read_into tmp_path body 0 ?w2] =>
      pose proof (read_into_requests tmp_path body 0 w2) as Hr;
      destruct (read_into tmp_path body 0 w2) as [w3 [total|e]]
  end; [|done].
  simpl in Hr. destruct (0 <? total)%Z.
  - unfold replace. destruct (fs_rename _ _ _); simpl; by rewrite Hr.
  - unfold unlink. destruct (fs_unlink _ _); simpl; by rewrite Hr.
Qed.

Lemma unlink_requests (p : list string) (w : World) :
  requests (unlink p w).1 = requests w.
Proof. unfold unlink. by destruct (fs_unlink _ _). Qed.

(** The loop asks for one address only, once per attempt at most. *)
Lemma attempts_requests (todo : list Z) (retries : Z) (url_path url : string)
    (local_path tmp_path : list string) (w : World) :
  ∃ n, (n ≤ length todo)%nat
       ∧ requests (attempts todo retries url_path url local_path tmp_path w).1
         = requests w ++ replicate n url.
Proof.
  revert w. induction todo as [|attempt rest IH]; intros w.
  { exists 0%nat. simpl. by rewrite app_nil_r. }
  cbn [attempts].
  pose proof (try_fetch_requests url_path url local_path tmp_path w) as Hr.
  destruct (try_fetch url_path url local_path tmp_path w) as [w1 [out|e]].
  { exists 1%nat. simpl in *. split; [lia|done]. }
  pose proof (unlink_requests tmp_path w1) as Hu.
  destruct (unlink tmp_path w1) as [w2 [[]|e']]; simpl in Hr, Hu.
  2:{ exists 1%nat. destruct e; simpl; (split; [lia|congruence]). }
  assert (∀ w3, requests w3 = requests w2 →
            ∃ n, (n ≤ S (length rest))%nat
                 ∧ requests (attempts rest retries url_path url local_path tmp_path w3).1
                   = requests w ++ replicate n url) as Hnext.
  { intros w3 H3. destruct (IH w3) as (n & Hn & ->).
    exists (S n). split; [lia|]. rewrite H3, Hu, Hr, <- app_assoc. done. }
  assert (∃ n, (n ≤ S (length rest))%nat
               ∧ requests w2 = requests w ++ replicate n url) as Hstop.
  { exists 1%nat. split; [lia|]. simpl. congruence. }
  destruct e as [code msg|msg]; simpl.
  - destruct (code =? 404)%Z; [exact Hstop|].
    destruct (attempt <? retries - 1)%Z; by apply Hnext.
  - destruct (attempt <? retries - 1)%Z; [by apply Hnext|exact Hstop].
Qed.

Lemma mkdir_parents_requests (p : list string) (w : World) :
  requests (mkdir_parents p w).1 = requests w.
Proof. unfold mkdir_parents. by destruct (fs_mkdirs _ _ _ _ _) as [f []]. Qed.

Lemma download_one_requests (url_path : string) (retries : Z) (w : World) :
  ∃ n, (n ≤ Z.to_nat retries)%nat
       ∧ requests (download_one url_path retries w).1
         = requests w ++ replicate n (full_url_of url_path).
Proof.
  assert (∃ n, (n ≤ Z.to_nat retries)%nat
               ∧ requests w = requests w ++ replicate n (full_url_of url_path)) as Hnone.
  { exists 0%nat. split; [lia|]. simpl. by rewrite app_nil_r. }
  unfold download_one. destruct (inside_site _); [|exact Hnone].
  cbn [path_exists stat].
  set (local_path := local_path_of url_path).
  assert (∀ w2, requests w2 = requests w →
            ∃ n, (n ≤ Z.to_nat retries)%nat
                 ∧ requests
                     (match mkdir_parents (parent local_path) w2 with
                      | (w3, Ok _) =>
                          attempts (range retries) retries url_path (full_url_of url_path)
                            local_path (tmp_path_of local_path) w3
                      | (w3, Raise e) => (w3, (Some false, url_path, InfoStr (str_exn e)))
                      end).1
                   = requests w ++ replicate n (full_url_of url_path)) as Hgo.
  { intros w2 H2. pose proof (mkdir_parents_requests (parent local_path) w2) as Hm.
    destruct (mkdir_parents (parent local_path) w2) as [w3 [[]|e]]; simpl in Hm.
    - destruct (attempts_requests (range retries) retries url_path
                  (full_url_of url_path) local_path (tmp_path_of local_path) w3)
        as (n & Hn & ->).
      exists n. unfold range in Hn. rewrite length_fmap, length_seq in Hn.
      split; [done|]. by rewrite Hm, H2.
    - exists 0%nat. split; [lia|]. simpl. by rewrite app_nil_r, Hm, H2. }
  destruct (fs w !! resolve local_path) as [n|] eqn:E; cbn [fs log]; rewrite ?E.
  - destruct (0 <? st_size n)%Z; [exact Hnone|]. by apply Hgo.
  - by apply Hgo.
Qed.

End Requests.

(** ** The tally and the failure report *)

Section Report.

Context {P : Platform}.
Import Pathlib.

Lemma count_outcome_failed_paths (t : Tally) (o : outcome) :
  failed_paths (count_outcome t o) = failed_paths t ++ reported [o].
Proof.
  destruct o as [[[[]|] path] inf]; simpl; rewrite ?app_nil_r; try done;
    destruct (info_eqb inf "404"); simpl; by rewrite ?app_nil_r.
Qed.

Lemma reported_cons (o : outcome) (os : list outcome) :
  reported (o :: os) = reported [o] ++ reported os.
Proof.
  destruct o as [[[[]|] path] inf]; simpl; try done.
  by destruct (info_eqb inf "404").
Qed.

Lemma fold_count_failed_paths (os : list outcome) (t : Tally) :
  failed_paths (fold_left count_outcome os t) = failed_paths t ++ reported os.
Proof.
  revert t. induction os as [|o os IH]; intros t; simpl fold_left.
  { by rewrite app_nil_r. }
  by rewrite IH, count_outcome_failed_paths, (reported_cons o os), app_assoc.
Qed.

(** The list kept by the loop is the list of the reported failures. *)
Lemma failed_paths_reported (os : list outcome) :
  failed_paths (count_outcomes os) = reported os.
Proof. apply fold_count_failed_paths. Qed.

Lemma elem_of_reported (os : list outcome) (path : string) (inf : info) :
  (path, inf) ∈ reported os
  ↔ (Some false, path, inf) ∈ os ∧ info_eqb inf "404" = false.
Proof.
  induction os as [|o os IH].
  { split; [by intros ?%not_elem_of_nil|by intros [?%not_elem_of_nil _]]. }
  rewrite reported_cons, elem_of_app, IH, elem_of_cons.
  assert ((path, inf) ∈ reported [o]
          ↔ (Some false, path, inf) = o ∧ info_eqb inf "404" = false) as ->.
  { destruct o as [[[[]|] p] i]; simpl.
    - split; [by intros ?%not_elem_of_nil|by intros [[=] _]].
    - destruct (info_eqb i "404") eqn:E.
      + split; [by intros ?%not_elem_of_nil|]. intros [[= -> ->] ?]. congruence.
      + rewrite list_elem_of_singleton. split.
        * by intros [= -> ->].
        * by intros [[= -> ->] _].
    - split; [by intros ?%not_elem_of_nil|by intros [[=] _]]. }
  tauto.
Qed.

(** Writing the lines one after the other gives the text of the report. *)
Lemma write_lines (entries : list (string * info)) (w : World) (data : string) :
  fs w !! resolve FAIL_FILE = Some (File data (clock w)) →
  let w' := fold_left (λ w e, write FAIL_FILE (report_line e) w) entries w in
  fs w' !! resolve FAIL_FILE = Some (File (data +:+ report_text entries) (clock w))
  ∧ (∀ q, q ≠ resolve FAIL_FILE → fs w' !! q = fs w !! q).
Proof.
  revert w data. induction entries as [|e entries IH]; intros w data Hfile; simpl.
  { unfold report_text. simpl. by rewrite append_nil_r. }
  destruct (IH (write FAIL_FILE (report_line e) w) (data +:+ report_line e))
    as [Hf Hq].
  { unfold write, fs_append. simpl. rewrite Hfile. apply lookup_insert_eq. }
  split.
  - rewrite Hf. unfold report_text. simpl. by rewrite append_assoc.
  - intros q Hne. rewrite Hq by done. unfold write, fs_append. simpl.
    rewrite Hfile. by rewrite lookup_insert_ne.
Qed.

Lemma resolve_FAIL_FILE :
  resolve FAIL_FILE = resolve ROOT_DIR ++ ["download_failures.txt"].
Proof. by apply resolve_snoc. Qed.

End Report.

(** ** The ETag *)

Section Etag.

Import Urllib.

(** A piece without the separator stands in front of it in one way only. *)
Lemma sep_split (c : ascii) (d d' x x' : string) :
  in_string c d = false → in_string c d' = false →
  d +:+ String c x = d' +:+ String c x' → d = d' ∧ x = x'.
Proof.
  unfold in_string. revert d'. induction d as [|a d IH]; intros [|a' d'];
    cbn [list_ascii_of_string existsb]; rewrite ?append_cons, ?append_nil_l.
  - by intros _ _ [= ->].
  - intros _ [Ha _]%orb_false_elim [= <- _]. by rewrite Ascii.eqb_refl in Ha.
  - intros [Ha _]%orb_false_elim _ [= -> _]. by rewrite Ascii.eqb_refl in Ha.
  - intros [_ Hd]%orb_false_elim [_ Hd']%orb_false_elim [= -> Heq].
    destruct (IH d' Hd Hd' Heq) as [-> ->]. done.
Qed.

Lemma uint_hexchars (d : Hexadecimal.uint) (c : ascii) :
  in_string c hexchars = false →
  in_string c (NilEmpty.string_of_uint d) = false.
Proof.
  unfold in_string. intros Hc. cbn [list_ascii_of_string hexchars existsb] in Hc.
  repeat (apply orb_false_elim in Hc as [? Hc]).
  induction d; cbn [NilEmpty.string_of_uint list_ascii_of_string existsb];
    rewrite ?IHd; rewrite ?orb_false_r; done.
Qed.

Lemma uint0_hexchars (d : Hexadecimal.uint) (c : ascii) :
  in_string c hexchars = false →
  in_string c (NilZero.string_of_uint d) = false.
Proof.
  intros Hc. destruct d; try apply (uint_hexchars _ c Hc).
  unfold in_string in *. cbn [list_ascii_of_string hexchars existsb] in Hc.
  repeat (apply orb_false_elim in Hc as [? Hc]). cbn.
  by rewrite orb_false_r.
Qed.

Lemma uint0_nonempty (d : Hexadecimal.uint) :
  NilZero.string_of_uint d ≠ EmptyString.
Proof. by destruct d. Qed.

(** [hex] is an optional minus sign and then digits. *)
Lemma hex_shape (z : Z) :
  ∃ d, d ≠ EmptyString
       ∧ (∀ c, in_string c hexchars = false → in_string c d = false)
       ∧ (hex z = d ∨ hex z = String "-" d).
Proof.
  unfold hex. destruct (Z.to_hex_int z) as [d|d];
    exists (NilZero.string_of_uint d);
    (split; [apply uint0_nonempty|split; [intros c; apply uint0_hexchars|]]);
    [by left|by right].
Qed.

Lemma hex_no (c : ascii) (z : Z) :
  in_string c hexchars = false → Ascii.eqb c "-" = false →
  in_string c (hex z) = false.
Proof.
  intros Hc Hm. destruct (hex_shape z) as (d & _ & Hd & [->| ->]); [by apply Hd|].
  unfold in_string. cbn [list_ascii_of_string existsb]. rewrite Hm.
  by apply Hd.
Qed.

Lemma hex_inj (z z' : Z) : hex z = hex z' → z = z'.
Proof.
  assert (∀ z, NilZero.int_of_string (hex z) = Some (Z.to_hex_int z)) as Hparse.
  { intros x. unfold hex. apply NilZero.isi.
    - intros Heq. pose proof (HexadecimalZ.of_to x) as Hx. rewrite Heq in Hx.
      subst x. discriminate Heq.
    - intros Heq. pose proof (HexadecimalZ.of_to x) as Hx. rewrite Heq in Hx.
      subst x. discriminate Heq. }
  intros Heq. apply HexadecimalZ.to_int_inj.
  pose proof (Hparse z) as Hz. rewrite Heq, Hparse in Hz. congruence.
Qed.

(** The text in front of the separating minus sign determines the number. *)
Lemma hex_dash_split (a a' : Z) (x x' : string) :
  hex a +:+ String "-" x = hex a' +:+ String "-" x' → a = a' ∧ x = x'.
Proof.
  destruct (hex_shape a) as (d & Hne & Hd & Ha).
  destruct (hex_shape a') as (d' & Hne' & Hd' & Ha').
  assert (in_string "-" d = false) as Hdash by by apply Hd.
  assert (in_string "-" d' = false) as Hdash' by by apply Hd'.
  intros Heq.
  assert (hex a = hex a' ∧ x = x') as [Hhex ->]; [|by apply hex_inj in Hhex].
  destruct Ha as [Ha|Ha], Ha' as [Ha'|Ha']; rewrite Ha, Ha' in *.
  - by apply (sep_split "-").
  - destruct d as [|c d]; [done|]. rewrite !append_cons in Heq.
    injection Heq as -> _. unfold in_string in Hdash. by cbn in Hdash.
  - destruct d' as [|c d']; [done|]. rewrite !append_cons in Heq.
    injection Heq as <- _. unfold in_string in Hdash'. by cbn in Hdash'.
  - rewrite !append_cons in Heq. injection Heq as Heq.
    by destruct (sep_split "-" d d' x x' Hdash Hdash' Heq) as [-> ->].
Qed.

(** The ETag determines the modification time and the
    size. *)
Lemma make_etag_inj (st st' : node) :
  _make_etag st = _make_etag st' →
  st_mtime_ns st = st_mtime_ns st' ∧ st_size st = st_size st'.
Proof.
  unfold _make_etag. intros [= Heq].
  apply hex_dash_split in Heq as [Hm Heq]. split; [done|].
  apply (sep_split dquote) in Heq as [Hs _]; [by apply hex_inj|by apply hex_no..].
Qed.

End Etag.

(** ** The conditional request *)

Section Conditional.

Import Urllib.

Lemma split_no_sep (sep : ascii) (s : string) :
  in_string sep s = false → Str.split sep s = [s].
Proof.
  unfold in_string. induction s as [|a s IH]; [done|].
  cbn [list_ascii_of_string existsb Str.split].
  intros [Ha Hs]%orb_false_elim. rewrite Ascii.eqb_sym, Ha. by rewrite IH.
Qed.

Lemma rstrip_ws_snoc (s : string) (a : ascii) :
  Str.isspace a = false →
  Str.rstrip_ws (s +:+ String a EmptyString) = s +:+ String a EmptyString.
Proof.
  intros Ha. induction s as [|b s IH].
  - rewrite append_nil_l. cbn [Str.rstrip_ws]. by rewrite Ha.
  - rewrite append_cons. cbn [Str.rstrip_ws]. rewrite IH.
    by destruct s.
Qed.

(** An ETag has no comma and no white space at its ends. *)
Lemma etag_tokens (st : node) :
  Str.strip <$> Str.split "," (_make_etag st) = [_make_etag st].
Proof.
  rewrite split_no_sep.
  - cbn [fmap list_fmap]. f_equal. unfold _make_etag, Str.strip.
    cbn [Str.lstrip_ws].
    replace (Str.isspace dquote) with false by done.
    rewrite <- !append_cons.
    rewrite <- !append_assoc. by apply rstrip_ws_snoc.
  - unfold _make_etag, in_string. cbn [list_ascii_of_string existsb].
    replace (Ascii.eqb "," dquote) with false by done. cbn [orb].
    fold (in_string "," (hex (st_mtime_ns st) +:+ "-" +:+ hex (st_size st)
                         +:+ String dquote EmptyString)).
    assert (∀ a b, in_string "," (a +:+ b) = in_string "," a || in_string "," b) as Happ.
    { intros a b. unfold in_string. induction a as [|c a IH]; [done|].
      rewrite append_cons. cbn [list_ascii_of_string existsb].
      by rewrite IH, orb_assoc. }
    rewrite !Happ, !hex_no by done. done.
Qed.

(** A header that is an ETag lists that ETag, and no other. *)
Lemma etag_listed_exact (st : node) (etag : string) :
  etag_listed (Some (_make_etag st)) etag = String.eqb etag (_make_etag st).
Proof.
  unfold etag_listed. rewrite etag_tokens. cbn [Str.mem existsb].
  rewrite orb_false_r. by unfold _make_etag.
Qed.

End Conditional.

(** ** Serving a file *)

Section Serve.

Context {P : Platform}.
Import Pathlib.

(** On a regular file [_gzip_cached] returns, and leaves the file system
    alone. *)
Lemma gzip_cached_file (fp : list string) (data : string) (m : Z) (w : World) :
  fs w !! resolve fp = Some (File data m) →
  ∃ w1, _gzip_cached fp m (Z.of_nat (String.length data)) w
        = (w1, Ok (gzip_body fp data m w))
        ∧ fs w1 = fs w.
Proof.
  intros Hfile. unfold _gzip_cached, gzip_body.
  destruct (cache_find _ _); [by eexists|].
  unfold read_bytes. rewrite Hfile. by eexists.
Qed.

Lemma gzip_choice_file (req : Request) (fp : list string) (data : string) (m : Z)
    (w : World) :
  fs w !! resolve fp = Some (File data m) →
  ∃ w1, gzip_choice req fp (Str.lower (suffix fp)) (File data m) w
        = (w1, Ok (if eligible req fp (File data m)
                   then Some (gzip_body fp data m w) else None))
        ∧ fs w1 = fs w.
Proof.
  intros Hfile. unfold gzip_choice, eligible.
  destruct (Str.mem _ _ && _); cbn [andb]; [|by eexists].
  destruct (Str.contains _ _); [|by eexists].
  cbn [st_mtime_ns st_size].
  destruct (gzip_cached_file fp data m w Hfile) as (w1 & -> & Hfs). by eexists.
Qed.

(** The reply to [GET] for a regular file whose ETag the request does not
    list. *)
Lemma serve_file_get (req : Request) (fp : list string) (data : string) (m : Z)
    (w : World) :
  fs w !! resolve fp = Some (File data m) →
  etag_listed (if_none_match req) (_make_etag (File data m)) = false →
  let st := File data m in
  let ext := Str.lower (suffix fp) in
  let body := if eligible req fp st then gzip_body fp data m w else data in
  ∃ w1, _serve_file req fp false w
        = (w1, Sent 200
                 ([("Content-Type", mime_get ext _MIME_MAP);
                   ("Content-Length", str_int (Z.of_nat (String.length body)));
                   ("ETag", _make_etag st);
                   ("Cache-Control", _cache_control ext);
                   ("Last-Modified", date_time_string (mtime_seconds st))]
                  ++ (if eligible req fp st
                      then [("Content-Encoding", "gzip"); ("Vary", "Accept-Encoding")]
                      else [])
                  ++ [("Access-Control-Allow-Origin", "*")])
                 (Some body)).
Proof.
  intros Hfile Hetag. cbn zeta. unfold _serve_file, stat. rewrite Hfile, Hetag.
  destruct (gzip_choice_file req fp data m (log (SysStat fp) w) Hfile)
    as (w1 & -> & Hfs).
  change (gzip_body fp data m (log (SysStat fp) w)) with (gzip_body fp data m w).
  destruct (eligible req fp (File data m)); [by eexists|].
  unfold read_bytes. rewrite Hfs. cbn [fs log]. rewrite Hfile. by eexists.
Qed.

(** The reply to [HEAD] in the same case. *)
Lemma serve_file_head (req : Request) (fp : list string) (data : string) (m : Z)
    (w : World) :
  fs w !! resolve fp = Some (File data m) →
  etag_listed (if_none_match req) (_make_etag (File data m)) = false →
  let st := File data m in
  let ext := Str.lower (suffix fp) in
  let body := if eligible req fp st then gzip_body fp data m w else data in
  ∃ w1, _serve_file req fp true w
        = (w1, Sent 200
                 ([("Content-Type", mime_get ext _MIME_MAP);
                   ("Content-Length", str_int (Z.of_nat (String.length body)))]
                  ++ (if eligible req fp st
                      then [("Content-Encoding", "gzip"); ("Vary", "Accept-Encoding")]
                      else [])
                  ++ [("ETag", _make_etag st);
                      ("Cache-Control", _cache_control ext);
                      ("Last-Modified", date_time_string (mtime_seconds st));
                      ("Access-Control-Allow-Origin", "*")])
                 None).
Proof.
  intros Hfile Hetag. cbn zeta. unfold _serve_file, stat. rewrite Hfile, Hetag.
  destruct (gzip_choice_file req fp data m (log (SysStat fp) w) Hfile)
    as (w1 & -> & Hfs).
  change (gzip_body fp data m (log (SysStat fp) w)) with (gzip_body fp data m w).
  destruct (eligible req fp (File data m)); by eexists.
Qed.

(** The reply when the request lists the ETag of the file. *)
Lemma serve_file_304 (req : Request) (fp : list string) (head_only : bool)
    (st : node) (w : World) :
  fs w !! resolve fp = Some st →
  etag_listed (if_none_match req) (_make_etag st) = true →
  _serve_file req fp head_only w
  = (probed [fp] w,
     Sent 304
       ([("ETag", _make_etag st);
         ("Cache-Control", _cache_control (Str.lower (suffix fp)))]
        ++ (if Str.mem (Str.lower (suffix fp)) _COMPRESSIBLE
            then [("Vary", "Accept-Encoding")] else [])
        ++ [("Access-Control-Allow-Origin", "*")])
       None).
Proof.
  intros Hnode Hetag. unfold _serve_file, stat. by rewrite Hnode, Hetag.
Qed.

End Serve.

(** ** The commands *)

Section Commands.

Context {P : Platform}.
Import Pathlib.

Lemma fold_count_failed (os : list outcome) (t : Tally) :
  failed (fold_left count_outcome os t)
  = (failed t + Z.of_nat (length (reported os)))%Z.
Proof.
  revert t. induction os as [|o os IH]; intros t; simpl fold_left.
  { simpl. lia. }
  rewrite IH, (reported_cons o os), length_app.
  destruct o as [[[[]|] path] inf]; simpl; try lia;
    destruct (info_eqb inf "404"); simpl; lia.
Qed.

(** The count of failures is the number of the reported ones. *)
Lemma failed_reported (os : list outcome) :
  failed (count_outcomes os) = Z.of_nat (length (reported os)).
Proof. unfold count_outcomes. by rewrite fold_count_failed. Qed.


End Commands.

(** ** What the look-ups in detail do *)

Lemma resolve_logged (p : list string) (w : World) :
  Os.resolve p w = (logged (resolving p) w, Pathlib.resolve p).
Proof.
  unfold Os.resolve, resolving. f_equal.
  rewrite logged_log, <- logged_logged. f_equal.
  generalize (Os.lstat_walk [] p). intros qs. revert w.
  induction qs as [|q qs IH]; intros w; simpl.
  { by rewrite logged_nil. }
  by rewrite IH, logged_log, logged_logged.
Qed.

Lemma look_up_resolving (p : list string) : forallb look_up (resolving p) = true.
Proof.
  unfold resolving. rewrite forallb_app. by induction (Os.lstat_walk [] p).
Qed.

Section Lookups.

Context {P : Platform} {K : Kernel}.
Import Pathlib.

Lemma inside_site_logged (p : list string) (w : World) :
  Os.inside_site p w = (logged (resolving p ++ resolving SITE_DIR) w, inside_site p).
Proof.
  unfold Os.inside_site. rewrite !resolve_logged.
  by rewrite logged_logged.
Qed.

Lemma look_up_inside (p : list string) :
  forallb look_up (resolving p ++ resolving SITE_DIR) = true.
Proof. by rewrite forallb_app, !look_up_resolving. Qed.



(** [_file_ok] looks the entry up; it answers whether the entry is found
    present unless the look-up raises. *)
Lemma os_file_ok_spec (p : string) (w : World) :
  ∃ cs, forallb look_up cs = true
        ∧ (Os._file_ok p w = (logged cs w, Ok (found_present w p))
           ∨ ∃ e, stat_raises w e p ∧ Os._file_ok p w = (logged cs w, Raise e)).
Proof.
  unfold Os._file_ok, found_present, stat_raises. rewrite inside_site_logged.
  set (rs := resolving (local_path_of p) ++ resolving SITE_DIR).
  assert (forallb look_up rs = true) as Hrs by apply look_up_inside.
  destruct (inside_site (local_path_of p)) eqn:Hin.
  - unfold Os.exists_nonempty, Os.path_exists, Os.stat. simpl.
    destruct (os_stat (fs w) (local_path_of p)) as [[n|]|e] eqn:E; simpl.
    + exists (rs ++ [SysStat (local_path_of p); SysStat (local_path_of p)]).
      split; [by rewrite forallb_app, Hrs|]. left.
      by rewrite !logged_log, !logged_logged.
    + exists (rs ++ [SysStat (local_path_of p)]).
      split; [by rewrite forallb_app, Hrs|]. left.
      by rewrite !logged_log, !logged_logged.
    + exists (rs ++ [SysStat (local_path_of p)]).
      split; [by rewrite forallb_app, Hrs|]. right. exists e.
      by rewrite !logged_log, !logged_logged.
  - exists rs. split; [done|]. by left.
Qed.







End Lookups.

Section LookupCommands.

Context {P : Platform} {K : Kernel}.
Import Pathlib.







End LookupCommands.

(** ** The two models of the look-ups

    Under an operating system that finds every path at its resolved place
    and fails a look-up by absence only, the functions of [Os] return what
    the functions of the first model return. *)

Ltac same_worlds :=
  match goal with
  | H : same_state ?w ?w' |- _ =>
      destruct w, w', H as (? & ? & ? & ? & ? & ?); simpl in *; subst
  end.

Section SameState.

Context {P : Platform}.
Import Pathlib.

Lemma read_into_same (tmp_path : list string) (body : stream) (total : Z)
    (w w' : World) :
  same_state w w' →
  same_state (read_into tmp_path body total w).1 (read_into tmp_path body total w').1
  ∧ (read_into tmp_path body total w).2 = (read_into tmp_path body total w').2.
Proof.
  revert total w w'. induction body as [|data rest IH|msg]; intros total w w' H;
    simpl; [done| |done].
  destruct (String.eqb data EmptyString); [done|].
  apply IH. unfold write. same_worlds. done.
Qed.

Lemma try_fetch_same (url_path url : string) (local_path tmp_path : list string)
    (w w' : World) :
  same_state w w' →
  same_state (try_fetch url_path url local_path tmp_path w).1
    (try_fetch url_path url local_path tmp_path w').1
  ∧ (try_fetch url_path url local_path tmp_path w).2
    = (try_fetch url_path url local_path tmp_path w').2.
Proof.
  intros H. unfold try_fetch, urlopen.
  assert (origin w (length (requests w)) url = origin w' (length (requests w')) url)
    as <- by (destruct H as (_ & _ & -> & -> & _); done).
  destruct (origin w (length (requests w)) url) as [e|body]; simpl.
  { same_worlds. done. }
  unfold open_wb. simpl.
  assert (fs w = fs w' ∧ clock w = clock w') as [<- <-]
    by (destruct H as (-> & -> & _); done).
  destruct (fs_create (clock w) (resolve tmp_path) (fs w)) as [f|]; simpl;
    [|same_worlds; done].
  set (v := with_fs f _). set (v' := with_fs f _).
  assert (same_state v v') as Hv by (unfold v, v'; same_worlds; done).
  destruct (read_into_same tmp_path body 0 v v' Hv) as [Hw He].
  destruct (read_into tmp_path body 0 v) as [w3 r].
  destruct (read_into tmp_path body 0 v') as [w3' r'].
  simpl in Hw, He. subst r'. destruct r as [total|e]; [|done].
  destruct (0 <? total)%Z.
  - unfold replace. simpl.
    assert (fs w3 = fs w3') as <- by (destruct Hw as (-> & _); done).
    destruct (fs_rename _ _ (fs w3)); simpl; split; try done;
      clear Hv; same_worlds; done.
  - unfold unlink. simpl.
    assert (fs w3 = fs w3') as <- by (destruct Hw as (-> & _); done).
    destruct (fs_unlink _ (fs w3)); simpl; split; try done;
      clear Hv; same_worlds; done.
Qed.

Lemma unlink_same (p : list string) (w w' : World) :
  same_state w w' →
  same_state (unlink p w).1 (unlink p w').1 ∧ (unlink p w).2 = (unlink p w').2.
Proof.
  intros H. unfold unlink.
  assert (fs w = fs w') as <- by (destruct H as (-> & _); done).
  destruct (fs_unlink _ (fs w)); simpl; split; try done; same_worlds; done.
Qed.

Lemma sleep_same (secs : Z) (w w' : World) :
  same_state w w' → same_state (sleep secs w) (sleep secs w').
Proof. intros H. unfold sleep. same_worlds. done. Qed.

Lemma attempts_same (todo : list Z) (retries : Z) (url_path url : string)
    (local_path tmp_path : list string) (w w' : World) :
  same_state w w' →
  same_state (attempts todo retries url_path url local_path tmp_path w).1
    (attempts todo retries url_path url local_path tmp_path w').1
  ∧ (attempts todo retries url_path url local_path tmp_path w).2
    = (attempts todo retries url_path url local_path tmp_path w').2.
Proof.
  revert w w'. induction todo as [|attempt rest IH]; intros w w' H; simpl; [done|].
  destruct (try_fetch_same url_path url local_path tmp_path w w' H) as [Hw He].
  destruct (try_fetch url_path url local_path tmp_path w) as [w1 r].
  destruct (try_fetch url_path url local_path tmp_path w') as [w1' r'].
  simpl in Hw, He. subst r'. destruct r as [out|[code msg|msg]]; [done|..];
    destruct (unlink_same tmp_path w1 w1' Hw) as [Hw2 He2];
    destruct (unlink tmp_path w1) as [w2 r2];
    destruct (unlink tmp_path w1') as [w2' r2'];
    simpl in Hw2, He2; subst r2'; destruct r2 as [[]|e]; try done.
  - destruct (code =? 404)%Z; [done|].
    destruct (attempt <? retries - 1)%Z; apply IH; [by apply sleep_same|done].
  - destruct (attempt <? retries - 1)%Z; [|done]. apply IH. by apply sleep_same.
Qed.

Lemma mkdir_parents_same (p : list string) (w w' : World) :
  same_state w w' →
  same_state (mkdir_parents p w).1 (mkdir_parents p w').1
  ∧ (mkdir_parents p w).2 = (mkdir_parents p w').2.
Proof.
  intros H. unfold mkdir_parents.
  assert (fs w = fs w' ∧ clock w = clock w') as [<- <-]
    by (destruct H as (-> & -> & _); done).
  destruct (fs_mkdirs _ _ _ _ (fs w)) as [f []]; simpl; split; try done;
    same_worlds; done.
Qed.

(** Being found present is being present. *)
Lemma found_present_lexical (w : World) (p : string) :
  found_present (K := lexical) w p = present w p.
Proof. done. Qed.

(** [_file_ok] *)
Lemma file_ok_lexical (p : string) (w : World) :
  (Os._file_ok (K := lexical) p w).2 = (_file_ok p w).2.
Proof.
  destruct (file_ok_spec p w) as (ps & ->).
  destruct (os_file_ok_spec (K := lexical) p w)
    as (cs & _ & [->|(e & [_ He] & _)]); [done|done].
Qed.

(** [download_one] *)
Lemma download_one_lexical (url_path : string) (retries : Z) (w : World) :
  (Os.download_one (K := lexical) url_path retries w).2
  = (download_one url_path retries w).2
  ∧ same_state (Os.download_one (K := lexical) url_path retries w).1
      (download_one url_path retries w).1.
Proof.
  unfold Os.download_one, download_one. rewrite inside_site_logged.
  set (rs := resolving (local_path_of url_path) ++ resolving SITE_DIR).
  destruct (inside_site (local_path_of url_path)); [|done].
  unfold Os.exists_nonempty, Os.path_exists, Os.stat, path_exists, stat. simpl.
  set (local_path := local_path_of url_path).
  assert (∀ v v', same_state v v' →
            (match mkdir_parents (parent local_path) v with
             | (w3, Ok _) =>
                 attempts (range retries) retries url_path (full_url_of url_path)
                   local_path (tmp_path_of local_path) w3
             | (w3, Raise e) => (w3, (Some false, url_path, InfoStr (str_exn e)))
             end).2
            = (match mkdir_parents (parent local_path) v' with
               | (w3, Ok _) =>
                   attempts (range retries) retries url_path (full_url_of url_path)
                     local_path (tmp_path_of local_path) w3
               | (w3, Raise e) => (w3, (Some false, url_path, InfoStr (str_exn e)))
               end).2
            ∧ same_state
                (match mkdir_parents (parent local_path) v with
                 | (w3, Ok _) =>
                     attempts (range retries) retries url_path (full_url_of url_path)
                       local_path (tmp_path_of local_path) w3
                 | (w3, Raise e) => (w3, (Some false, url_path, InfoStr (str_exn e)))
                 end).1
                (match mkdir_parents (parent local_path) v' with
                 | (w3, Ok _) =>
                     attempts (range retries) retries url_path (full_url_of url_path)
                       local_path (tmp_path_of local_path) w3
                 | (w3, Raise e) => (w3, (Some false, url_path, InfoStr (str_exn e)))
                 end).1) as Hgo.
  { intros v v' Hv.
    destruct (mkdir_parents_same (parent local_path) v v' Hv) as [Hw He].
    destruct (mkdir_parents (parent local_path) v) as [w3 r].
    destruct (mkdir_parents (parent local_path) v') as [w3' r'].
    simpl in Hw, He. subst r'. destruct r as [[]|e]; [|done].
    destruct (attempts_same (range retries) retries url_path (full_url_of url_path)
                local_path (tmp_path_of local_path) w3 w3' Hw) as [? ?].
    done. }
  destruct (fs w !! resolve local_path) as [n|] eqn:E; simpl; rewrite ?E; simpl.
  - destruct (0 <? st_size n)%Z; [done|]. by apply Hgo.
  - by apply Hgo.
Qed.

(** [_resolve_path] *)
Lemma resolve_candidates_lexical (candidates : list string) (w w' : World) :
  fs w = fs w' →
  (Os.resolve_candidates (K := lexical) (resolve SITE_DIR) candidates w).2
  = Ok (resolve_candidates candidates w').2.
Proof.
  revert w w'. induction candidates as [|c rest IH]; intros w w' H; simpl; [done|].
  unfold Os.is_file, is_file, stat. simpl. rewrite <- H.
  destruct (String.eqb (Str.lstrip "/" c) EmptyString).
  - destruct (fs w !! resolve _) as [[]|]; simpl; [done|by apply IH..].
  - destruct (fs w !! resolve (joinpath SITE_DIR (Str.lstrip "/" c))) as [[]|];
      simpl; [done|..];
      (destruct (fs w !! resolve (joinpath (joinpath SITE_DIR (Str.lstrip "/" c))
                                    "index.html")) as [[]|];
       simpl; [done|by apply IH..]).
Qed.

Lemma resolve_path_lexical (self_path : string) (w : World) :
  (Os._resolve_path (K := lexical) self_path w).2 = Ok (_resolve_path self_path w).2.
Proof.
  unfold Os._resolve_path, _resolve_path. rewrite resolve_logged.
  by apply resolve_candidates_lexical.
Qed.

End SameState.

(** * The claims *)

Section TraversalClaim.

Context {P : Platform} {K : Kernel}.
Import Pathlib.


End TraversalClaim.



Section RetryClaim.

Context {P : Platform}.
Import Pathlib.

(** C2, as amended.  [download_one] has reached its loop, and its
    attempts meet the errors [errs], none of them a 404, and then [e],
    which is a 404 or the error of the last of the [retries] attempts.
    Then it fails: with the text ["404"] at once when [e] is a 404; at the
    last attempt with the description of [e] when [e] is no HTTP error,
    and with the fixed text ["failed"] when [e] is an HTTP error.  It has
    made one request per attempt, [retries] at most, has slept [2^n]
    seconds after attempt [n] (counted from 0) before each further attempt
    and not after the last one, has removed the temporary file once per
    attempt, and has left no temporary file. *)
Theorem retry_policy (url_path : string) (retries : Z) (w w0 : World)
    (errs : list exn) (e : exn) :
  loop_start url_path w = Some w0 →
  fs_is_dir (fs w) (tmp_of url_path) = false →
  (∀ i x, (errs ++ [e]) !! i = Some x →
          response_error (origin w (length (requests w) + i) (full_url_of url_path))
          = Some x) →
  Forall (λ x, is_404 x = false) errs →
  (Z.of_nat (length errs) < retries)%Z →
  is_404 e = true ∨ Z.of_nat (length errs) = (retries - 1)%Z →
  ∃ w', download_one url_path retries w
        = (w', (Some false, url_path, InfoStr (final_info e)))
        ∧ requests w' = requests w ++ replicate (S (length errs)) (full_url_of url_path)
        ∧ (Z.of_nat (S (length errs)) ≤ retries)%Z
        ∧ sleeps w' = sleeps w ++ ((λ n, 2 ^ Z.of_nat n)%Z <$> seq 0 (length errs))
        ∧ unlinks_of (tmp_path_of (local_path_of url_path)) (syscalls w')
          = (unlinks_of (tmp_path_of (local_path_of url_path)) (syscalls w)
             + S (length errs))%nat
        ∧ fs w' !! tmp_of url_path = None.
Proof.
  intros Hstart Hnd Hresp Hno Hlen Hend.
  destruct (loop_start_tmp _ _ _ Hstart Hnd) as [Hnd0 Hpar0].
  apply loop_start_spec in Hstart as (Hrun & Hr & Hs & Ho & _ & _ & _ & Hu).
  unfold tmp_of in *. set (tmp_path := tmp_path_of (local_path_of url_path)) in *.
  rewrite Hrun, (range_split retries (length errs)) by done.
  rewrite seq_S, fmap_app, <- app_assoc. cbn [fmap list_fmap app Nat.add].
  destruct (attempts_retry retries url_path (full_url_of url_path)
              (local_path_of url_path) tmp_path errs 0
              (Z.of_nat (length errs)
               :: (Z.of_nat <$> seq (S (length errs)) (Z.to_nat retries - S (length errs))))
              w0) as (w1 & -> & Hr1 & Hs1 & Ho1 & Hnd1 & Hpar1 & _ & Hu1); try done.
  { intros i x Hx. rewrite Ho, Hr. apply Hresp. by apply lookup_app_l_Some. }
  destruct (attempts_last retries url_path (full_url_of url_path)
              (local_path_of url_path) tmp_path (Z.of_nat (length errs))
              (Z.of_nat <$> seq (S (length errs)) (Z.to_nat retries - S (length errs)))
              e w1 Hnd1 Hpar1) as (w' & -> & Hr' & Hs' & Hgone & _ & Hu').
  { rewrite Ho1, Hr1, Ho, Hr, length_app, length_replicate. apply Hresp.
    by rewrite lookup_app_r, Nat.sub_diag. }
  { destruct Hend as [|Hlast]; [by left|right]. split; [done|].
    replace (Z.to_nat retries - S (length errs))%nat with 0%nat by lia. done. }
  exists w'. rewrite Hr', Hs', Hr1, Hs1, Hr, Hs. split; [done|].
  split. { rewrite <- app_assoc. f_equal. by rewrite <- replicate_S_end. }
  repeat split; try done; [lia|]. rewrite Hu', Hu1, Hu. lia.
Qed.

End RetryClaim.

(** Three attempts that time out, in the demo deployment. *)
Lemma retry_policy_witness :
  ∃ w', download_one (P := Demo.platform) "/x/y.js" 3 (Demo.world [])
        = (w', (Some false, "/x/y.js", InfoStr "timed out"))
        ∧ requests w' = replicate 3 "https://homdgcat.wiki/x/y.js"
        ∧ sleeps w' = [1; 2]%Z
        ∧ unlinks_of ["srv"; "HomDGCat"; "site"; "x"; "y.js.tmp"] (syscalls w') = 3%nat.
Proof.
  destruct (loop_start (P := Demo.platform) "/x/y.js" (Demo.world []))
    as [w0|] eqn:Hstart; [|by vm_compute in Hstart].
  destruct (retry_policy (P := Demo.platform) "/x/y.js" 3 (Demo.world [])
              w0 [OtherError "timed out"; OtherError "timed out"]
              (OtherError "timed out") Hstart)
    as (w' & Hrun & Hreq & _ & Hsl & Hrm & _).
  - vm_compute. reflexivity.
  - intros [|[|[|i]]] x; simpl; [intros [= <-]; vm_compute; reflexivity..|done].
  - repeat constructor.
  - simpl. lia.
  - right. simpl. lia.
  - exists w'. split; [exact Hrun|]. split; [exact Hreq|]. split; [exact Hsl|exact Hrm].
Defined.

(** C2, as stated, fails when the last error is an HTTP error: after three
    answers [500] the outcome carries the text ["failed"], not the
    description of that error. *)
Lemma exhausted_http_error_not_described :
  (∀ n, Demo.remote n "https://homdgcat.wiki/bad.js"
        = Refused (HTTPError 500 "HTTP Error 500: Internal Server Error"))
  ∧ (download_one (P := Demo.platform) "/bad.js" 3 (Demo.world [])).2
    = (Some false, "/bad.js", InfoStr "failed")
  ∧ requests (download_one (P := Demo.platform) "/bad.js" 3 (Demo.world [])).1
    = replicate 3 "https://homdgcat.wiki/bad.js"
  ∧ str_exn (HTTPError 500 "HTTP Error 500: Internal Server Error") ≠ "failed".
Proof. repeat split; by vm_compute. Qed.

Section IdempotenceClaim.

Context {P : Platform}.
Import Pathlib.

(** C3.  An entry that [_file_ok] accepts (its local file lies in the
    mirror, exists and is not empty) makes [download_one] return the
    already-present outcome after two [stat] calls and no request; and when
    [_file_ok] accepts every entry of the list, [cmd_download] returns
    early, having issued system calls that leave the file system alone and
    no request at all. *)
Theorem already_present_no_request (args : Args) (w : World) :
  (∀ (url_path : string) (retries : Z) (w1 : World),
     _file_ok url_path w = (w1, Ok true) →
     ∃ ps, download_one url_path retries w
           = (probed ps w, (None, url_path, InfoStr "exists"))
           ∧ requests (probed ps w) = requests w)
  ∧ (∀ (all_paths : list string) (w1 : World),
       load_filelist w = (w1, Finished all_paths) →
       Forall (λ p, ∃ w2, _file_ok p w1 = (w2, Ok true)) all_paths →
       ∃ cs, cmd_download args w = (logged cs w, Finished None)
             ∧ requests (logged cs w) = requests w
             ∧ fs (logged cs w) = fs w).
Proof.
  split.
  - intros url_path retries w1 Hok. apply file_ok_true_present in Hok.
    eexists. by rewrite download_one_present.
  - intros all_paths w1 Hload Hall. unfold cmd_download. rewrite Hload.
    apply load_filelist_logged in Hload as ->.
    destruct (to_download_of_spec all_paths
                (logged [SysStat FILELIST; SysRead FILELIST] w)) as (ps & ->).
    assert (List.filter (λ p, negb (present w p)) all_paths = []) as Hnone.
    { induction Hall as [|p l [w2 Hp] _ IH]; [done|]. simpl.
      apply file_ok_true_present in Hp. rewrite present_logged in Hp.
      by rewrite Hp. }
    change (present (logged _ w)) with (present w). rewrite Hnone.
    eexists. by rewrite probed_logged, logged_logged.
Qed.

End IdempotenceClaim.

(** A mirror that holds both entries of its list: nothing is requested. *)
Lemma already_present_no_request_witness :
  (∃ ps, download_one (P := Demo.platform) "/a.html" 3 (Demo.world ["/a.html"; "/app.js"])
         = (probed ps (Demo.world ["/a.html"; "/app.js"]), (None, "/a.html", InfoStr "exists")))
  ∧ ∃ cs, cmd_download (P := Demo.platform) (mkArgs 10 3) (Demo.world ["/a.html"; "/app.js"])
          = (logged cs (Demo.world ["/a.html"; "/app.js"]), Finished None).
Proof.
  destruct (already_present_no_request (P := Demo.platform) (mkArgs 10 3)
              (Demo.world ["/a.html"; "/app.js"])) as [Hone Hall].
  split.
  - destruct (Hone "/a.html" 3%Z
                (probed [local_path_of (P := Demo.platform) "/a.html";
                         local_path_of (P := Demo.platform) "/a.html"]
                   (Demo.world ["/a.html"; "/app.js"])))
      as (ps & Hd & _); [vm_compute; reflexivity|].
    by exists ps.
  - destruct (Hall ["/a.html"; "/app.js"]
                (logged [SysStat (FILELIST (P := Demo.platform));
                         SysRead (FILELIST (P := Demo.platform))]
                   (Demo.world ["/a.html"; "/app.js"])))
      as (cs & Hc & _); [vm_compute; reflexivity| |by exists cs].
    repeat constructor; eexists; vm_compute; reflexivity.
Defined.

Section CompressionClaim.

Context {P : Platform}.
Import Pathlib.

(** C4.  A regular file is served (the request does not list its ETag, so
    the answer is not the 304 of the conditional request).  Then the reply
    to [GET] is a 200 that carries [Content-Encoding: gzip] if and only if
    the lower-case extension is in the compressible set, the size is above
    256 and the [Accept-Encoding] header contains [gzip].  In that case the
    body is what [_gzip_cached] returns (the cached bytes, or the
    compression of the file when the cache has none) and the reply carries
    [Vary: Accept-Encoding]; otherwise the body is the bytes of the file
    and neither header is sent. *)
Theorem gzip_iff_eligible (req : Request) (fp : list string) (data : string)
    (m : Z) (w : World) :
  fs w !! resolve fp = Some (File data m) →
  etag_listed (if_none_match req) (_make_etag (File data m)) = false →
  ∃ w1 hs body,
    _serve_file req fp false w = (w1, Sent 200 hs (Some body))
    ∧ (("Content-Encoding", "gzip") ∈ hs ↔ eligible req fp (File data m) = true)
    ∧ (eligible req fp (File data m) = true
       ↔ Str.mem (Str.lower (suffix fp)) _COMPRESSIBLE = true
         ∧ (256 < Z.of_nat (String.length data))%Z
         ∧ Str.contains "gzip" (default EmptyString (accept_encoding req)) = true)
    ∧ (eligible req fp (File data m) = true →
       body = gzip_body fp data m w ∧ ("Vary", "Accept-Encoding") ∈ hs)
    ∧ (eligible req fp (File data m) = false →
       body = data ∧ ("Vary", "Accept-Encoding") ∉ hs).
Proof.
  intros Hfile Hetag.
  destruct (serve_file_get req fp data m w Hfile Hetag) as (w1 & ->).
  eexists _, _, _. split; [done|]. split; [|split; [|split]].
  - destruct (eligible req fp (File data m)); cbn [app].
    + split; [done|]. intros _. do 5 right. by left.
    + split; [|done]. intros Hin.
      repeat (apply elem_of_cons in Hin as [Hin|Hin]; [discriminate Hin|]).
      by apply not_elem_of_nil in Hin.
  - unfold eligible. cbn [st_size]. rewrite !andb_true_iff, Z.ltb_lt. tauto.
  - intros ->. split; [done|]. cbn [app]. do 6 right. by left.
  - intros ->. split; [done|]. cbn [app]. intros Hin.
    repeat (apply elem_of_cons in Hin as [Hin|Hin]; [discriminate Hin|]).
    by apply not_elem_of_nil in Hin.
Qed.

End CompressionClaim.

(** The script of the demo deployment, asked for by a client that accepts
    gzip. *)
Lemma gzip_iff_eligible_witness :
  ∃ w1 hs,
    _serve_file (P := Demo.platform) (mkRequest "/app.js" None (Some "gzip, deflate"))
      ["srv"; "HomDGCat"; "site"; "app.js"] false (Demo.world [])
    = (w1, Sent 200 hs (Some ("gz:" +:+ Demo.script)))
    ∧ ("Content-Encoding", "gzip") ∈ hs.
Proof.
  destruct (gzip_iff_eligible (P := Demo.platform)
              (mkRequest "/app.js" None (Some "gzip, deflate"))
              ["srv"; "HomDGCat"; "site"; "app.js"] Demo.script 99 (Demo.world []))
    as (w1 & hs & body & Hrun & Hce & _ & Hbody & _).
  - vm_compute. reflexivity.
  - vm_compute. reflexivity.
  - destruct Hbody as [-> _]; [vm_compute; reflexivity|].
    exists w1, hs. split; [exact Hrun|]. apply Hce. vm_compute. reflexivity.
Defined.

Section EtagClaim.

Context {P : Platform}.
Import Pathlib.

(** C5.  The ETag of a file is a function of its modification time and its
    size, and a different time or size gives a different ETag.  A request
    whose [If-None-Match] header lists the ETag of the file (as the header
    that is this ETag does) is answered 304 without body, with the [ETag]
    and [Cache-Control] lines, for [GET] and for [HEAD].  A request that
    carries the ETag the file had before its time or size changed is
    answered 200. *)
Theorem etag_conditional (req : Request) (fp : list string) (head_only : bool)
    (st : node) (w : World) :
  fs w !! resolve fp = Some st →
  (∀ st', st_mtime_ns st' = st_mtime_ns st → st_size st' = st_size st →
          _make_etag st' = _make_etag st)
  ∧ (∀ st', st_mtime_ns st' ≠ st_mtime_ns st ∨ st_size st' ≠ st_size st →
            _make_etag st' ≠ _make_etag st)
  ∧ (if_none_match req = Some (_make_etag st) →
     etag_listed (if_none_match req) (_make_etag st) = true)
  ∧ (etag_listed (if_none_match req) (_make_etag st) = true →
     ∃ hs, _serve_file req fp head_only w = (probed [fp] w, Sent 304 hs None)
           ∧ ("ETag", _make_etag st) ∈ hs
           ∧ ("Cache-Control", _cache_control (Str.lower (suffix fp))) ∈ hs)
  ∧ (∀ st_old data m,
       st = File data m →
       if_none_match req = Some (_make_etag st_old) →
       st_mtime_ns st_old ≠ st_mtime_ns st ∨ st_size st_old ≠ st_size st →
       ∃ w1 hs body, _serve_file req fp head_only w = (w1, Sent 200 hs body)).
Proof.
  intros Hnode. split; [|split; [|split; [|split]]].
  - intros st' Hm Hs. unfold _make_etag. by rewrite Hm, Hs.
  - intros st' Hdiff Heq. apply make_etag_inj in Heq as [Hm Hs]. by destruct Hdiff.
  - intros ->. rewrite etag_listed_exact. apply String.eqb_refl.
  - intros Hetag. rewrite (serve_file_304 req fp head_only st w Hnode Hetag).
    eexists. split; [done|]. split; [by left|]. right. by left.
  - intros st_old data m -> Hold Hdiff.
    assert (etag_listed (if_none_match req) (_make_etag (File data m)) = false) as Hetag.
    { rewrite Hold, etag_listed_exact. apply String.eqb_neq.
      intros Heq. symmetry in Heq. apply make_etag_inj in Heq as [Hm Hs].
      by destruct Hdiff. }
    destruct head_only.
    + destruct (serve_file_head req fp data m w Hnode Hetag) as (w1 & ->).
      by eexists _, _, _.
    + destruct (serve_file_get req fp data m w Hnode Hetag) as (w1 & ->).
      by eexists _, _, _.
Qed.

End EtagClaim.

(** The page of the demo deployment, asked for again with its ETag. *)
Lemma etag_conditional_witness :
  ∃ hs,
    _serve_file (P := Demo.platform)
      (mkRequest "/a.html" (Some (_make_etag (File "<html>" 77))) None)
      ["srv"; "HomDGCat"; "site"; "a.html"] false (Demo.world [])
    = (probed [["srv"; "HomDGCat"; "site"; "a.html"]] (Demo.world []),
       Sent 304 hs None).
Proof.
  destruct (etag_conditional (P := Demo.platform)
              (mkRequest "/a.html" (Some (_make_etag (File "<html>" 77))) None)
              ["srv"; "HomDGCat"; "site"; "a.html"] false (File "<html>" 77)
              (Demo.world []))
    as (_ & _ & Hlisted & H304 & _).
  - vm_compute. reflexivity.
  - destruct H304 as (hs & Hrun & _); [by apply Hlisted|].
    by exists hs.
Defined.

Section HeadClaim.

Context {P : Platform}.
Import Pathlib.


End HeadClaim.



Section RequestClaim.

Context {P : Platform}.
Import Pathlib.

(** C7.  For an entry that ends in ["/index.html"] the request path is the
    entry without the file name, so it ends at the directory; any other
    entry is its own request path.  Encoding keeps the separators (the
    components of the encoded path are the encoded components) and every
    character that is a letter, a digit or one of the safe characters, and
    replaces any other by its percent code.  Every request [download_one]
    makes for the entry goes to the base address followed by that encoded
    path. *)
Theorem request_targets_directory (url_path : string) :
  (Str.endswith url_path "/index.html" = true →
     ∃ dir, url_path = dir +:+ "/index.html"
            ∧ request_path_of url_path = dir +:+ "/")
  ∧ (Str.endswith url_path "/index.html" = false →
       request_path_of url_path = url_path)
  ∧ Str.split "/" (Urllib.quote (request_path_of url_path) SAFE)
    = (λ c, Urllib.quote c SAFE) <$> Str.split "/" (request_path_of url_path)
  ∧ (∀ a s, Urllib.always_safe a || Urllib.in_string a SAFE = true →
            Urllib.quote (String a s) SAFE = String a (Urllib.quote s SAFE))
  ∧ (∀ a s, Urllib.always_safe a || Urllib.in_string a SAFE = false →
            Urllib.quote (String a s) SAFE
            = Urllib.percent a +:+ Urllib.quote s SAFE)
  ∧ (∀ retries w,
       ∃ n, (n ≤ Z.to_nat retries)%nat
            ∧ requests (download_one url_path retries w).1
              = requests w
                ++ replicate n (BASE_URL +:+ Urllib.quote (request_path_of url_path) SAFE)).
Proof.
  split; [apply request_path_index|]. split.
  { intros Hend. unfold request_path_of. by rewrite Hend. }
  split; [apply quote_split|]. split; [|split].
  - intros a s Hsafe. cbn [Urllib.quote]. unfold Urllib.quote_char. by rewrite Hsafe.
  - intros a s Hsafe. cbn [Urllib.quote]. unfold Urllib.quote_char. by rewrite Hsafe.
  - intros retries w. apply download_one_requests.
Qed.

End RequestClaim.

(** A character page of the site, and a file name with a blank. *)
Lemma request_targets_directory_witness :
  request_path_of "/sr/char/1001/index.html" = "/sr/char/1001/"
  ∧ request_path_of "/images/a b.png" = "/images/a b.png"
  ∧ full_url_of "/images/a b.png" = "https://homdgcat.wiki/images/a%20b.png".
Proof.
  destruct (request_targets_directory (P := Demo.platform) "/sr/char/1001/index.html")
    as (Hindex & _).
  destruct (request_targets_directory (P := Demo.platform) "/images/a b.png")
    as (_ & Hother & _).
  split; [|split; [by apply Hother|by vm_compute]].
  destruct Hindex as (dir & Hdir & ->); [by vm_compute|].
  change "/sr/char/1001/index.html" with ("/sr/char/1001" +:+ "/index.html") in Hdir.
  assert (dir = "/sr/char/1001") as ->; [|done].
  revert Hdir. generalize "/index.html". intros suf Hdir.
  apply (f_equal (λ s, Str.drop_end (String.length suf) s)) in Hdir.
  by rewrite !drop_end_app in Hdir.
Defined.

Section EmptyBodyClaim.

Context {P : Platform}.
Import Pathlib.

(** C8.  [download_one] has reached its loop; its attempts meet the errors
    [errs] (none of them a 404, none at the last attempt; there may be
    none), and the next response has a body that delivers nothing.  Then
    [download_one] fails with the text ["empty"] and that request is its
    last one, with no sleep after it; the temporary file has been removed
    once per attempt and is gone; and what the target path named before is
    still there, while no file has appeared at it. *)
Theorem empty_body_fails (url_path : string) (retries : Z) (w w0 : World)
    (errs : list exn) (body : stream) :
  loop_start url_path w = Some w0 →
  fs_is_dir (fs w) (tmp_of url_path) = false →
  (Z.of_nat (length errs) < retries)%Z →
  (∀ i x, errs !! i = Some x →
          response_error (origin w (length (requests w) + i) (full_url_of url_path))
          = Some x) →
  Forall (λ x, is_404 x = false) errs →
  origin w (length (requests w) + length errs) (full_url_of url_path) = Opened body →
  empty_body body = true →
  ∃ w', download_one url_path retries w
        = (w', (Some false, url_path, InfoStr "empty"))
        ∧ requests w' = requests w ++ replicate (S (length errs)) (full_url_of url_path)
        ∧ sleeps w' = sleeps w ++ ((λ n, 2 ^ Z.of_nat n)%Z <$> seq 0 (length errs))
        ∧ unlinks_of (tmp_path_of (local_path_of url_path)) (syscalls w')
          = (unlinks_of (tmp_path_of (local_path_of url_path)) (syscalls w)
             + S (length errs))%nat
        ∧ fs w' !! tmp_of url_path = None
        ∧ (∀ n, fs w !! resolve (local_path_of url_path) = Some n →
                fs w' !! resolve (local_path_of url_path) = Some n)
        ∧ (∀ data m,
             fs w' !! resolve (local_path_of url_path) = Some (File data m) →
             fs w !! resolve (local_path_of url_path) = Some (File data m)).
Proof.
  intros Hstart Hnd Hlen Hresp Hno Hbody Hempty.
  destruct (loop_start_tmp _ _ _ Hstart Hnd) as [Hnd0 Hpar0].
  apply loop_start_spec in Hstart as (Hrun & Hr & Hs & Ho & _ & Hkeep & Hnew & Hu).
  unfold tmp_of in *. set (tmp_path := tmp_path_of (local_path_of url_path)) in *.
  rewrite Hrun, (range_split retries (length errs)) by done.
  rewrite seq_S, fmap_app, <- app_assoc. cbn [fmap list_fmap app Nat.add].
  destruct (attempts_retry retries url_path (full_url_of url_path)
              (local_path_of url_path) tmp_path errs 0
              (Z.of_nat (length errs)
               :: (Z.of_nat <$> seq (S (length errs)) (Z.to_nat retries - S (length errs))))
              w0) as (w1 & -> & Hr1 & Hs1 & Ho1 & Hnd1 & Hpar1 & Hq1 & Hu1); try done.
  { intros i x Hx. rewrite Ho, Hr. by apply Hresp. }
  destruct (attempts_empty retries url_path (full_url_of url_path)
              (local_path_of url_path) tmp_path (Z.of_nat (length errs))
              (Z.of_nat <$> seq (S (length errs)) (Z.to_nat retries - S (length errs)))
              body w1 Hnd1 Hpar1) as (w' & -> & Hr' & Hs' & Hgone & Hq' & Hu'); [|done|].
  { rewrite Ho1, Hr1, Ho, Hr, length_app, length_replicate. exact Hbody. }
  assert (resolve (local_path_of url_path) ≠ resolve tmp_path) as Hdiff
    by apply resolve_tmp_ne.
  exists w'. rewrite Hr', Hs', Hr1, Hs1, Hr, Hs. split; [done|].
  split. { rewrite <- app_assoc. f_equal. by rewrite <- replicate_S_end. }
  repeat split; try done.
  - rewrite Hu', Hu1, Hu. lia.
  - intros n Hn. rewrite Hq', Hq1 by done. by apply Hkeep.
  - intros data m. rewrite Hq', Hq1 by done. intros Hfile.
    by destruct (Hnew _ _ Hfile) as [|(_ & ? & _)].
Qed.

End EmptyBodyClaim.

(** An empty answer, in the demo deployment. *)
Lemma empty_body_fails_witness :
  ∃ w', download_one (P := Demo.platform) "/empty.js" 3 (Demo.world [])
        = (w', (Some false, "/empty.js", InfoStr "empty"))
        ∧ requests w' = ["https://homdgcat.wiki/empty.js"]
        ∧ fs w' !! ["srv"; "HomDGCat"; "site"; "empty.js"] = None
        ∧ fs w' !! ["srv"; "HomDGCat"; "site"; "empty.js.tmp"] = None.
Proof.
  destruct (loop_start (P := Demo.platform) "/empty.js" (Demo.world []))
    as [w0|] eqn:Hstart; [|by vm_compute in Hstart].
  destruct (empty_body_fails (P := Demo.platform) "/empty.js" 3 (Demo.world []) w0 [] Eof
              Hstart)
    as (w' & Hrun & Hreq & _ & _ & Htmp & _).
  - vm_compute. reflexivity.
  - simpl. lia.
  - intros i x Hx. by rewrite lookup_nil in Hx.
  - constructor.
  - vm_compute. reflexivity.
  - reflexivity.
  - exists w'. split; [exact Hrun|]. split; [exact Hreq|]. split; [|exact Htmp].
    apply (f_equal fst) in Hrun. simpl in Hrun. subst w'. by vm_compute.
Defined.

Section ReportClaim.

Context {P : Platform}.
Import Pathlib.

(** C9, as amended.  The loop of [cmd_download] lists exactly the outcomes
    whose status is [False] and whose text is not ["404"], and counts them
    as failed; the not-found outcomes are counted apart and never listed.  When that list is empty
    [cmd_download] ends in the world the pool left, so no report is
    written.  When it is not, and the report file can be opened,
    [cmd_download] leaves a report that holds, for each listed failure in
    turn, the line made of the path, a tab, the text of the failure and a
    line feed, and changes nothing else in the file system. *)
Theorem failure_report (args : Args) (w w1 w2 w3 : World)
    (all_paths : list string) (p : string) (ps : list string) (os : list outcome) :
  load_filelist w = (w1, Finished all_paths) →
  to_download_of all_paths w1 = (w2, Ok (p :: ps)) →
  run_pool (p :: ps) (retry args) w2 = (w3, os) →
  failed_paths (count_outcomes os) = reported os
  ∧ failed (count_outcomes os) = Z.of_nat (length (reported os))
  ∧ (∀ path inf,
       (path, inf) ∈ reported os
       ↔ (Some false, path, inf) ∈ os ∧ info_eqb inf "404" = false)
  ∧ (reported os = [] →
       cmd_download args w = (w3, Finished (Some (count_outcomes os))))
  ∧ (reported os ≠ [] →
       fs_is_dir (fs w3) (resolve FAIL_FILE) = false →
       fs_is_dir (fs w3) (resolve ROOT_DIR) = true →
       ∃ w4, cmd_download args w = (w4, Finished (Some (count_outcomes os)))
             ∧ fs w4 !! resolve FAIL_FILE
               = Some (File (report_text (reported os)) (clock w3))
             ∧ (∀ q, q ≠ resolve FAIL_FILE → fs w4 !! q = fs w3 !! q)).
Proof.
  intros Hload Hpending Hpool.
  split; [apply failed_paths_reported|]. split; [apply failed_reported|].
  split; [apply elem_of_reported|].
  unfold cmd_download. rewrite Hload, Hpending, Hpool, failed_paths_reported.
  split.
  - by intros ->.
  - intros Hsome Hnd Hroot.
    destruct (reported os) as [|e entries] eqn:Hrep; [done|].
    unfold write_report, open_wb, fs_create.
    apply not_dir_lookup in Hnd as [Hne Hnode].
    rewrite resolve_FAIL_FILE, removelast_last, Hroot, <- resolve_FAIL_FILE.
    set (f1 := <[resolve FAIL_FILE := File EmptyString (clock w3)]> (fs w3)).
    assert (match fs w3 !! resolve FAIL_FILE with
            | Some (Dir _ _) => None
            | _ => Some f1
            end = Some f1) as -> by (destruct Hnode as [->|(? & ? & ->)]; done).
    destruct (write_lines (e :: entries) (with_fs f1 (log (SysOpenWrite FAIL_FILE) w3))
                EmptyString) as [Hf Hq].
    { apply lookup_insert_eq. }
    eexists. split; [done|]. split.
    + by rewrite Hf.
    + intros q Hne'. rewrite Hq by done. simpl. unfold f1.
      by rewrite lookup_insert_ne.
Qed.

End ReportClaim.

(** An empty answer and a missing file: the first is reported, the second
    is not. *)
Lemma failure_report_witness :
  ∃ w4, cmd_download (P := Demo.platform) (mkArgs 10 3)
          (Demo.world ["/empty.js"; "/missing.js"])
        = (w4, Finished (Some (mkTally 0 1 1 0 [("/empty.js", InfoStr "empty")])))
        ∧ fs w4 !! ["srv"; "HomDGCat"; "download_failures.txt"]
          = Some (File (report_line ("/empty.js", InfoStr "empty")) 1000).
Proof.
  pose (w := Demo.world ["/empty.js"; "/missing.js"]).
  pose (w1 := (load_filelist (P := Demo.platform) w).1).
  pose (w2 := (to_download_of (P := Demo.platform) ["/empty.js"; "/missing.js"] w1).1).
  pose (r := run_pool (P := Demo.platform) ["/empty.js"; "/missing.js"] 3 w2).
  destruct (failure_report (P := Demo.platform) (mkArgs 10 3) w w1 w2 r.1
              ["/empty.js"; "/missing.js"] "/empty.js" ["/missing.js"] r.2)
    as (_ & _ & _ & _ & Hwritten).
  - vm_compute. reflexivity.
  - vm_compute. reflexivity.
  - vm_compute. reflexivity.
  - destruct Hwritten as (w4 & Hrun & Hfile & _).
    + vm_compute. discriminate.
    + vm_compute. reflexivity.
    + vm_compute. reflexivity.
    + exists w4. split.
      * etrans; [exact Hrun|]. vm_compute. reflexivity.
      * etrans; [exact Hfile|]. vm_compute. reflexivity.
Defined.

(** C9, as stated, fails for the not-found failures: with a list whose
    only entry is missing on the remote site, the outcome is a failure
    with the text ["404"], and no report is written. *)
Lemma not_found_is_not_reported :
  (download_one (P := Demo.platform) "/missing.js" 3 (Demo.world ["/missing.js"])).2
  = (Some false, "/missing.js", InfoStr "404")
  ∧ (cmd_download (P := Demo.platform) (mkArgs 10 3) (Demo.world ["/missing.js"])).2
    = Finished (Some (mkTally 0 1 0 0 []))
  ∧ fs (cmd_download (P := Demo.platform) (mkArgs 10 3) (Demo.world ["/missing.js"])).1
      !! Pathlib.resolve (FAIL_FILE (P := Demo.platform))
    = None.
Proof. repeat split; vm_compute; reflexivity. Qed.

Section OutsideClaim.

Context {P : Platform} {K : Kernel}.
Import Pathlib.


End OutsideClaim.



(** * Further properties *)

(** ** A download that succeeds *)

Section Success.

Context {P : Platform}.
Import Pathlib.

Variables (retries : Z) (url_path url : string) (local_path tmp_path : list string).

Lemma fs_is_dir_same (f f' : gmap (list string) node) (p : list string) :
  f' !! p = f !! p → fs_is_dir f' p = fs_is_dir f p.
Proof. unfold fs_is_dir. destruct p; [done|]. by intros ->. Qed.

(** Copying a body that ends well leaves what it delivered in the
    temporary file and returns its length. *)
Lemma read_into_received (body : stream) (total : Z) (w : World) data m :
  fs w !! resolve tmp_path = Some (File data m) →
  stream_error body = None →
  (read_into tmp_path body total w).2
  = Ok (total + Z.of_nat (String.length (received body)))%Z
  ∧ ∃ m', fs (read_into tmp_path body total w).1 !! resolve tmp_path
          = Some (File (data +:+ received body) m').
Proof.
  revert total w data m. induction body as [|chunk rest IH|msg];
    intros total w data m Hfile Herr; simpl in *.
  - split; [f_equal; lia|]. exists m. by rewrite append_nil_r.
  - destruct (String.eqb chunk EmptyString).
    { split; [simpl; f_equal; lia|]. exists m. by rewrite append_nil_r. }
    edestruct (IH (total + Z.of_nat (String.length chunk))%Z
                 (write tmp_path chunk w)) as (Hr & m' & Hf); [|done|].
    { unfold write, fs_append. simpl. rewrite Hfile. apply lookup_insert_eq. }
    rewrite Hr, Hf. split.
    + f_equal. rewrite length_append. lia.
    + exists m'. by rewrite append_assoc.
  - done.
Qed.

(** An attempt that is answered with a body that ends well and is not
    empty puts what was received at the target and ends the loop. *)
Lemma attempts_success (attempt : Z) (rest : list Z) (body : stream) (w : World) :
  fs_is_dir (fs w) (resolve tmp_path) = false →
  fs_is_dir (fs w) (removelast (resolve tmp_path)) = true →
  fs_is_dir (fs w) (resolve local_path) = false →
  fs_is_dir (fs w) (removelast (resolve local_path)) = true →
  resolve local_path ≠ resolve tmp_path →
  origin w (length (requests w)) url = Opened body →
  stream_error body = None →
  received body ≠ EmptyString →
  ∃ w' m, attempts (attempt :: rest) retries url_path url local_path tmp_path w
          = (w', (Some true, url_path,
                  InfoInt (Z.of_nat (String.length (received body)))))
        ∧ requests w' = requests w ++ [url]
        ∧ sleeps w' = sleeps w
        ∧ fs w' !! resolve local_path = Some (File (received body) m)
        ∧ fs w' !! resolve tmp_path = None
        ∧ (∀ q, q ≠ resolve tmp_path → q ≠ resolve local_path →
                fs w' !! q = fs w !! q).
Proof.
  intros Hnd Hpar Hld Hlpar Hdiff Hresp Herr Hsome.
  cbn [attempts]. unfold try_fetch, urlopen.
  rewrite Hresp. unfold open_wb, fs_create. cbn [fs clock].
  apply not_dir_lookup in Hnd as [Hne Hnode]. rewrite Hpar.
  set (f1 := <[resolve tmp_path := File EmptyString (clock w)]> (fs w)).
  assert (match fs w !! resolve tmp_path with
          | Some (Dir _ _) => None
          | _ => Some f1
          end = Some f1) as -> by (destruct Hnode as [->|(? & ? & ->)]; done).
  match goal with
  | |- context [read_into tmp_path body 0 ?w2] =>
      destruct (read_into_spec tmp_path body 0 w2 EmptyString (clock w))
        as (Hr & Hs & Ho & _ & Hq & _);
      [apply lookup_insert_eq|];
      destruct (read_into_received body 0 w2 EmptyString (clock w))
        as (Hres & m' & Hf); [apply lookup_insert_eq|done|];
      destruct (read_into tmp_path body 0 w2) as [w3 r]
  end.
  simpl in Hr, Hs, Ho, Hq, Hres, Hf. subst r.
  assert ((0 <? 0 + Z.of_nat (String.length (received body)))%Z = true) as ->.
  { apply Z.ltb_lt. destruct (received body); [done|]. simpl. lia. }
  unfold replace, fs_rename. rewrite Hf.
  assert (fs w3 !! resolve local_path = fs w !! resolve local_path) as Hl3.
  { rewrite Hq by done. unfold f1. by rewrite lookup_insert_ne. }
  assert (fs_is_dir (fs w3) (removelast (resolve local_path)) = true) as ->.
  { rewrite <- Hlpar. apply fs_is_dir_same.
    destruct (decide (removelast (resolve local_path) = resolve tmp_path)) as [Heq|Hne'].
    - rewrite Heq in Hlpar. unfold fs_is_dir in Hlpar.
      destruct (resolve tmp_path) eqn:E; [done|].
      by destruct Hnode as [Hn|(? & ? & Hn)]; rewrite Hn in Hlpar.
    - rewrite Hq by done. unfold f1. by rewrite lookup_insert_ne. }
  apply not_dir_lookup in Hld as [Hlne Hlnode].
  assert (∀ (X : Type) (a b : X),
            match fs w3 !! resolve local_path with
            | Some (Dir _ _) => a
            | _ => b
            end = b) as Hmatch.
  { intros X a b. rewrite Hl3. by destruct Hlnode as [->|(? & ? & ->)]. }
  rewrite Hmatch. cbn [fs with_fs log requests sleeps].
  eexists _, m'. split; [by rewrite Z.add_0_l|].
  cbn [requests sleeps fs with_fs log].
  repeat split; try done.
  - by rewrite lookup_insert_eq.
  - rewrite lookup_insert_ne by done. apply lookup_delete_eq.
  - intros q Hq1 Hq2. rewrite lookup_insert_ne, lookup_delete_ne by done.
    rewrite Hq by done. unfold f1. by rewrite lookup_insert_ne.
Qed.

End Success.

Section TargetPath.

Import Pathlib.

(** A path that does not end in [..] resolves to its resolved parent and
    its name. *)
Lemma resolve_parent_name (p : list string) :
  p ≠ [] → name p ≠ ".." → resolve p = resolve (parent p) ++ [name p].
Proof.
  intros Hne Hname. rewrite (app_removelast_last EmptyString Hne) at 1.
  by apply resolve_snoc.
Qed.

(** What is left of a text without its leading separators does not start
    with one, so it is joined below the base. *)
Lemma lstrip_not_absolute (s : string) :
  Str.startswith (Str.lstrip "/" s) "/" = false.
Proof.
  induction s as [|b t IH]; [done|]. simpl.
  destruct (Ascii.eqb b "/") eqn:Hb; [exact IH|].
  unfold Str.startswith. cbn [String.prefix].
  destruct (ascii_dec "/" b) as [<-|]; [|done].
  by rewrite Ascii.eqb_refl in Hb.
Qed.

Lemma local_path_split {P : Platform} (url_path : string) :
  local_path_of url_path = SITE_DIR ++ parts (Str.lstrip "/" url_path).
Proof. unfold local_path_of, joinpath. by rewrite lstrip_not_absolute. Qed.

Lemma local_path_nonempty {P : Platform} (url_path : string) :
  local_path_of url_path ≠ [].
Proof.
  rewrite local_path_split. unfold SITE_DIR. by destruct ROOT_DIR.
Qed.

End TargetPath.

Section DownloadSuccess.

Context {P : Platform}.
Import Pathlib.

(** The target holds no directory after the directories above it were
    made, if it held none before and does not end in [..]; and the
    directory above it is there. *)
Lemma loop_start_target (url_path : string) (w w0 : World) :
  loop_start url_path w = Some w0 →
  fs_is_dir (fs w) (resolve (local_path_of url_path)) = false →
  name (local_path_of url_path) ≠ ".." →
  fs_is_dir (fs w0) (resolve (local_path_of url_path)) = false
  ∧ fs_is_dir (fs w0) (removelast (resolve (local_path_of url_path))) = true.
Proof.
  intros (_ & _ & _ & _ & Hpar & _ & Hnew & _)%loop_start_spec Hnd Hname.
  pose proof (resolve_parent_name _ (local_path_nonempty url_path) Hname) as Hres.
  rewrite Hres in *. rewrite removelast_last. split; [|done].
  apply not_dir_lookup in Hnd as [Hne Hnode].
  destruct (fs w0 !! (resolve (parent (local_path_of url_path))
                      ++ [name (local_path_of url_path)])) as [n|] eqn:E;
    [|by apply not_dir_none].
  destruct (Hnew _ _ E) as [Hold|(_ & _ & Hlen)].
  - destruct Hnode as [Hnone|(data & m & Hfile)]; [congruence|].
    rewrite Hold in Hfile. injection Hfile as ->. by eapply not_dir_file.
  - rewrite length_app in Hlen. simpl in Hlen. lia.
Qed.

(** X1.  [download_one] has reached its loop; its attempts meet the errors
    [errs] (none of them a 404, none at the last attempt; there may be
    none), and the next response has a body that ends well and is not
    empty.  Then [download_one] succeeds with the number of bytes
    received; the target holds exactly what was received and the
    temporary file is gone; everything else that was there is still
    there; and a further call finds the entry present and makes no
    request. *)
Theorem download_stores_body (url_path : string) (retries : Z) (w w0 : World)
    (errs : list exn) (body : stream) :
  loop_start url_path w = Some w0 →
  fs_is_dir (fs w) (tmp_of url_path) = false →
  fs_is_dir (fs w) (resolve (local_path_of url_path)) = false →
  name (local_path_of url_path) ≠ ".." →
  (Z.of_nat (length errs) < retries)%Z →
  (∀ i x, errs !! i = Some x →
          response_error (origin w (length (requests w) + i) (full_url_of url_path))
          = Some x) →
  Forall (λ x, is_404 x = false) errs →
  origin w (length (requests w) + length errs) (full_url_of url_path) = Opened body →
  stream_error body = None →
  received body ≠ EmptyString →
  ∃ w' m,
    download_one url_path retries w
    = (w', (Some true, url_path, InfoInt (Z.of_nat (String.length (received body)))))
    ∧ requests w' = requests w ++ replicate (S (length errs)) (full_url_of url_path)
    ∧ sleeps w' = sleeps w ++ ((λ n, 2 ^ Z.of_nat n)%Z <$> seq 0 (length errs))
    ∧ fs w' !! resolve (local_path_of url_path) = Some (File (received body) m)
    ∧ fs w' !! tmp_of url_path = None
    ∧ (∀ q n, fs w !! q = Some n →
              q ≠ resolve (local_path_of url_path) → q ≠ tmp_of url_path →
              fs w' !! q = Some n)
    ∧ (∀ again,
         download_one url_path again w'
         = (probed [local_path_of url_path; local_path_of url_path] w',
            (None, url_path, InfoStr "exists"))).
Proof.
  intros Hstart Hnd Hld Hname Hlen Hresp Hno Hbody Herr Hsome.
  destruct (loop_start_tmp _ _ _ Hstart Hnd) as [Hnd0 Hpar0].
  destruct (loop_start_target _ _ _ Hstart Hld Hname) as [Hld0 Hlpar0].
  assert (is_Some (inside_site (local_path_of url_path))) as [rel Hin].
  { unfold loop_start in Hstart. by destruct (inside_site _). }
  apply loop_start_spec in Hstart as (Hrun & Hr & Hs & Ho & _ & Hkeep & Hnew & _).
  unfold tmp_of in *. set (tmp_path := tmp_path_of (local_path_of url_path)) in *.
  assert (resolve (local_path_of url_path) ≠ resolve tmp_path) as Hdiff
    by apply resolve_tmp_ne.
  rewrite Hrun, (range_split retries (length errs)) by done.
  rewrite seq_S, fmap_app, <- app_assoc. cbn [fmap list_fmap app Nat.add].
  destruct (attempts_retry retries url_path (full_url_of url_path)
              (local_path_of url_path) tmp_path errs 0
              (Z.of_nat (length errs)
               :: (Z.of_nat <$> seq (S (length errs)) (Z.to_nat retries - S (length errs))))
              w0) as (w1 & -> & Hr1 & Hs1 & Ho1 & Hnd1 & Hpar1 & Hq1 & _); try done.
  { intros i x Hx. rewrite Ho, Hr. by apply Hresp. }
  destruct (attempts_success retries url_path (full_url_of url_path)
              (local_path_of url_path) tmp_path (Z.of_nat (length errs))
              (Z.of_nat <$> seq (S (length errs)) (Z.to_nat retries - S (length errs)))
              body w1 Hnd1 Hpar1)
    as (w' & m & -> & Hr' & Hs' & Hfile & Hgone & Hq'); try done.
  { rewrite <- Hld0. apply fs_is_dir_same. by apply Hq1. }
  { rewrite <- Hlpar0. apply fs_is_dir_same.
    destruct (decide (removelast (resolve (local_path_of url_path)) = resolve tmp_path))
      as [Heq|Hne]; [|by apply Hq1].
    rewrite Heq in Hlpar0. congruence. }
  { rewrite Ho1, Hr1, Ho, Hr, length_app, length_replicate. exact Hbody. }
  exists w', m. rewrite Hr', Hs', Hr1, Hs1, Hr, Hs. split; [done|].
  split. { rewrite <- app_assoc. f_equal. by rewrite <- replicate_S_end. }
  repeat split; try done.
  - intros q n Hn Hq2 Hq3. rewrite Hq', Hq1 by done. by apply Hkeep.
  - intros again. apply download_one_present. unfold present.
    rewrite Hin, Hfile. simpl. apply Z.ltb_lt.
    destruct (received body); [done|]. simpl. lia.
Qed.

End DownloadSuccess.

(** A page that arrives in two pieces, in the demo deployment. *)
Lemma download_stores_body_witness :
  ∃ w' m,
    download_one (P := Demo.platform) "/sr/char/1001/index.html" 3 (Demo.world [])
    = (w', (Some true, "/sr/char/1001/index.html", InfoInt 5))
    ∧ requests w' = ["https://homdgcat.wiki/sr/char/1001/"]
    ∧ fs w' !! ["srv"; "HomDGCat"; "site"; "sr"; "char"; "1001"; "index.html"]
      = Some (File "hello" m).
Proof.
  destruct (loop_start (P := Demo.platform) "/sr/char/1001/index.html" (Demo.world []))
    as [w0|] eqn:Hstart; [|by vm_compute in Hstart].
  destruct (download_stores_body (P := Demo.platform) "/sr/char/1001/index.html" 3
              (Demo.world []) w0 [] (Chunk "hel" (Chunk "lo" Eof)) Hstart)
    as (w' & m & Hrun & Hreq & _ & Hfile & _).
  - vm_compute. reflexivity.
  - vm_compute. reflexivity.
  - vm_compute. discriminate.
  - simpl. lia.
  - intros i x Hx. by rewrite lookup_nil in Hx.
  - constructor.
  - vm_compute. reflexivity.
  - reflexivity.
  - vm_compute. discriminate.
  - exists w', m. split; [exact Hrun|]. split; [exact Hreq|exact Hfile].
Defined.

Section NoRetries.

Context {P : Platform}.
Import Pathlib.

(** X2.  With a number of retries that is zero or negative, [download_one]
    still makes the directories above the target, but then makes no
    attempt: it fails with the text ["failed"] without a request. *)
Theorem no_attempt_without_retries (url_path : string) (retries : Z) (w w0 : World) :
  loop_start url_path w = Some w0 →
  (retries ≤ 0)%Z →
  download_one url_path retries w = (w0, (Some false, url_path, InfoStr "failed"))
  ∧ requests w0 = requests w
  ∧ sleeps w0 = sleeps w
  ∧ fs_is_dir (fs w0) (resolve (parent (local_path_of url_path))) = true.
Proof.
  intros (Hrun & Hr & Hs & _ & Hpar & _)%loop_start_spec Hle.
  rewrite Hrun. unfold range.
  replace (Z.to_nat retries) with 0%nat by lia. done.
Qed.

End NoRetries.

(** [--retry 0], in the demo deployment. *)
Lemma no_attempt_without_retries_witness :
  (download_one (P := Demo.platform) "/x/y.js" 0 (Demo.world [])).2
  = (Some false, "/x/y.js", InfoStr "failed")
  ∧ requests (download_one (P := Demo.platform) "/x/y.js" 0 (Demo.world [])).1 = [].
Proof.
  destruct (loop_start (P := Demo.platform) "/x/y.js" (Demo.world []))
    as [w0|] eqn:Hstart; [|by vm_compute in Hstart].
  destruct (no_attempt_without_retries (P := Demo.platform) "/x/y.js" 0
              (Demo.world []) w0 Hstart) as (Hrun & Hreq & _); [lia|].
  rewrite Hrun. split; [reflexivity|exact Hreq].
Defined.

(** ** What [download_one] may change *)

Section Frame.

Context {P : Platform}.
Import Pathlib.

Lemma read_into_frame (tmp_path : list string) (body : stream) (total : Z)
    (w : World) (q : list string) :
  q ≠ resolve tmp_path →
  fs (read_into tmp_path body total w).1 !! q = fs w !! q.
Proof.
  intros Hq. revert total w. induction body as [|chunk rest IH|msg];
    intros total w; simpl; [done| |done].
  destruct (String.eqb chunk EmptyString); [done|]. rewrite IH.
  unfold write, fs_append. simpl.
  destruct (fs w !! resolve tmp_path) as [[]|]; [|done..].
  by rewrite lookup_insert_ne.
Qed.

Lemma unlink_frame (p : list string) (w : World) (q : list string) :
  q ≠ resolve p → fs (unlink p w).1 !! q = fs w !! q.
Proof.
  intros Hq. unfold unlink, fs_unlink.
  destruct (fs w !! resolve p) as [[]|]; simpl; [|done|];
    by rewrite lookup_delete_ne.
Qed.

(** An attempt touches the temporary file and the target only. *)
Lemma try_fetch_frame (url_path url : string) (local_path tmp_path : list string)
    (w : World) (q : list string) :
  q ≠ resolve tmp_path → q ≠ resolve local_path →
  fs (try_fetch url_path url local_path tmp_path w).1 !! q = fs w !! q.
Proof.
  intros Hq Hq'. unfold try_fetch, urlopen.
  destruct (origin w (length (requests w)) url) as [e|body]; [done|].
  unfold open_wb, fs_create. cbn [fs clock].
  set (w0 := mkWorld _ _ _ _ _ _ _).
  assert (∀ w2, fs w2 !! q = fs w !! q →
            fs (match read_into tmp_path body 0 w2 with
                | (w3, Raise e) => (w3, Raise e)
                | (w3, Ok total) =>
                    if (0 <? total)%Z then
                      match replace tmp_path local_path w3 with
                      | (w4, Raise e) => (w4, Raise e)
                      | (w4, Ok _) => (w4, Ok (Some true, url_path, InfoInt total))
                      end
                    else
                      match unlink tmp_path w3 with
                      | (w4, Raise e) => (w4, Raise e)
                      | (w4, Ok _) => (w4, Ok (Some false, url_path, InfoStr "empty"))
                      end
                end).1 !! q = fs w !! q) as Hgo.
  { intros w2 H2. pose proof (read_into_frame tmp_path body 0 w2 q Hq) as Hr.
    destruct (read_into tmp_path body 0 w2) as [w3 [total|e]]; simpl in Hr;
      [|simpl; by rewrite Hr].
    destruct (0 <? total)%Z.
    - unfold replace, fs_rename.
      destruct (fs w3 !! resolve tmp_path) as [[data m|]|];
        [|simpl; by rewrite Hr..].
      destruct (fs w3 !! resolve local_path) as [[]|];
        try destruct (fs_is_dir (fs w3) (removelast (resolve local_path)));
        simpl; rewrite ?lookup_insert_ne, ?lookup_delete_ne by done;
        by rewrite Hr.
    - pose proof (unlink_frame tmp_path w3 q Hq) as Hu.
      destruct (unlink tmp_path w3) as [w4 [[]|e]]; simpl in *; by rewrite Hu, Hr. }
  destruct (fs w !! resolve tmp_path) as [[]|] eqn:E; simpl;
    try done;
    (destruct (fs_is_dir (fs w) (removelast (resolve tmp_path))); [|done]);
    apply Hgo; simpl; by rewrite lookup_insert_ne.
Qed.

Lemma attempts_frame (todo : list Z) (retries : Z) (url_path url : string)
    (local_path tmp_path : list string) (w : World) (q : list string) :
  q ≠ resolve tmp_path → q ≠ resolve local_path →
  fs (attempts todo retries url_path url local_path tmp_path w).1 !! q = fs w !! q.
Proof.
  intros Hq Hq'. revert w. induction todo as [|attempt rest IH]; intros w; [done|].
  cbn [attempts].
  pose proof (try_fetch_frame url_path url local_path tmp_path w q Hq Hq') as Ht.
  destruct (try_fetch url_path url local_path tmp_path w) as [w1 [out|e]]; [done|].
  pose proof (unlink_frame tmp_path w1 q Hq) as Hu.
  destruct (unlink tmp_path w1) as [w2 [[]|e']]; simpl in Ht, Hu.
  2:{ destruct e; simpl; congruence. }
  destruct e as [code msg|msg]; simpl.
  - destruct (code =? 404)%Z; [simpl; congruence|].
    destruct (attempt <? retries - 1)%Z; rewrite IH; simpl; congruence.
  - destruct (attempt <? retries - 1)%Z; [rewrite IH|]; simpl; congruence.
Qed.

(** What [mkdir] adds lies on the way to the directory asked for. *)
Lemma fs_mkdirs_new_prefix (size now : Z) (comps cur : list string)
    (f f' : gmap (list string) node) (ok : bool) (q : list string) :
  fs_mkdirs size now cur comps f = (f', ok) → f !! q = None → is_Some (f' !! q) →
  q `prefix_of` cur ++ comps.
Proof.
  revert cur f. induction comps as [|c comps IH]; intros cur f; simpl.
  { intros [= <- _] -> [? ?]. done. }
  destruct (f !! (cur ++ [c])) as [[]|] eqn:E.
  - intros [= <- _] -> [? ?]. done.
  - intros Hrun Hq Hq'. pose proof (IH _ _ Hrun Hq Hq') as Hpre.
    by rewrite <- app_assoc in Hpre.
  - intros Hrun Hq Hq'. destruct (decide (cur ++ [c] = q)) as [<-|Hne].
    + rewrite (cons_middle c cur comps), app_assoc. by apply prefix_app_r.
    + assert (<[cur ++ [c] := Dir size now]> f !! q = None) as Hq''
        by by rewrite lookup_insert_ne.
      pose proof (IH _ _ Hrun Hq'' Hq') as Hpre.
      by rewrite <- app_assoc in Hpre.
Qed.

Lemma mkdir_parents_frame (p : list string) (w : World) (q : list string) :
  fs (mkdir_parents p w).1 !! q ≠ fs w !! q →
  q `prefix_of` resolve p
  ∧ fs w !! q = None
  ∧ fs (mkdir_parents p w).1 !! q = Some (Dir new_dir_size (clock w)).
Proof.
  unfold mkdir_parents.
  destruct (fs_mkdirs new_dir_size (clock w) [] (resolve p) (fs w)) as [f' ok] eqn:Hmk.
  assert (fs (if ok then (with_fs f' (log (SysMkdir p) w), Ok ())
              else (with_fs f' (log (SysMkdir p) w),
                    Raise (OtherError "File exists"))).1 = f') as Hfs
    by by destruct ok.
  destruct ok; simpl in *; intros Hne.
  all: destruct (f' !! q) as [n|] eqn:Hq.
  all: try (destruct (fs_mkdirs_new _ _ _ _ _ _ _ _ _ Hmk Hq) as [Hold|[Hnone ->]];
            [congruence|];
            split; [|done];
            apply (fs_mkdirs_new_prefix _ _ _ [] _ _ _ _ Hmk Hnone); by rewrite Hq).
  all: destruct (fs w !! q) as [n|] eqn:Hw; [|done];
       by rewrite (fs_mkdirs_keeps _ _ _ _ _ _ _ _ _ Hmk Hw) in Hq.
Qed.

End Frame.

Section Confined.

Context {P : Platform}.
Import Pathlib.

Lemma prefix_removelast {A} (l : list A) : removelast l `prefix_of` l.
Proof.
  destruct (decide (l = [])) as [->|Hne]; [done|].
  destruct (exists_last Hne) as (l' & a & ->).
  rewrite removelast_last. by apply prefix_app_r.
Qed.

Lemma inside_site_prefix (p : list string) :
  is_Some (inside_site p) → resolve SITE_DIR `prefix_of` resolve p.
Proof.
  unfold inside_site, relative_to. destruct (decide _); [done|]. by intros [? ?].
Qed.

Lemma resolve_unsnoc (p : list string) :
  p ≠ [] →
  resolve p = if String.eqb (name p) ".." then removelast (resolve (parent p))
              else resolve (parent p) ++ [name p].
Proof.
  intros Hne. rewrite (app_removelast_last EmptyString Hne) at 1.
  fold (parent p) (name p). unfold resolve. rewrite normalize_app. simpl.
  by destruct (String.eqb (name p) "..").
Qed.

(** The directory above the target of an entry inside the site lies
    inside the site, unless the entry names the site itself. *)
Lemma site_above_parent (url_path : string) :
  is_Some (inside_site (local_path_of url_path)) →
  resolve (local_path_of url_path) ≠ resolve SITE_DIR →
  resolve SITE_DIR `prefix_of` resolve (parent (local_path_of url_path)).
Proof.
  intros Hin%inside_site_prefix Hne. revert Hin Hne.
  rewrite (resolve_unsnoc _ (local_path_nonempty url_path)).
  destruct (String.eqb (name (local_path_of url_path)) "..").
  - intros Hin _. etrans; [exact Hin|apply prefix_removelast].
  - intros Hin Hne. apply prefix_snoc_inv in Hin as [|Heq]; [done|].
    by rewrite Heq in Hne.
Qed.

(** X3.  Whatever the remote site answers, [download_one] changes nothing
    outside the site when the local path of the entry has no [..]
    component: what it changes lies inside the site, except for the
    missing directories on the way to the site, which it makes.  (With a
    [..] component the directories that [mkdir] makes are those of the
    path as written, which may lie outside the site.)  The entry must not
    name the site itself. *)
Theorem download_one_confined (url_path : string) (retries : Z) (w : World)
    (q : list string) :
  no_dotdot (local_path_of url_path) →
  resolve (local_path_of url_path) ≠ resolve SITE_DIR →
  fs (download_one url_path retries w).1 !! q ≠ fs w !! q →
  resolve SITE_DIR `prefix_of` q
  ∨ (q `prefix_of` resolve SITE_DIR
     ∧ fs w !! q = None
     ∧ fs (download_one url_path retries w).1 !! q
       = Some (Dir new_dir_size (clock w))).
Proof.
  intros _ Hroot. unfold download_one.
  destruct (inside_site (local_path_of url_path)) as [rel|] eqn:Hin; [|done].
  assert (is_Some (inside_site (local_path_of url_path))) as Hsome by by rewrite Hin.
  pose proof (site_above_parent url_path Hsome Hroot) as Hpar.
  pose proof (inside_site_prefix _ Hsome) as Hloc.
  set (local_path := local_path_of url_path) in *.
  assert (resolve SITE_DIR `prefix_of` resolve (tmp_path_of local_path)) as Htmp.
  { rewrite resolve_tmp_path. by apply prefix_app_r. }
  assert (∀ w2, fs w2 = fs w → clock w2 = clock w →
            let r := match mkdir_parents (parent local_path) w2 with
                     | (w3, Ok _) =>
                         attempts (range retries) retries url_path (full_url_of url_path)
                           local_path (tmp_path_of local_path) w3
                     | (w3, Raise e) => (w3, (Some false, url_path, InfoStr (str_exn e)))
                     end in
            fs r.1 !! q ≠ fs w !! q →
            resolve SITE_DIR `prefix_of` q
            ∨ (q `prefix_of` resolve SITE_DIR ∧ fs w !! q = None
               ∧ fs r.1 !! q = Some (Dir new_dir_size (clock w)))) as Hgo.
  { intros w2 Hf Hc. cbn zeta.
    destruct (decide (q = resolve (tmp_path_of local_path))) as [->|Hq1]; [by left|].
    destruct (decide (q = resolve local_path)) as [->|Hq2]; [by left|].
    pose proof (mkdir_parents_frame (parent local_path) w2 q) as Hmk.
    assert (fs (match mkdir_parents (parent local_path) w2 with
                | (w3, Ok _) =>
                    attempts (range retries) retries url_path (full_url_of url_path)
                      local_path (tmp_path_of local_path) w3
                | (w3, Raise e) => (w3, (Some false, url_path, InfoStr (str_exn e)))
                end).1 !! q = fs (mkdir_parents (parent local_path) w2).1 !! q) as ->.
    { destruct (mkdir_parents (parent local_path) w2) as [w3 [[]|e]]; [|done].
      by apply attempts_frame. }
    rewrite Hf, Hc in Hmk. intros Hne.
    destruct (Hmk Hne) as (Hpre & Hnone & Hdir).
    destruct (prefix_weak_total _ _ _ Hpre Hpar) as [|]; [right|by left].
    done. }
  cbn [path_exists stat].
  destruct (fs w !! resolve local_path) as [n|] eqn:E; cbn [fs log]; rewrite ?E.
  - destruct (0 <? st_size n)%Z; [done|]. by apply Hgo.
  - by apply Hgo.
Qed.

End Confined.

(** A download that creates directories and a file, in the demo
    deployment: one of the directories it makes. *)
Lemma download_one_confined_witness :
  ["srv"; "HomDGCat"; "site"] `prefix_of` ["srv"; "HomDGCat"; "site"; "sr"]
  ∨ (["srv"; "HomDGCat"; "site"; "sr"] `prefix_of` ["srv"; "HomDGCat"; "site"]
     ∧ fs (Demo.world []) !! ["srv"; "HomDGCat"; "site"; "sr"] = None
     ∧ fs (download_one (P := Demo.platform) "/sr/char/1001/index.html" 3
             (Demo.world [])).1 !! ["srv"; "HomDGCat"; "site"; "sr"]
       = Some (Dir 4096 1000)).
Proof.
  apply (download_one_confined (P := Demo.platform) "/sr/char/1001/index.html" 3
           (Demo.world []) ["srv"; "HomDGCat"; "site"; "sr"]).
  - vm_compute. repeat constructor; discriminate.
  - vm_compute. discriminate.
  - vm_compute. discriminate.
Defined.

(** ** The outcomes of the pool *)

Section Pool.

Context {P : Platform}.
Import Pathlib.

Lemma try_fetch_path (url_path url : string) (local_path tmp_path : list string)
    (w w1 : World) (out : outcome) :
  try_fetch url_path url local_path tmp_path w = (w1, Ok out) → out.1.2 = url_path.
Proof.
  unfold try_fetch, urlopen.
  destruct (origin w (length (requests w)) url) as [e|body]; [done|].
  destruct (open_wb tmp_path _) as [w2 [[]|e]]; [|done].
  destruct (read_into tmp_path body 0 w2) as [w3 [total|e]]; [|done].
  destruct (0 <? total)%Z.
  - destruct (replace tmp_path local_path w3) as [w4 [[]|e]]; [|done].
    by intros [= _ <-].
  - destruct (unlink tmp_path w3) as [w4 [[]|e]]; [|done].
    by intros [= _ <-].
Qed.

Lemma attempts_path (todo : list Z) (retries : Z) (url_path url : string)
    (local_path tmp_path : list string) (w : World) :
  (attempts todo retries url_path url local_path tmp_path w).2.1.2 = url_path.
Proof.
  revert w. induction todo as [|attempt rest IH]; intros w; [done|].
  cbn [attempts].
  destruct (try_fetch url_path url local_path tmp_path w) as [w1 [out|e]] eqn:Ht.
  { by apply try_fetch_path in Ht. }
  destruct (unlink tmp_path w1) as [w2 [[]|e']].
  2:{ by destruct e. }
  destruct e as [code msg|msg].
  - destruct (code =? 404)%Z; [done|].
    destruct (attempt <? retries - 1)%Z; apply IH.
  - destruct (attempt <? retries - 1)%Z; [apply IH|done].
Qed.

(** The outcome of [download_one] names the entry it was called for. *)
Lemma download_one_path (url_path : string) (retries : Z) (w : World) :
  (download_one url_path retries w).2.1.2 = url_path.
Proof.
  unfold download_one. destruct (inside_site _); [|done].
  cbn [path_exists stat].
  assert (∀ w2, (match mkdir_parents (parent (local_path_of url_path)) w2 with
                 | (w3, Ok _) =>
                     attempts (range retries) retries url_path (full_url_of url_path)
                       (local_path_of url_path) (tmp_path_of (local_path_of url_path)) w3
                 | (w3, Raise e) => (w3, (Some false, url_path, InfoStr (str_exn e)))
                 end).2.1.2 = url_path) as Hgo.
  { intros w2. destruct (mkdir_parents _ w2) as [w3 [[]|e]]; [|done].
    apply attempts_path. }
  destruct (fs w !! resolve (local_path_of url_path)) as [n|]; cbn [fs log].
  - destruct (fs w !! resolve (local_path_of url_path)) as [n'|]; [|done].
    destruct (0 <? st_size n')%Z; [done|apply Hgo].
  - apply Hgo.
Qed.

(** X4.  The pool returns one outcome for each entry handed to it, and the
    outcome names that entry. *)
Theorem run_pool_outcomes (l : list string) (retries : Z) (w : World) :
  (λ o : outcome, o.1.2) <$> (run_pool l retries w).2 = l.
Proof.
  revert w. induction l as [|p l IH]; intros w; [done|]. simpl.
  pose proof (download_one_path p retries w) as Hp.
  destruct (download_one p retries w) as [w1 o].
  specialize (IH w1). destruct (run_pool l retries w1) as [w2 os].
  simpl in *. rewrite Hp. f_equal. exact IH.
Qed.

(** The pool asks only for the addresses of its entries, and at most
    [retries] times for each. *)
Lemma run_pool_requests (l : list string) (retries : Z) (w : World) :
  ∃ rs, requests (run_pool l retries w).1 = requests w ++ rs
        ∧ (length rs ≤ length l * Z.to_nat retries)%nat
        ∧ Forall (λ u, ∃ p, p ∈ l ∧ u = full_url_of p) rs.
Proof.
  revert w. induction l as [|p l IH]; intros w.
  { exists []. simpl. rewrite app_nil_r. repeat split; [lia|constructor]. }
  simpl. destruct (download_one_requests p retries w) as (n & Hn & Hr).
  destruct (download_one p retries w) as [w1 o].
  destruct (IH w1) as (rs & Hrs & Hlen & Hall).
  destruct (run_pool l retries w1) as [w2 os]. simpl in *.
  exists (replicate n (full_url_of p) ++ rs). rewrite Hrs, Hr, app_assoc.
  split; [done|]. split.
  - rewrite length_app, length_replicate. lia.
  - apply Forall_app. split.
    + apply Forall_replicate. exists p. split; [by left|done].
    + eapply Forall_impl; [exact Hall|]. intros u (q & Hq & ->).
      exists q. split; [by right|done].
Qed.

Lemma write_report_requests (entries : list (string * info)) (w : World) :
  requests (write_report entries w).1 = requests w.
Proof.
  unfold write_report, open_wb.
  destruct (fs_create _ _ _) as [f|]; [|done]. simpl.
  set (w1 := with_fs f _). change (requests w) with (requests w1).
  generalize w1. induction entries as [|e entries IH]; intros w2; [done|].
  simpl. by rewrite IH.
Qed.

(** X5.  Whatever happens, [cmd_download] asks only for the addresses of the
    entries of the list that are not present, and at most [retry] times
    for each of them. *)
Theorem cmd_download_requests (args : Args) (w : World) :
  ∃ rs, requests (cmd_download args w).1 = requests w ++ rs
        ∧ ∀ w1 all_paths,
            load_filelist w = (w1, Finished all_paths) →
            (length rs
             ≤ length (List.filter (λ p, negb (present w p)) all_paths)
               * Z.to_nat (retry args))%nat
            ∧ Forall (λ u, ∃ p, p ∈ all_paths ∧ present w p = false
                               ∧ u = full_url_of p) rs.
Proof.
  unfold cmd_download.
  destruct (load_filelist w) as [w1 [all_paths|c|e]] eqn:Hload.
  2,3: exists []; rewrite app_nil_r; split; [|done];
       unfold load_filelist, read_bytes in Hload; simpl in Hload;
       destruct (fs w !! resolve FILELIST) as [[]|]; by injection Hload as <- _.
  pose proof (load_filelist_logged _ _ _ Hload) as ->.
  destruct (to_download_of_spec all_paths (logged [SysStat FILELIST; SysRead FILELIST] w))
    as (ps & ->).
  change (present (logged _ w)) with (present w).
  set (pending := List.filter (λ p, negb (present w p)) all_paths).
  assert (∀ p, p ∈ pending → p ∈ all_paths ∧ present w p = false) as Hpending.
  { intros p [Hp Hb]%list_elem_of_In%filter_In. split; [by apply list_elem_of_In|].
    by destruct (present w p). }
  destruct pending as [|p0 pending'] eqn:Hpend.
  { exists []. simpl. rewrite app_nil_r. split; [done|].
    intros ? ? [= _ <-]. fold pending. rewrite Hpend. split; [simpl; lia|constructor]. }
  destruct (run_pool_requests (p0 :: pending') (retry args)
              (probed ps (logged [SysStat FILELIST; SysRead FILELIST] w)))
    as (rs & Hrs & Hlen & Hall).
  destruct (run_pool (p0 :: pending') (retry args) _) as [w3 os].
  simpl in Hrs.
  exists rs. split.
  - destruct (failed_paths (count_outcomes os)) as [|e entries]; [done|].
    pose proof (write_report_requests (e :: entries) w3) as Hw.
    destruct (write_report (e :: entries) w3) as [w4 [[]|err]]; simpl in *; congruence.
  - intros ? ? [= _ <-]. fold pending. rewrite Hpend. split; [done|].
    eapply Forall_impl; [exact Hall|]. intros u (q & Hq & ->).
    exists q. destruct (Hpending q Hq). done.
Qed.

End Pool.

(** ** The tally *)

Section TallyFacts.

Lemma fold_count_counters (os : list outcome) (t : Tally) :
  let t' := fold_left count_outcome os t in
  success t' = (success t + Z.of_nat (length (List.filter is_success os)))%Z
  ∧ not_found t' = (not_found t + Z.of_nat (length (List.filter is_not_found os)))%Z
  ∧ total_bytes t' = (total_bytes t + foldr (λ o acc, bytes_of o + acc) 0 os)%Z.
Proof.
  revert t. induction os as [|o os IH]; intros t; cbn zeta.
  { simpl. lia. }
  simpl fold_left. destruct (IH (count_outcome t o)) as (Hs & Hn & Hb).
  rewrite Hs, Hn, Hb. clear.
  destruct o as [[[[]|] path] inf]; unfold is_not_found, is_success; simpl;
    try (destruct inf; simpl; lia);
    destruct (info_eqb inf "404"); simpl; lia.
Qed.

Lemma filter_buckets (os : list outcome) :
  (length (List.filter is_success os) + length (List.filter is_not_found os)
   + length (reported os) + length (List.filter is_skipped os) = length os)%nat.
Proof.
  induction os as [|o os IH]; [done|].
  rewrite (reported_cons o os), length_app.
  destruct o as [[[[]|] path] inf];
    unfold is_not_found, is_success, is_skipped in *; simpl;
    try (destruct (info_eqb inf "404")); simpl; lia.
Qed.

End TallyFacts.

Section TallyClaims.

(** X6.  Every outcome is counted once: as a success, as not found or as
    failed, except the outcomes of entries that were already present,
    which are counted nowhere.  The byte total is the sum of what the
    successes report. *)
Theorem tally_accounts (os : list outcome) :
  let t := count_outcomes os in
  (success t + not_found t + failed t
   + Z.of_nat (length (List.filter is_skipped os)) = Z.of_nat (length os))%Z
  ∧ success t = Z.of_nat (length (List.filter is_success os))
  ∧ not_found t = Z.of_nat (length (List.filter is_not_found os))
  ∧ total_bytes t = foldr (λ o acc, (bytes_of o + acc)%Z) 0%Z os.
Proof.
  cbn zeta. unfold count_outcomes.
  destruct (fold_count_counters os tally0) as (Hs & Hn & Hb).
  rewrite Hs, Hn, Hb, fold_count_failed. simpl.
  pose proof (filter_buckets os). repeat split; lia.
Qed.

(** X7.  The pool hands its results over in the order of completion; the
    counts do not depend on that order, and the list of failures holds
    the same entries. *)
Theorem tally_order_independent (os os' : list outcome) :
  os ≡ₚ os' →
  success (count_outcomes os) = success (count_outcomes os')
  ∧ not_found (count_outcomes os) = not_found (count_outcomes os')
  ∧ failed (count_outcomes os) = failed (count_outcomes os')
  ∧ total_bytes (count_outcomes os) = total_bytes (count_outcomes os')
  ∧ failed_paths (count_outcomes os) ≡ₚ failed_paths (count_outcomes os').
Proof.
  intros Hperm. unfold count_outcomes.
  destruct (fold_count_counters os tally0) as (Hs & Hn & Hb).
  destruct (fold_count_counters os' tally0) as (Hs' & Hn' & Hb').
  rewrite Hs, Hn, Hb, Hs', Hn', Hb', !fold_count_failed, !fold_count_failed_paths.
  assert (reported os ≡ₚ reported os') as Hrep.
  { clear -Hperm. induction Hperm as [|o l l' _ IH|o o' l|l l' l'' _ IH _ IH'].
    - done.
    - rewrite (reported_cons o l), (reported_cons o l'). by rewrite IH.
    - rewrite (reported_cons o' (o :: l)), (reported_cons o l),
        (reported_cons o (o' :: l)), (reported_cons o' l), !app_assoc.
      f_equiv. apply Permutation_app_comm.
    - by etrans. }
  assert (foldr (λ o acc, bytes_of o + acc) 0 os
          = foldr (λ o acc, bytes_of o + acc) 0 os')%Z as Hbytes.
  { clear -Hperm. induction Hperm as [|o l l' _ IH|o o' l|l l' l'' _ IH _ IH'];
      simpl; lia. }
  simpl. rewrite Hbytes.
  pose proof (Permutation_length Hrep) as Hlr.
  assert (∀ f : outcome → bool,
            length (List.filter f os) = length (List.filter f os')) as Hlen.
  { intros f. clear -Hperm.
    induction Hperm as [|o l l' _ IH|o o' l|l l' l'' _ IH _ IH']; simpl.
    - done.
    - destruct (f o); simpl; lia.
    - destruct (f o), (f o'); simpl; lia.
    - lia. }
  rewrite !Hlen, Hlr. repeat split; done.
Qed.

End TallyClaims.

(** Two results, swapped. *)
Lemma tally_order_independent_witness :
  failed (count_outcomes [(Some true, "/a", InfoInt 5); (Some false, "/b", InfoStr "empty")])
  = failed (count_outcomes [(Some false, "/b", InfoStr "empty"); (Some true, "/a", InfoInt 5)])
  ∧ total_bytes (count_outcomes [(Some true, "/a", InfoInt 5); (Some false, "/b", InfoStr "empty")])
    = 5%Z.
Proof.
  destruct (tally_order_independent
              [(Some true, "/a", InfoInt 5); (Some false, "/b", InfoStr "empty")]
              [(Some false, "/b", InfoStr "empty"); (Some true, "/a", InfoInt 5)])
    as (_ & _ & Hf & _).
  - apply perm_swap.
  - split; [exact Hf|reflexivity].
Defined.

(** ** The list of files *)

Section Lines.

Import Urllib.

Lemma in_string_cons (c a : ascii) (s : string) :
  in_string c (String a s) = Ascii.eqb c a || in_string c s.
Proof. done. Qed.

Lemma in_string_app (c : ascii) (s t : string) :
  in_string c (s +:+ t) = in_string c s || in_string c t.
Proof.
  induction s as [|a s IH]; [done|].
  by rewrite append_cons, !in_string_cons, IH, orb_assoc.
Qed.

Lemma lines_cons (s : string) : ∃ h t, Str.lines s = h :: t.
Proof.
  induction s as [|a s (h & t & IH)]; simpl; [by eexists _, _|].
  destruct (_ || _); [by eexists _, _|]. rewrite IH. by eexists _, _.
Qed.

(** No line holds a line break. *)
Lemma lines_no_break (s l : string) :
  l ∈ Str.lines s → in_string "010" l = false ∧ in_string "013" l = false.
Proof.
  revert l. induction s as [|a s IH]; intros l; simpl.
  { by intros ->%list_elem_of_singleton. }
  destruct (Ascii.eqb a "010" || Ascii.eqb a "013") eqn:Ha.
  - intros [->|Hl]%elem_of_cons; [done|by apply IH].
  - destruct (lines_cons s) as (h & t & Hs). rewrite Hs in *.
    apply orb_false_elim in Ha as [Ha1 Ha2].
    intros [->|Hl]%elem_of_cons.
    + rewrite !in_string_cons, (Ascii.eqb_sym "010"), (Ascii.eqb_sym "013"), Ha1, Ha2.
      apply IH. by left.
    + apply IH. by right.
Qed.

Lemma lstrip_ws_in (c : ascii) (s : string) :
  in_string c (Str.lstrip_ws s) = true → in_string c s = true.
Proof.
  induction s as [|a s IH]; [done|]. simpl.
  destruct (Str.isspace a); [|done].
  intros H%IH. rewrite in_string_cons, H. apply orb_true_r.
Qed.

Lemma rstrip_ws_in (c : ascii) (s : string) :
  in_string c (Str.rstrip_ws s) = true → in_string c s = true.
Proof.
  induction s as [|a s IH]; [done|]. simpl.
  destruct (Str.rstrip_ws s) as [|b r].
  - destruct (Str.isspace a); [done|].
    rewrite !in_string_cons. intros [->|?]%orb_prop; done.
  - rewrite !in_string_cons. intros [->|H]%orb_prop; [done|].
    rewrite IH by done. apply orb_true_r.
Qed.

Lemma strip_in (c : ascii) (s : string) :
  in_string c s = false → in_string c (Str.strip s) = false.
Proof.
  intros Hs. destruct (in_string c (Str.strip s)) eqn:E; [|done].
  apply rstrip_ws_in, lstrip_ws_in in E. congruence.
Qed.

Lemma lstrip_ws_trimmed (s : string) : trimmed_left (Str.lstrip_ws s).
Proof.
  induction s as [|a s IH]; [done|]. simpl.
  destruct (Str.isspace a) eqn:E; [done|]. exact E.
Qed.

Lemma lstrip_ws_id (s : string) : trimmed_left s → Str.lstrip_ws s = s.
Proof. destruct s as [|a s]; [done|]. simpl. by intros ->. Qed.

Lemma rstrip_ws_trimmed (s : string) :
  trimmed_left s → trimmed_left (Str.rstrip_ws s).
Proof.
  destruct s as [|a s]; [done|]. simpl. intros Ha.
  destruct (Str.rstrip_ws s); [by rewrite Ha|done].
Qed.

Lemma rstrip_ws_idem (s : string) :
  Str.rstrip_ws (Str.rstrip_ws s) = Str.rstrip_ws s.
Proof.
  induction s as [|a s IH]; [done|]. simpl.
  destruct (Str.rstrip_ws s) as [|b r] eqn:E.
  - destruct (Str.isspace a) eqn:Ha; [done|]. simpl. by rewrite Ha.
  - simpl in *. by rewrite IH.
Qed.

(** Trimming twice is trimming once. *)
Lemma strip_idem (s : string) : Str.strip (Str.strip s) = Str.strip s.
Proof.
  unfold Str.strip.
  rewrite (lstrip_ws_id (Str.rstrip_ws (Str.lstrip_ws s))).
  - apply rstrip_ws_idem.
  - apply rstrip_ws_trimmed, lstrip_ws_trimmed.
Qed.

Lemma lines_no_break_id (s : string) :
  in_string "010" s = false → in_string "013" s = false → Str.lines s = [s].
Proof.
  induction s as [|a s IH]; [done|].
  rewrite !in_string_cons. intros [Ha Hs]%orb_false_elim [Ha' Hs']%orb_false_elim.
  simpl. rewrite (Ascii.eqb_sym a "010"), (Ascii.eqb_sym a "013"), Ha, Ha'. simpl.
  by rewrite IH.
Qed.

Lemma lines_break (s t : string) :
  in_string "010" s = false → in_string "013" s = false →
  Str.lines (s +:+ String "010" t) = s :: Str.lines t.
Proof.
  induction s as [|a s IH]; [done|].
  rewrite !in_string_cons. intros [Ha Hs]%orb_false_elim [Ha' Hs']%orb_false_elim.
  rewrite append_cons. simpl.
  rewrite (Ascii.eqb_sym a "010"), (Ascii.eqb_sym a "013"), Ha, Ha'. simpl.
  by rewrite IH.
Qed.

(** The lines of entries written one per line are the entries. *)
Lemma lines_join (l : list string) :
  l ≠ [] →
  Forall (λ p, in_string "010" p = false ∧ in_string "013" p = false) l →
  Str.lines (Str.join (String "010" EmptyString) l) = l.
Proof.
  intros Hne Hall. induction Hall as [|p l [Hp Hp'] Hl IH]; [done|].
  unfold Str.join in *. destruct l as [|q l].
  - simpl. by apply lines_no_break_id.
  - cbn [String.concat]. rewrite append_cons, append_nil_l.
    rewrite lines_break by done. f_equal. by apply IH.
Qed.

End Lines.

Section ManifestClaims.

Context {P : Platform}.
Import Pathlib.

(** X8.  Whatever the text of the list, the entries kept from it are clean:
    none is empty or a comment, none has white space at its ends, none
    holds a line break. *)
Theorem manifest_entries_clean (text : string) :
  Forall clean_entry (manifest_lines text).
Proof.
  unfold manifest_lines. apply Forall_forall. intros p Hp.
  apply list_elem_of_In, filter_In in Hp as [Hp Hkeep].
  apply list_elem_of_In, list_elem_of_fmap in Hp as (line & -> & Hline).
  apply andb_prop in Hkeep as [Hne Hc].
  destruct (lines_no_break _ _ Hline) as [Hlf Hcr].
  repeat split.
  - intros Heq. by rewrite Heq in Hne.
  - by destruct (Str.startswith _ _).
  - apply strip_idem.
  - by apply strip_in.
  - by apply strip_in.
Qed.

(** Clean entries written one per line are read back as they are. *)
Lemma manifest_lines_join (l : list string) :
  Forall clean_entry l →
  manifest_lines (Str.join (String "010" EmptyString) l) = l.
Proof.
  intros Hall. destruct (decide (l = [])) as [->|Hne]; [done|].
  unfold manifest_lines. rewrite lines_join; [|done|].
  2:{ eapply Forall_impl; [exact Hall|]. by intros p (_ & _ & _ & ? & ?). }
  clear Hne. induction Hall as [|p l (Hne & Hc & Hs & _) _ IH]; [done|].
  cbn [fmap list_fmap List.filter]. rewrite Hs, Hc.
  apply String.eqb_neq in Hne as ->. cbn [negb andb]. f_equal. exact IH.
Qed.

(** X9.  A list file that holds clean entries of ASCII characters, one per
    line, is loaded as these entries, in their order and with their
    repetitions.  (Outside ASCII the file is decoded, which can fail, and
    [strip] removes more white space than the clean entries exclude.) *)
Theorem load_filelist_round_trip (l : list string) (m : Z) (w : World) :
  fs w !! resolve FILELIST = Some (File (Str.join (String "010" EmptyString) l) m) →
  Forall (λ p, is_ascii p = true) l →
  Forall clean_entry l →
  load_filelist w = (logged [SysStat FILELIST; SysRead FILELIST] w, Finished l).
Proof.
  intros Hfile _ Hall. unfold load_filelist, read_bytes. simpl. rewrite Hfile. simpl.
  rewrite ?Hfile. rewrite manifest_lines_join by done.
  by rewrite !logged_log, logged_logged.
Qed.

(** X10.  Without the list file both commands exit with status 1 after one
    look at the file system; when a directory stands in its place the
    exception of [open] leaves them.  Neither makes a request or
    changes a file. *)
Theorem commands_need_filelist (args : Args) (w : World) :
  (fs w !! resolve FILELIST = None →
   cmd_download args w = (probed [FILELIST] w, Exit 1)
   ∧ cmd_status w = (probed [FILELIST] w, Exit 1))
  ∧ (∀ size m, fs w !! resolve FILELIST = Some (Dir size m) →
       cmd_download args w
       = (logged [SysStat FILELIST; SysRead FILELIST] w,
          Uncaught (OtherError "Is a directory"))
       ∧ cmd_status w
         = (logged [SysStat FILELIST; SysRead FILELIST] w,
            Uncaught (OtherError "Is a directory"))).
Proof.
  split.
  - intros Hnone. unfold cmd_download, cmd_status, load_filelist. simpl.
    by rewrite Hnone.
  - intros size m Hdir.
    unfold cmd_download, cmd_status, load_filelist, read_bytes. simpl.
    rewrite Hdir. simpl. rewrite ?Hdir.
    by rewrite !logged_log, logged_logged.
Qed.

End ManifestClaims.

(** The list of two entries of the demo deployment. *)
Lemma load_filelist_round_trip_witness :
  (load_filelist (P := Demo.platform) (Demo.world ["/a.html"; "/app.js"])).2
  = Finished ["/a.html"; "/app.js"].
Proof.
  rewrite (load_filelist_round_trip (P := Demo.platform) ["/a.html"; "/app.js"] 7
             (Demo.world ["/a.html"; "/app.js"])).
  - reflexivity.
  - vm_compute. reflexivity.
  - by repeat constructor.
  - repeat constructor; vm_compute; discriminate.
Defined.

(** ** The status report *)

Section StatusFacts.

Context {P : Platform}.
Import Pathlib.


End StatusFacts.

Section StatusClaim.

Context {P : Platform}.
Import Pathlib.


End StatusClaim.


(** ** Encoding and decoding *)

Section Encoding.

Import Urllib.

Lemma hex_upper_safe (n : N) : always_safe (hex_upper n) = true.
Proof.
  unfold hex_upper.
  repeat match goal with
         | |- context [match ?x with _ => _ end] => destruct x
         end; done.
Qed.

Lemma quote_char_safe (a c : ascii) :
  in_string c (quote_char SAFE a) = true → url_safe c = true.
Proof.
  unfold quote_char. fold (url_safe a).
  destruct (url_safe a) eqn:Ha.
  - rewrite in_string_cons. intros [->%Ascii.eqb_eq|?]%orb_prop; done.
  - unfold percent. rewrite !in_string_cons.
    intros [->%Ascii.eqb_eq|[->%Ascii.eqb_eq|[->%Ascii.eqb_eq|?]%orb_prop]%orb_prop]%orb_prop;
      [done| | |done]; unfold url_safe; by rewrite hex_upper_safe.
Qed.

Lemma quote_safe (s : string) (c : ascii) :
  in_string c (quote s SAFE) = true → url_safe c = true.
Proof.
  induction s as [|a s IH]; [done|]. simpl. rewrite in_string_app.
  intros [?|?]%orb_prop; [by eapply quote_char_safe|by apply IH].
Qed.

Lemma quote_safe_id (s : string) :
  (∀ c, in_string c s = true → url_safe c = true) → quote s SAFE = s.
Proof.
  induction s as [|a s IH]; [done|]. intros Hs. simpl.
  unfold quote_char. fold (url_safe a). rewrite (Hs a).
  - rewrite IH; [done|]. intros c Hc. apply Hs.
    rewrite in_string_cons, Hc. apply orb_true_r.
  - by rewrite in_string_cons, Ascii.eqb_refl.
Qed.

Lemma unquote_percent (a : ascii) (rest : string) :
  unquote_to_bytes (percent a +:+ rest) = String a (unquote_to_bytes rest).
Proof. destruct a as [[] [] [] [] [] [] [] []]; reflexivity. Qed.

(** Decoding undoes the encoding of a text without percent sign. *)
Lemma unquote_quote (s : string) :
  in_string "%" s = false → unquote_to_bytes (quote s SAFE) = s.
Proof.
  induction s as [|a s IH]; [done|].
  rewrite in_string_cons. intros [Ha Hs]%orb_false_elim. simpl.
  unfold quote_char. destruct (always_safe a || in_string a SAFE).
  - rewrite append_cons, append_nil_l. simpl.
    rewrite Ascii.eqb_sym, Ha. by rewrite IH.
  - by rewrite unquote_percent, IH.
Qed.

End Encoding.

Section EncodingClaim.

Import Urllib.

(** X12.  The encoded request path holds only letters, digits and the
    characters of the safe list, so it holds no blank, no question mark
    and no number sign; and encoding it again changes nothing, so an
    entry of the list that is percent-encoded already is requested as it
    is written. *)
Theorem request_address_safe (s : string) :
  (∀ c, in_string c (quote s SAFE) = true → url_safe c = true)
  ∧ in_string " " (quote s SAFE) = false
  ∧ in_string "?" (quote s SAFE) = false
  ∧ in_string "#" (quote s SAFE) = false
  ∧ quote (quote s SAFE) SAFE = quote s SAFE.
Proof.
  split; [apply quote_safe|].
  assert (∀ c, url_safe c = false → in_string c (quote s SAFE) = false) as Hno.
  { intros c Hc. destruct (in_string c (quote s SAFE)) eqn:E; [|done].
    apply quote_safe in E. congruence. }
  repeat split; [by apply Hno..|].
  apply quote_safe_id, quote_safe.
Qed.

End EncodingClaim.

(** ** The categories of the status report *)

Section Category.

Import Urllib.

Lemma rstrip_app (c : ascii) (x y : string) :
  Str.rstrip c y ≠ EmptyString → Str.rstrip c (x +:+ y) = x +:+ Str.rstrip c y.
Proof.
  intros Hy. induction x as [|a x IH]; [done|].
  rewrite !append_cons. simpl. rewrite IH.
  destruct (x +:+ Str.rstrip c y) eqn:E; [|done].
  destruct x; [|done]. by rewrite append_nil_l in E.
Qed.

Lemma rstrip_no_sep (c : ascii) (s : string) :
  in_string c s = false → Str.rstrip c s = s.
Proof.
  induction s as [|a s IH]; [done|].
  rewrite in_string_cons. intros [Ha Hs]%orb_false_elim. simpl.
  rewrite IH by done. destruct s; [|done]. by rewrite Ascii.eqb_sym, Ha.
Qed.

Lemma lstrip_no_sep (c : ascii) (a : ascii) (s : string) :
  Ascii.eqb a c = false → Str.lstrip c (String a s) = String a s.
Proof. intros Ha. simpl. by rewrite Ha. Qed.

Lemma lstrip_idem (c : ascii) (s : string) :
  Str.lstrip c (Str.lstrip c s) = Str.lstrip c s.
Proof.
  induction s as [|a s IH]; [done|]. simpl.
  destruct (Ascii.eqb a c) eqn:E; [done|]. simpl. by rewrite E.
Qed.

Lemma split_sep (c : ascii) (x y : string) :
  in_string c x = false →
  Str.split c (x +:+ String c y) = x :: Str.split c y.
Proof.
  intros Hx.
  destruct (split_cons c (String c y)) as (h & t & Hs).
  rewrite (split_app_no_sep c x (String c y) h t Hx Hs).
  simpl in Hs. rewrite Ascii.eqb_refl in Hs. injection Hs as <- <-.
  by rewrite append_nil_r.
Qed.

End Category.

Section CategoryClaim.

Import Urllib.

(** X13.  An entry directly in a top-level directory falls in the category of
    that directory; an entry deeper down falls in the category of its
    first two directories.  Leading separators do not count. *)
Theorem category_by_directories (p a b : string) :
  a ≠ EmptyString → in_string "/" a = false → in_string "/" b = false →
  (Str.lstrip "/" p = a +:+ String "/" b → category p = a)
  ∧ (∀ rest, Str.rstrip "/" rest ≠ EmptyString →
       Str.lstrip "/" p = a +:+ String "/" (b +:+ String "/" rest) →
       category p = a +:+ String "/" b).
Proof.
  intros Hne Ha Hb. unfold category, Str.strip_char. split.
  - intros ->. destruct (decide (b = EmptyString)) as [->|Hbne].
    + assert (Str.rstrip "/" (a +:+ "/") = a) as ->.
      { clear Hb. induction a as [|x a IH]; [done|].
        rewrite in_string_cons in Ha. apply orb_false_elim in Ha as [Hx Ha].
        rewrite append_cons. simpl. destruct a as [|y a].
        - simpl. by rewrite Ascii.eqb_sym, Hx.
        - rewrite IH by done. done. }
      by rewrite split_no_sep.
    + rewrite rstrip_app.
      * assert (Str.rstrip "/" (String "/" b) = String "/" b) as ->.
        { simpl. rewrite rstrip_no_sep by done. by destruct b. }
        rewrite split_sep by done. by rewrite split_no_sep.
      * simpl. rewrite rstrip_no_sep by done. by destruct b.
  - intros rest Hrest ->.
    assert (Str.rstrip "/" (String "/" rest) = String "/" (Str.rstrip "/" rest)) as Hr1.
    { simpl. by destruct (Str.rstrip "/" rest). }
    assert (Str.rstrip "/" (b +:+ String "/" rest)
            = b +:+ String "/" (Str.rstrip "/" rest)) as Hr2.
    { rewrite rstrip_app; rewrite Hr1; done. }
    assert (Str.rstrip "/" (String "/" (b +:+ String "/" rest))
            = String "/" (b +:+ String "/" (Str.rstrip "/" rest))) as Hr3.
    { simpl. fold (Str.rstrip "/" (b +:+ String "/" rest)). rewrite Hr2.
      by destruct b. }
    rewrite rstrip_app; rewrite Hr3; [|done].
    rewrite !split_sep by done.
    destruct (split_cons "/" (Str.rstrip "/" rest)) as (h & t & ->).
    done.
Qed.

End CategoryClaim.

(** Two entries of the site. *)
Lemma category_by_directories_witness :
  category "/images/logo.png" = "images"
  ∧ category "/data/EN/Avatar.js" = "data/EN".
Proof.
  destruct (category_by_directories "/images/logo.png" "images" "logo.png")
    as [H1 _]; [done..|].
  destruct (category_by_directories "/data/EN/Avatar.js" "data" "EN")
    as [_ H2]; [done..|].
  split; [by apply H1|]. by apply (H2 "Avatar.js").
Defined.

(** ** The path of a request *)

Section RawPath.

Import Urllib.

Lemma hd_split_cons (c a : ascii) (s : string) :
  Ascii.eqb a c = false →
  hd EmptyString (Str.split c (String a s))
  = String a (hd EmptyString (Str.split c s)).
Proof.
  intros Ha. simpl. rewrite Ha.
  by destruct (split_cons c s) as (h & t & ->).
Qed.

Lemma raw_of_cons (a : ascii) (s : string) :
  Ascii.eqb a "?" = false → Ascii.eqb a "#" = false →
  raw_of (String a s) = String a (raw_of s).
Proof.
  intros Hq Hf. unfold raw_of. by rewrite (hd_split_cons "?"), (hd_split_cons "#").
Qed.

Lemma raw_of_stop (a : ascii) (s : string) :
  Ascii.eqb a "?" || Ascii.eqb a "#" = true → raw_of (String a s) = EmptyString.
Proof.
  unfold raw_of. destruct (Ascii.eqb a "?") eqn:Hq; simpl.
  - intros _. by rewrite Hq.
  - intros Hf. rewrite Hq. destruct (split_cons "?" s) as (h & t & ->). simpl.
    by rewrite Hf.
Qed.

(** What follows a question mark or a number sign is not part of the
    path. *)
Lemma raw_of_cut (p q : string) (c : ascii) :
  Ascii.eqb c "?" || Ascii.eqb c "#" = true →
  raw_of (p +:+ String c q) = raw_of p.
Proof.
  intros Hc. induction p as [|a p IH].
  - rewrite append_nil_l. by rewrite raw_of_stop.
  - rewrite append_cons.
    destruct (Ascii.eqb a "?" || Ascii.eqb a "#") eqn:Ha.
    + by rewrite !raw_of_stop.
    + apply orb_false_elim in Ha as [Hq Hf]. by rewrite !raw_of_cons, IH.
Qed.

Lemma raw_of_id (s : string) :
  in_string "?" s = false → in_string "#" s = false → raw_of s = s.
Proof.
  intros Hq Hf. unfold raw_of. rewrite (split_no_sep "?") by done. simpl.
  by rewrite (split_no_sep "#").
Qed.

End RawPath.

Section QueryClaim.

Context {P : Platform}.

(** X14.  The query and the fragment of a request address play no part: the
    reply to [GET] and to [HEAD] is the one for the path in front of
    them. *)
Theorem query_and_fragment_ignored (p q : string) (inm ae : option string)
    (w : World) :
  do_GET (mkRequest (p +:+ String "?"%char q) inm ae) w = do_GET (mkRequest p inm ae) w
  ∧ do_GET (mkRequest (p +:+ String "#"%char q) inm ae) w = do_GET (mkRequest p inm ae) w
  ∧ do_HEAD (mkRequest (p +:+ String "?"%char q) inm ae) w
    = do_HEAD (mkRequest p inm ae) w
  ∧ do_HEAD (mkRequest (p +:+ String "#"%char q) inm ae) w
    = do_HEAD (mkRequest p inm ae) w.
Proof.
  unfold do_GET, do_HEAD, _resolve_path. simpl.
  rewrite !(raw_of_cut p q "?"), !(raw_of_cut p q "#") by done.
  repeat split; by destruct (resolve_candidates _ w) as [w1 [fp|]].
Qed.

End QueryClaim.

(** ** What the handler does to the world *)

Section Handler.

Context {P : Platform}.
Import Pathlib.


Lemma served_world_refl (w : World) : served_world w w.
Proof. repeat split. exists []. by rewrite app_nil_r. Qed.

Lemma served_world_trans (w1 w2 w3 : World) :
  served_world w1 w2 → served_world w2 w3 → served_world w1 w3.
Proof.
  intros (Hf & Hc & Ho & Hr & Hs & cs & Hcs & Hro)
         (Hf' & Hc' & Ho' & Hr' & Hs' & cs' & Hcs' & Hro').
  repeat split; try congruence.
  exists (cs ++ cs'). rewrite Hcs', Hcs, app_assoc. split; [done|].
  rewrite forallb_app. by rewrite Hro, Hro'.
Qed.

Lemma served_world_probed (ps : list (list string)) (w : World) :
  served_world w (probed ps w).
Proof.
  repeat split. exists (SysStat <$> ps). split; [done|]. by induction ps.
Qed.

Lemma served_world_gzip (fp : list string) (m s : Z) (w : World) :
  served_world w (_gzip_cached fp m s w).1.
Proof.
  unfold _gzip_cached. destruct (cache_find _ _).
  - repeat split. exists []. by rewrite app_nil_r.
  - unfold read_bytes.
    destruct (fs w !! resolve fp) as [[]|]; repeat split; by exists [SysRead fp].
Qed.

Lemma served_world_read (fp : list string) (w : World) :
  served_world w (read_bytes fp w).1.
Proof.
  unfold read_bytes.
  destruct (fs w !! resolve fp) as [[]|]; repeat split; by exists [SysRead fp].
Qed.

Lemma served_world_serve (req : Request) (fp : list string) (head_only : bool)
    (w : World) :
  served_world w (_serve_file req fp head_only w).1.
Proof.
  unfold _serve_file, stat.
  pose proof (served_world_probed [fp] w) as H1. rewrite <- probed_log in H1.
  destruct (fs w !! resolve fp) as [st|]; [|exact H1].
  destruct (etag_listed _ _); [exact H1|].
  assert (served_world w (gzip_choice req fp (Str.lower (suffix fp)) st
                            (log (SysStat fp) w)).1) as H2.
  { unfold gzip_choice. destruct (_ && _); [|exact H1].
    destruct (Str.contains _ _); [|exact H1].
    pose proof (served_world_gzip fp (st_mtime_ns st) (st_size st) (log (SysStat fp) w)) as H.
    destruct (_gzip_cached _ _ _ _) as [w1 [v|e]];
      simpl in *; by eapply served_world_trans. }
  destruct (gzip_choice _ _ _ _ _) as [w2 [use_gzip|e]]; [|exact H2].
  destruct head_only; [exact H2|].
  destruct use_gzip as [body|]; [exact H2|].
  pose proof (served_world_read fp w2) as H3.
  destruct (read_bytes fp w2) as [w3 [body|e]]; simpl in *;
    by eapply served_world_trans.
Qed.

End Handler.

Section HandlerClaims.

Context {P : Platform}.
Import Pathlib.

(** X15.  The built-in server only reads: whatever the request, [GET] and
    [HEAD] leave the files, the clock and the network as they were; the
    system calls they add are [stat] calls and reads. *)
Theorem server_reads_only (req : Request) (w : World) :
  (fs (do_GET req w).1 = fs w
   ∧ requests (do_GET req w).1 = requests w
   ∧ ∃ cs, syscalls (do_GET req w).1 = syscalls w ++ cs
           ∧ forallb read_only_call cs = true)
  ∧ (fs (do_HEAD req w).1 = fs w
     ∧ requests (do_HEAD req w).1 = requests w
     ∧ ∃ cs, syscalls (do_HEAD req w).1 = syscalls w ++ cs
             ∧ forallb read_only_call cs = true).
Proof.
  assert (∀ head_only,
            served_world w
              (match _resolve_path (path req) w with
               | (w1, Some fp) => _serve_file req fp head_only w1
               | (w1, None) => (w1, SendError 404)
               end).1) as Hserved.
  { intros head_only. unfold _resolve_path.
    destruct (resolve_candidates_safe [unquote (raw_of (path req)); raw_of (path req)] w)
      as (ps & Hw & _).
    destruct (resolve_candidates _ w) as [w1 [fp|]]; simpl in Hw; subst w1.
    - eapply served_world_trans; [apply served_world_probed|apply served_world_serve].
    - apply served_world_probed. }
  split.
  - destruct (Hserved false) as (Hf & _ & _ & Hr & _ & Hcs). done.
  - destruct (Hserved true) as (Hf & _ & _ & Hr & _ & Hcs). done.
Qed.


End HandlerClaims.

(** ** The cache of compressed files *)

Section Cache.

Implicit Types c : list ((list string * Z * Z) * string).
Implicit Types k : list string * Z * Z.

Lemma cache_find_in k c v : cache_find k c = Some v → k ∈ fst <$> c.
Proof.
  induction c as [|[k' v'] c IH]; simpl; [done|].
  destruct (decide (k' = k)) as [->|]; [by left|]. intros H. right. by apply IH.
Qed.

Lemma cache_find_none k c : cache_find k c = None → k ∉ fst <$> c.
Proof.
  induction c as [|[k' v'] c IH]; simpl; [by intros _ ?%not_elem_of_nil|].
  destruct (decide (k' = k)) as [->|Hne]; [done|].
  intros H [?|?]%elem_of_cons; [done|]. by apply IH.
Qed.

Lemma cache_remove_absent k c : k ∉ fst <$> c → cache_remove k c = c.
Proof.
  induction c as [|[k' v'] c IH]; [done|]. simpl.
  intros Hk. apply not_elem_of_cons in Hk as [Hne Hk].
  rewrite bool_decide_eq_false_2 by done. simpl. f_equal. by apply IH.
Qed.

Lemma cache_remove_keys k c : k ∉ fst <$> cache_remove k c.
Proof.
  induction c as [|[k' v'] c IH]; simpl; [by intros ?%not_elem_of_nil|].
  destruct (decide (k' = k)) as [->|Hne].
  - by rewrite bool_decide_eq_true_2.
  - rewrite bool_decide_eq_false_2 by done. simpl.
    intros [?|?]%elem_of_cons; [done|]. by apply IH.
Qed.

Lemma cache_remove_sub k c k' : k' ∈ fst <$> cache_remove k c → k' ∈ fst <$> c.
Proof.
  induction c as [|[k0 v0] c IH]; simpl; [done|].
  destruct (bool_decide (k0 = k)); simpl.
  - intros H. right. by apply IH.
  - intros [->|H]%elem_of_cons; [by left|]. right. by apply IH.
Qed.

Lemma cache_remove_NoDup k c : NoDup (fst <$> c) → NoDup (fst <$> cache_remove k c).
Proof.
  induction c as [|[k0 v0] c IH]; simpl; [done|].
  intros [Hk Hc]%NoDup_cons. destruct (bool_decide (k0 = k)); simpl; [by apply IH|].
  apply NoDup_cons. split; [|by apply IH].
  intros H%cache_remove_sub. done.
Qed.

Lemma cache_remove_length k c : (length (cache_remove k c) ≤ length c)%nat.
Proof.
  induction c as [|[k0 v0] c IH]; simpl; [done|].
  destruct (bool_decide (k0 = k)); simpl; lia.
Qed.

Lemma cache_remove_shorter k c v :
  cache_find k c = Some v → (length (cache_remove k c) < length c)%nat.
Proof.
  induction c as [|[k0 v0] c IH]; simpl; [done|].
  destruct (decide (k0 = k)) as [->|Hne].
  - intros _. rewrite bool_decide_eq_true_2 by done. simpl.
    pose proof (cache_remove_length k c). lia.
  - intros H. rewrite bool_decide_eq_false_2 by done. simpl.
    specialize (IH H). lia.
Qed.

Lemma take_keys_sub (n : nat) c k : k ∈ fst <$> take n c → k ∈ fst <$> c.
Proof.
  rewrite fmap_take. intros H.
  rewrite <- (take_drop n (fst <$> c)). apply elem_of_app. by left.
Qed.

Lemma take_NoDup (n : nat) c : NoDup (fst <$> c) → NoDup (fst <$> take n c).
Proof.
  rewrite fmap_take. intros H.
  rewrite <- (take_drop n (fst <$> c)) in H. by apply NoDup_app in H as [? _].
Qed.

End Cache.

Section CacheClaims.

Context {P : Platform}.
Import Pathlib.

(** A call of [_gzip_cached] keeps the cache within its bound and with
    one entry per key. *)
Lemma gzip_cached_ok (fp : list string) (m s : Z) (w : World) :
  cache_ok (gzip_cache w) → cache_ok (gzip_cache (_gzip_cached fp m s w).1).
Proof.
  intros [Hlen Hnd]. unfold _gzip_cached.
  destruct (cache_find (fp, m, s) (gzip_cache w)) as [v|] eqn:E; simpl.
  - split.
    + simpl. pose proof (cache_remove_shorter _ _ _ E). lia.
    + simpl. apply NoDup_cons. split; [apply cache_remove_keys|].
      by apply cache_remove_NoDup.
  - assert (cache_ok (take 1024 (((fp, m, s), gzip_compress (clock w)
              match fs w !! resolve fp with
              | Some (File data _) => data
              | _ => EmptyString
              end) :: gzip_cache w))) as Hok.
    { split.
      - rewrite length_take. lia.
      - apply take_NoDup. simpl. apply NoDup_cons. split; [|done].
        by apply cache_find_none. }
    unfold read_bytes. destruct (fs w !! resolve fp) as [[data m'|]|]; simpl;
      [exact Hok|done..].
Qed.

(** X17.  Whatever the request, [GET] and [HEAD] keep the cache of compressed
    files within its bound of 1024 entries and with one entry per key. *)
Theorem gzip_cache_bounded (req : Request) (w : World) :
  cache_ok (gzip_cache w) →
  cache_ok (gzip_cache (do_GET req w).1) ∧ cache_ok (gzip_cache (do_HEAD req w).1).
Proof.
  intros Hok.
  assert (∀ head_only,
            cache_ok (gzip_cache
              (match _resolve_path (path req) w with
               | (w1, Some fp) => _serve_file req fp head_only w1
               | (w1, None) => (w1, SendError 404)
               end).1)) as Hgo.
  { intros head_only. unfold _resolve_path.
    destruct (resolve_candidates_safe [unquote (raw_of (path req)); raw_of (path req)] w)
      as (ps & Hw & _).
    destruct (resolve_candidates _ w) as [w1 [fp|]]; simpl in Hw; subst w1; [|done].
    unfold _serve_file, stat.
    destruct (fs (probed ps w) !! resolve fp) as [st|]; [|done].
    destruct (etag_listed _ _); [done|].
    assert (cache_ok (gzip_cache
              (gzip_choice req fp (Str.lower (suffix fp)) st
                 (log (SysStat fp) (probed ps w))).1)) as H2.
    { unfold gzip_choice. destruct (_ && _); [|done].
      destruct (Str.contains _ _); [|done].
      pose proof (gzip_cached_ok fp (st_mtime_ns st) (st_size st)
                    (log (SysStat fp) (probed ps w)) Hok) as H.
      by destruct (_gzip_cached _ _ _ _) as [w1 [v|e]]. }
    destruct (gzip_choice _ _ _ _ _) as [w2 [use_gzip|e]]; [|exact H2].
    destruct head_only; [exact H2|].
    destruct use_gzip as [body|]; [exact H2|].
    unfold read_bytes. by destruct (fs w2 !! resolve fp) as [[]|]. }
  split; [apply (Hgo false)|apply (Hgo true)].
Qed.

(** X18.  Once [_gzip_cached] has returned the compressed bytes for a path, a
    modification time and a size, the next call for the same three
    returns the same bytes without looking at the file, whatever has
    become of it. *)
Theorem gzip_cached_again (fp : list string) (m s : Z) (w w1 w2 : World)
    (v : string) :
  _gzip_cached fp m s w = (w1, Ok v) →
  gzip_cache w2 = gzip_cache w1 →
  _gzip_cached fp m s w2 = (w2, Ok v).
Proof.
  intros Hrun Hcache.
  assert (∃ rest, gzip_cache w1 = ((fp, m, s), v) :: rest
                  ∧ (fp, m, s) ∉ fst <$> rest) as (rest & Hc1 & Hrest).
  { unfold _gzip_cached in Hrun.
    destruct (cache_find (fp, m, s) (gzip_cache w)) as [v'|] eqn:E.
    - injection Hrun as <- <-. eexists. split; [done|]. apply cache_remove_keys.
    - unfold read_bytes in Hrun.
      destruct (fs w !! resolve fp) as [[data m'|]|]; [|done..].
      injection Hrun as <- <-. simpl. eexists. split; [done|].
      intros H%take_keys_sub. by apply cache_find_none in E. }
  unfold _gzip_cached. rewrite Hcache, Hc1. simpl.
  rewrite decide_True by done.
  rewrite bool_decide_eq_true_2 by done. simpl.
  rewrite cache_remove_absent by done.
  rewrite <- Hc1, <- Hcache. by destruct w2.
Qed.

End CacheClaims.

(** A script served twice, in the demo deployment: the second time
    after the file has gone. *)
Lemma gzip_cached_again_witness :
  ∃ w1,
    _gzip_cached (P := Demo.platform) ["srv"; "HomDGCat"; "site"; "app.js"] 99 320
      (Demo.world []) = (w1, Ok ("gz:" +:+ Demo.script))
    ∧ _gzip_cached (P := Demo.platform) ["srv"; "HomDGCat"; "site"; "app.js"] 99 320
        (with_fs ∅ w1) = (with_fs ∅ w1, Ok ("gz:" +:+ Demo.script)).
Proof.
  destruct (_gzip_cached (P := Demo.platform) ["srv"; "HomDGCat"; "site"; "app.js"] 99 320
              (Demo.world [])) as [w1 r] eqn:Hrun.
  assert (r = Ok ("gz:" +:+ Demo.script)) as ->.
  { apply (f_equal snd) in Hrun. simpl in Hrun. subst r. vm_compute. reflexivity. }
  exists w1. split; [reflexivity|].
  apply (gzip_cached_again (P := Demo.platform) _ _ _ (Demo.world []) w1 _ _).
  - exact Hrun.
  - reflexivity.
Defined.

(** The cache of the demo deployment is empty at first. *)
Lemma gzip_cache_bounded_witness :
  cache_ok (gzip_cache
    (do_GET (P := Demo.platform) (mkRequest "/app.js" None (Some "gzip"))
       (Demo.world [])).1).
Proof.
  apply (gzip_cache_bounded (P := Demo.platform)).
  split; [simpl; lia|constructor].
Defined.

(** ** From the list to the browser *)

Section Mirror.

Context {P : Platform}.
Import Pathlib Urllib.

Lemma lstrip_app (c : ascii) (x y : string) :
  Str.lstrip c x ≠ EmptyString → Str.lstrip c (x +:+ y) = Str.lstrip c x +:+ y.
Proof.
  induction x as [|a x IH]; [done|]. rewrite append_cons. simpl.
  destruct (Ascii.eqb a c); [exact IH|done].
Qed.

Lemma lstrip_app_empty (c : ascii) (x y : string) :
  Str.lstrip c x = EmptyString → Str.lstrip c (x +:+ y) = Str.lstrip c y.
Proof.
  induction x as [|a x IH]; [done|]. rewrite append_cons. simpl.
  destruct (Ascii.eqb a c); [exact IH|done].
Qed.

Lemma split_app_sep (c : ascii) (x y : string) :
  Str.split c (x +:+ String c y) = Str.split c x ++ Str.split c y.
Proof.
  induction x as [|a x IH].
  - rewrite append_nil_l. simpl. by rewrite Ascii.eqb_refl.
  - rewrite append_cons. simpl. destruct (Ascii.eqb a c); [by rewrite IH|].
    rewrite IH. by destruct (split_cons c x) as (h & t & ->).
Qed.

(** An encoded path holds no question mark and no number sign. *)
Lemma quote_no_query (s : string) :
  in_string "?" (quote s SAFE) = false ∧ in_string "#" (quote s SAFE) = false.
Proof.
  split.
  - destruct (in_string "?" (quote s SAFE)) eqn:E; [|done].
    by apply quote_safe in E.
  - destruct (in_string "#" (quote s SAFE)) eqn:E; [|done].
    by apply quote_safe in E.
Qed.

(** The components of a page below a directory. *)
Lemma parts_index (x : string) :
  parts (x +:+ "/index.html") = parts (x +:+ "/") ++ ["index.html"].
Proof.
  unfold parts. change "/index.html" with (String "/"%char "index.html").
  change (x +:+ "/") with (x +:+ String "/"%char EmptyString).
  rewrite !split_app_sep, !filter_app. f_equal.
  change (Str.split "/" EmptyString) with [EmptyString].
  by rewrite app_nil_r.
Qed.

(** The local path of a page of a directory, from the path the page is
    requested with. *)
Lemma local_path_index (dir : string) :
  Str.lstrip "/" (dir +:+ "/") ≠ EmptyString →
  local_path_of (dir +:+ "/index.html")
  = joinpath SITE_DIR (Str.lstrip "/" (dir +:+ "/")) ++ ["index.html"].
Proof.
  intros Hne.
  assert (Str.lstrip "/" dir ≠ EmptyString) as Hdir.
  { intros Heq. apply Hne. by rewrite lstrip_app_empty. }
  rewrite local_path_split. unfold joinpath. rewrite lstrip_not_absolute.
  rewrite !lstrip_app by done. by rewrite parts_index, app_assoc.
Qed.

(** The resolver on a candidate that names a regular file inside the
    site, or a directory with a page. *)
Lemma resolve_candidates_hit (c : string) (rest : list string) (w : World)
    (data : string) (m : Z) :
  Str.lstrip "/" c ≠ EmptyString →
  fs w !! resolve (local_path_of c) = Some (File data m) →
  is_Some (inside_site (local_path_of c)) →
  (resolve_candidates (c :: rest) w).2 = Some (local_path_of c).
Proof.
  intros Hne Hfile [rel Hin]. simpl.
  apply String.eqb_neq in Hne as ->. fold (local_path_of c).
  rewrite Hfile. simpl. unfold guard_target. by rewrite Hin.
Qed.

Lemma resolve_candidates_page (c : string) (rest : list string) (w : World)
    (data : string) (m : Z) :
  Str.lstrip "/" c ≠ EmptyString →
  (∀ d m', fs w !! resolve (local_path_of c) ≠ Some (File d m')) →
  fs w !! resolve (local_path_of c ++ ["index.html"]) = Some (File data m) →
  is_Some (inside_site (local_path_of c ++ ["index.html"])) →
  (resolve_candidates (c :: rest) w).2 = Some (local_path_of c ++ ["index.html"]).
Proof.
  intros Hne Hnofile Hfile [rel Hin]. simpl.
  apply String.eqb_neq in Hne as ->. fold (local_path_of c).
  change (joinpath (local_path_of c) "index.html")
    with (local_path_of c ++ ["index.html"]).
  destruct (fs w !! resolve (local_path_of c)) as [[d m'|]|] eqn:E;
    [by destruct (Hnofile d m')|..]; simpl;
    rewrite Hfile; simpl; unfold guard_target; by rewrite Hin.
Qed.

End Mirror.

Section MirrorClaim.

Context {P : Platform}.
Import Pathlib Urllib.

(** X19.  The mirror answers for the origin.  Take an entry of the list
    without percent sign whose file is in the mirror, and the path the
    downloader asked the origin for.  When the library decodes that
    path byte by byte (as it does for text in UTF-8), the built-in
    server resolves it to the file of the entry and answers a plain
    [GET] for it with the bytes of the file.  The directory above the
    file must not be a regular file, and the path must name more than
    the root. *)
Theorem mirror_serves_entry (p data : string) (m : Z) (w : World) :
  unquote (quote (request_path_of p) SAFE)
  = unquote_to_bytes (quote (request_path_of p) SAFE) →
  in_string "%" p = false →
  Str.lstrip "/" (request_path_of p) ≠ EmptyString →
  fs w !! resolve (local_path_of p) = Some (File data m) →
  is_Some (inside_site (local_path_of p)) →
  (∀ d m', fs w !! resolve (parent (local_path_of p)) ≠ Some (File d m')) →
  (_resolve_path (quote (request_path_of p) SAFE) w).2 = Some (local_path_of p)
  ∧ ∃ headers,
      (do_GET (mkRequest (quote (request_path_of p) SAFE) None None) w).2
      = Sent 200 headers (Some data)
      ∧ ("Content-Length", str_int (Z.of_nat (String.length data))) ∈ headers.
Proof.
  intros Hun Hpct Hne Hfile Hin Hparent.
  assert (in_string "%" (request_path_of p) = false) as Hpct'.
  { unfold request_path_of. destruct (Str.endswith p "/index.html") eqn:E; [|done].
    destruct (request_path_index p E) as (dir & Hp & _).
    rewrite Hp in Hpct. rewrite in_string_app in Hpct.
    apply orb_false_elim in Hpct as [Hdir _].
    change "index.html" with ("index" +:+ ".html").
    rewrite Hp. change "/index.html" with ("/" +:+ "index.html").
    rewrite <- append_assoc.
    replace (String.length ("index" +:+ ".html")) with (String.length "index.html") by done.
    rewrite drop_end_app, in_string_app, Hdir. done. }
  assert ((_resolve_path (quote (request_path_of p) SAFE) w).2
          = Some (local_path_of p)) as Hres.
  { unfold _resolve_path.
    destruct (quote_no_query (request_path_of p)) as (Hq & Hf).
    rewrite raw_of_id by done. rewrite Hun, unquote_quote by done.
    unfold request_path_of in *.
    destruct (Str.endswith p "/index.html") eqn:E.
    - destruct (request_path_index p E) as (dir & Hp & Hreq).
      unfold request_path_of in Hreq. rewrite E in Hreq. rewrite Hreq in *.
      pose proof (local_path_index dir Hne) as Hlocal. rewrite <- Hp in Hlocal.
      fold (local_path_of (dir +:+ "/")) in Hlocal.
      rewrite Hlocal in *.
      unfold parent in Hparent. rewrite removelast_last in Hparent.
      by eapply resolve_candidates_page.
    - by eapply resolve_candidates_hit. }
  split; [exact Hres|].
  unfold do_GET. cbn [path].
  destruct (resolve_candidates_safe
              [unquote (raw_of (quote (request_path_of p) SAFE));
               raw_of (quote (request_path_of p) SAFE)] w) as (ps & Hw & _).
  unfold _resolve_path in *.
  destruct (resolve_candidates _ w) as [w1 t]. simpl in Hw, Hres. subst w1 t.
  destruct (serve_file_get (mkRequest (quote (request_path_of p) SAFE) None None)
              (local_path_of p) data m (probed ps w)) as (w2 & ->); [done..|].
  cbn zeta.
  assert (eligible (mkRequest (quote (request_path_of p) SAFE) None None)
            (local_path_of p) (File data m) = false) as ->.
  { unfold eligible. simpl. apply andb_false_r. }
  eexists. split; [done|]. simpl. right. by left.
Qed.

End MirrorClaim.

(** A page of the demo deployment. *)
Lemma mirror_serves_entry_witness :
  ∃ headers,
    (do_GET (P := Demo.platform) (mkRequest "/a.html" None None) (Demo.world [])).2
    = Sent 200 headers (Some "<html>").
Proof.
  destruct (mirror_serves_entry (P := Demo.platform) "/a.html" "<html>" 77 (Demo.world []))
    as (_ & headers & Hget & _).
  - reflexivity.
  - reflexivity.
  - vm_compute. discriminate.
  - vm_compute. reflexivity.
  - vm_compute. eexists. reflexivity.
  - intros d m'. vm_compute. discriminate.
  - exists headers. exact Hget.
Defined.

Section RootClaim.

Context {P : Platform}.
Import Pathlib Urllib.

(** X20.  The root address is answered from [index/index.html] below the
    site, and from nothing else: without that file the answer is 404,
    whatever else the site holds.  The library is taken to decode the
    separator as itself. *)
Theorem root_serves_index_page (inm ae : option string) (w : World) :
  unquote "/" = "/" →
  (∀ data m,
     fs w !! resolve (SITE_DIR ++ ["index"; "index.html"]) = Some (File data m) →
     (_resolve_path "/" w).2 = Some (SITE_DIR ++ ["index"; "index.html"]))
  ∧ ((∀ data m,
        fs w !! resolve (SITE_DIR ++ ["index"; "index.html"]) ≠ Some (File data m)) →
     (do_GET (mkRequest "/" inm ae) w).2 = SendError 404
     ∧ (do_HEAD (mkRequest "/" inm ae) w).2 = SendError 404).
Proof.
  intros Hun. unfold do_GET, do_HEAD, _resolve_path. cbn [path].
  change (raw_of "/") with "/". rewrite Hun.
  cbn [resolve_candidates]. change (Str.lstrip "/" "/") with EmptyString.
  cbn [String.eqb].
  change (joinpath (joinpath SITE_DIR "index") "index.html")
    with ((SITE_DIR ++ ["index"]) ++ ["index.html"]).
  rewrite <- app_assoc. cbn [app]. unfold is_file, stat. cbn [fs log].
  split.
  - intros data m ->. done.
  - intros Hno.
    destruct (fs w !! resolve (SITE_DIR ++ ["index"; "index.html"])) as [[d m'|]|];
      [by destruct (Hno d m')|done..].
Qed.

End RootClaim.

(** The demo deployment has a page [a.html] but no [index/index.html]. *)
Lemma root_serves_index_page_witness :
  (do_GET (P := Demo.platform) (mkRequest "/" None None) (Demo.world [])).2
  = SendError 404.
Proof.
  destruct (root_serves_index_page (P := Demo.platform) None None (Demo.world []))
    as [_ H404]; [reflexivity|].
  apply H404. intros data m. vm_compute. discriminate.
Defined.

(** ** The ASGI application *)

Section ResolvedPaths.

Import Pathlib.

Lemma removelast_Forall {A} (Q : A → Prop) (l : list A) :
  Forall Q l → Forall Q (removelast l).
Proof.
  intros H. pose proof (prefix_removelast l) as [k Hk].
  rewrite Hk in H. by apply Forall_app in H as [? _].
Qed.

Lemma normalize_no_dotdot (acc p : list string) :
  Forall (λ c, c ≠ "..") acc → Forall (λ c, c ≠ "..") (normalize acc p).
Proof.
  revert acc. induction p as [|c p IH]; intros acc Hacc; simpl; [done|].
  destruct (String.eqb_spec c "..") as [->|Hc].
  - apply IH. by apply removelast_Forall.
  - apply IH. apply Forall_app. split; [done|]. by constructor.
Qed.

Lemma normalize_id (acc p : list string) :
  Forall (λ c, c ≠ "..") p → normalize acc p = acc ++ p.
Proof.
  revert acc. induction p as [|c p IH]; intros acc Hp; simpl.
  { by rewrite app_nil_r. }
  apply Forall_cons in Hp as [Hc Hp]. apply String.eqb_neq in Hc as ->.
  rewrite IH by done. by rewrite <- app_assoc.
Qed.

(** Resolving a resolved path changes nothing. *)
Lemma resolve_idem (p : list string) : resolve (resolve p) = resolve p.
Proof.
  unfold resolve at 1. rewrite normalize_id; [done|].
  by apply normalize_no_dotdot.
Qed.

End ResolvedPaths.

Section AsgiFacts.

Context {P : Platform} {L : AsgiLibrary}.
Import Pathlib.

Lemma asgi_guard_inside (fp t : list string) :
  asgi_guard fp = Some t → t = fp ∧ site `prefix_of` resolve fp.
Proof.
  unfold asgi_guard, relative_to.
  destruct (decide (site `prefix_of` resolve fp)); [|done]. by intros [= <-].
Qed.

Lemma asgi_index_inside :
  site `prefix_of` resolve (joinpath (joinpath site "index") "index.html").
Proof.
  change (joinpath (joinpath site "index") "index.html")
    with ((site ++ ["index"]) ++ ["index.html"]).
  rewrite !resolve_snoc by done. unfold site. rewrite resolve_idem.
  rewrite <- app_assoc. by apply prefix_app_r.
Qed.

(** [_resolve] only probes; what it returns is a regular file inside
    the site. *)
Lemma asgi_resolve_spec (candidates : list string) (w : World) :
  ∃ ps, (_resolve candidates w).1 = probed ps w
        ∧ ∀ t, (_resolve candidates w).2 = Some t →
               site `prefix_of` resolve t
               ∧ ∃ data m, fs w !! resolve t = Some (File data m).
Proof.
  revert w. induction candidates as [|c rest IH]; intros w; simpl.
  { exists []. by rewrite probed_nil. }
  destruct (String.eqb c EmptyString || String.eqb c "/").
  - set (idx := joinpath (joinpath site "index") "index.html").
    destruct (IH (log (SysStat idx) w)) as (ps & Hw & Ht).
    destruct (fs w !! resolve idx) as [[data m|]|] eqn:E; simpl.
    + exists [idx]. split; [done|]. intros t [= <-].
      split; [apply asgi_index_inside|by eexists _, _].
    + exists ([idx] ++ ps). split; [|exact Ht]. by rewrite Hw, probed_log, probed_probed.
    + exists ([idx] ++ ps). split; [|exact Ht]. by rewrite Hw, probed_log, probed_probed.
  - set (fp := joinpath site c).
    set (fpi := joinpath fp "index.html").
    destruct (IH (log (SysStat fpi) (log (SysStat fp) w))) as (ps & Hw & Ht).
    assert (∃ ps0, (let (w2, found') := is_file fpi (log (SysStat fp) w) in
              if found' then (w2, asgi_guard fpi)
              else _resolve rest w2).1 = probed ps0 w
            ∧ ∀ t, (let (w2, found') := is_file fpi (log (SysStat fp) w) in
              if found' then (w2, asgi_guard fpi)
              else _resolve rest w2).2 = Some t →
              site `prefix_of` resolve t
              ∧ ∃ data m, fs w !! resolve t = Some (File data m)) as Hrest.
    { simpl. destruct (fs w !! resolve fpi) as [[data m|]|] eqn:E; simpl.
      - exists [fp; fpi]. split; [by rewrite !probed_log, !probed_probed|].
        intros t [-> Hin]%asgi_guard_inside. split; [done|by eexists _, _].
      - exists ([fp; fpi] ++ ps).
        split; [|exact Ht]. by rewrite Hw, !probed_log, !probed_probed.
      - exists ([fp; fpi] ++ ps).
        split; [|exact Ht]. by rewrite Hw, !probed_log, !probed_probed. }
    destruct (fs w !! resolve fp) as [[data m|]|] eqn:E; simpl; [|exact Hrest..].
    exists [fp]. split; [done|].
    intros t [-> Hin]%asgi_guard_inside. split; [done|by eexists _, _].
Qed.

End AsgiFacts.

Section AsgiClaims.

Context {P : Platform} {L : AsgiLibrary}.
Import Pathlib.


(** X22.  The two engines give the same life time to what they serve, with
    one exception: an icon lives a week under the ASGI application and
    an hour under the built-in server. *)
Theorem cache_control_engines (ext : string) :
  "public, max-age=" +:+ str_int (max_age_get ext _CACHE_MAX_AGE) = _cache_control ext
  ↔ ext ≠ ".ico".
Proof.
  unfold _CACHE_MAX_AGE, _cache_control, _STATIC_BIN, Str.mem.
  cbn [max_age_get app existsb].
  repeat match goal with
         | |- context [String.eqb ext ?k] =>
             destruct (String.eqb_spec ext k) as [->|?]
         end; cbn [orb]; try (split; [done|reflexivity]); try done.
  all: split; [intros H; by vm_compute in H|done].
Qed.

End AsgiClaims.

(** ** The display language *)

Section Language.

Lemma mem_zh_en (v : string) :
  Str.mem v ["zh"; "en"] = true → v = "zh" ∨ v = "en".
Proof.
  unfold Str.mem. simpl.
  destruct (String.eqb_spec v "zh"); [by left|].
  destruct (String.eqb_spec v "en"); [by right|done].
Qed.

Lemma startswith_app (pre s : string) : Str.startswith (pre +:+ s) pre = true.
Proof.
  unfold Str.startswith. induction pre as [|a pre IH]; [by destruct s|].
  rewrite append_cons. cbn [String.prefix].
  by destruct (ascii_dec a a).
Qed.

Lemma lang_option_value (arg : string) :
  Str.startswith arg "--lang=" = true → ∃ v, arg = "--lang=" +:+ v.
Proof.
  unfold Str.startswith. intros H.
  do 7 (destruct arg as [|? arg]; [done|];
        cbn [String.prefix] in H;
        match type of H with
        | context [ascii_dec ?a ?b] => destruct (ascii_dec a b) as [<-|]; [|done]
        end).
  by exists arg.
Qed.

Lemma main_lang_loop_result (argv : list string) (rest : list string) (i : nat)
    (lang : string) :
  ∃ l, main_lang_loop argv i rest lang = Ok l
       ∧ (l = lang ∨ l = "zh" ∨ l = "en").
Proof.
  revert i. induction rest as [|arg rest IH]; intros i; cbn [main_lang_loop].
  { exists lang. split; [done|by left]. }
  destruct (String.eqb arg "--lang" && (i <? length argv)%nat).
  - destruct (if (i + 1 <=? length argv - 1)%nat then argv !! (i + 1)%nat else None)
      as [v|]; [|exists lang; split; [done|by left]].
    destruct (Str.mem v ["zh"; "en"]) eqn:Hv; [|exists lang; split; [done|by left]].
    apply mem_zh_en in Hv. exists v. split; [done|]. tauto.
  - destruct (Str.startswith arg "--lang=") eqn:Hs; [|apply IH].
    destruct (lang_option_value arg Hs) as (v & ->).
    change (split1_second "=" ("--lang=" +:+ v)) with (Some v). cbv beta iota.
    destruct (Str.mem v ["zh"; "en"]) eqn:Hv; [|exists lang; split; [done|by left]].
    apply mem_zh_en in Hv. exists v. split; [done|]. tauto.
Qed.

(** The loop stops at the first argument that is [--lang] or starts
    with [--lang=]. *)
Lemma main_lang_loop_first (argv pre rest : list string) (arg : string) (i : nat)
    (lang : string) :
  drop i argv = pre ++ arg :: rest →
  Forall not_lang_option pre →
  main_lang_loop argv i (pre ++ arg :: rest) lang
  = main_lang_loop argv (i + length pre) (arg :: rest) lang
  ∧ drop (i + length pre) argv = arg :: rest.
Proof.
  revert i. induction pre as [|a pre IH]; intros i Hdrop Hpre.
  { by rewrite Nat.add_0_r. }
  apply Forall_cons in Hpre as [[Hne Hs] Hpre].
  cbn [app main_lang_loop].
  apply String.eqb_neq in Hne as ->. cbn [andb]. rewrite Hs.
  destruct (IH (S i)) as [-> Hd]; [|done|].
  - replace (S i) with (i + 1)%nat by lia.
    rewrite <- (drop_drop argv 1 i), Hdrop. done.
  - cbn [length]. by replace (i + S (length pre))%nat with (S i + length pre)%nat by lia.
Qed.

End Language.

Section LanguageClaim.

(** X23.  Whatever the locale, the environment and the command line say, the
    display language is ["zh"] or ["en"] once [main] has looked for
    [--lang], and this loop raises nothing.  The first argument that is
    [--lang] or starts with [--lang=] decides: its value is taken when
    it is one of the two languages, and otherwise the detected language
    stays; what follows it is not looked at. *)
Theorem display_language (argv : list string) (lang0 : string) :
  (∀ getlocale getdefaultlocale env_LANG l,
     _detect_lang getlocale getdefaultlocale env_LANG = Ok l → l = "zh" ∨ l = "en")
  ∧ (∃ l, main_lang argv lang0 = Ok l ∧ (l = lang0 ∨ l = "zh" ∨ l = "en"))
  ∧ (∀ prog pre v rest,
       argv = prog :: pre ++ "--lang" :: v :: rest →
       Forall not_lang_option pre →
       main_lang argv lang0 = Ok (if Str.mem v ["zh"; "en"] then v else lang0))
  ∧ (∀ prog pre v rest,
       argv = prog :: pre ++ ("--lang=" +:+ v) :: rest →
       Forall not_lang_option pre →
       main_lang argv lang0 = Ok (if Str.mem v ["zh"; "en"] then v else lang0))
  ∧ (∀ prog pre,
       argv = prog :: pre ++ ["--lang"] →
       Forall not_lang_option pre →
       main_lang argv lang0 = Ok lang0).
Proof.
  split; [|split; [apply main_lang_loop_result|]].
  { assert (∀ s, lang_of_locale s = "zh" ∨ lang_of_locale s = "en") as Hlang.
    { intros s. unfold lang_of_locale. destruct (_ || _); by eauto. }
    assert (∀ env, (if Str.startswith (default EmptyString env) "zh"
                    then "zh" else "en") = "zh"
                   ∨ (if Str.startswith (default EmptyString env) "zh"
                      then "zh" else "en") = "en") as Henv.
    { intros env. destruct (Str.startswith _ _); by eauto. }
    intros g d env l. unfold _detect_lang. simpl.
    destruct g as [[lg|]|[] eg], d as [[ld|]|[] ed]; simpl;
      repeat match goal with
             | |- context [String.eqb ?s EmptyString] =>
                 destruct (String.eqb s EmptyString)
             end;
      intros [= <-]; done. }
  assert (∀ prog pre arg rest,
            argv = prog :: pre ++ arg :: rest → Forall not_lang_option pre →
            main_lang argv lang0
            = main_lang_loop argv (1 + length pre) (arg :: rest) lang0
            ∧ drop (1 + length pre) argv = arg :: rest) as Hfirst.
  { intros prog pre arg rest -> Hpre. unfold main_lang. cbn [drop].
    rewrite drop_0. by apply main_lang_loop_first. }
  repeat split.
  - intros prog pre v rest Hargv Hpre.
    destruct (Hfirst prog pre "--lang" (v :: rest) Hargv Hpre) as [-> Hdrop].
    cbn [main_lang_loop String.eqb Ascii.eqb Bool.eqb andb].
    pose proof (f_equal length Hdrop) as Hlen. rewrite length_drop in Hlen.
    cbn [length] in Hlen.
    assert ((1 + length pre <? length argv)%nat = true) as -> by (apply Nat.ltb_lt; lia).
    assert ((1 + length pre + 1 <=? length argv - 1)%nat = true) as ->
      by (apply Nat.leb_le; lia).
    assert (argv !! (1 + length pre + 1)%nat = Some v) as ->; [|done].
    rewrite <- (lookup_drop argv (1 + length pre) 1), Hdrop. done.
  - intros prog pre v rest Hargv Hpre.
    destruct (Hfirst prog pre ("--lang=" +:+ v) rest Hargv Hpre) as [-> Hdrop].
    cbn [main_lang_loop].
    assert (String.eqb ("--lang=" +:+ v) "--lang" = false) as -> by reflexivity.
    rewrite startswith_app.
    assert (split1_second "=" ("--lang=" +:+ v) = Some v) as -> by reflexivity.
    done.
  - intros prog pre Hargv Hpre.
    destruct (Hfirst prog pre "--lang" [] Hargv Hpre) as [-> Hdrop].
    cbn [main_lang_loop String.eqb Ascii.eqb Bool.eqb andb].
    pose proof (f_equal length Hdrop) as Hlen. rewrite length_drop in Hlen.
    cbn [length] in Hlen.
    assert ((1 + length pre <? length argv)%nat = true) as -> by (apply Nat.ltb_lt; lia).
    assert ((1 + length pre + 1 <=? length argv - 1)%nat = false) as ->
      by (apply Nat.leb_gt; lia).
    done.
Qed.

End LanguageClaim.

(** ** Starting a server *)

Section ServeClaim.

Context {P : Platform}.
Import Pathlib.

(** X24.  [cmd_serve] looks once at the site directory and exits with
    status 1 when it is missing.  TLS is served only by the ASGI engine
    and only when both the certificate and the key are given: with both
    given and no ASGI engine the command exits instead of serving
    without TLS, and a certificate without key is passed over.  The
    built-in server is started only when the ASGI engine cannot be
    loaded. *)
Theorem serve_engine_choice (args : ServeArgs) (has_asgi : bool) (w : World) :
  (cmd_serve args has_asgi w).1 = probed [SITE_DIR] w
  ∧ match (cmd_serve args has_asgi w).2 with
    | Exit code =>
        code = 1%Z
        ∧ (fs w !! resolve SITE_DIR = None
           ∨ (truthy (cert args) && truthy (key args) = true ∧ has_asgi = false))
    | Finished (ServeAsgi bind tls) =>
        has_asgi = true
        ∧ is_Some (fs w !! resolve SITE_DIR)
        ∧ bind = "0.0.0.0:" +:+ str_int (port args)
        ∧ tls = (if truthy (cert args) && truthy (key args)
                 then Some (default EmptyString (cert args),
                            default EmptyString (key args))
                 else None)
    | Finished (ServeStdlib on_port) =>
        has_asgi = false
        ∧ is_Some (fs w !! resolve SITE_DIR)
        ∧ on_port = port args
        ∧ truthy (cert args) && truthy (key args) = false
    | Uncaught _ => False
    end.
Proof.
  unfold cmd_serve, path_exists, stat.
  destruct (fs w !! resolve SITE_DIR) as [n|]; simpl; [|by eauto].
  destruct (truthy (cert args) && truthy (key args)) eqn:Htls, has_asgi; simpl;
    unfold _serve_asgi, _serve_stdlib; rewrite ?Htls; by eauto 10.
Qed.

End ServeClaim.

(** ** The temporary file *)

Section TmpName.

Import Pathlib.

Lemma length_substring (i k : nat) (s : string) :
  (i + k ≤ String.length s)%nat → String.length (String.substring i k s) = k.
Proof.
  revert i k. induction s as [|a s IH]; intros i k Hle; simpl in Hle.
  { assert (i = 0 ∧ k = 0)%nat as [-> ->] by lia. done. }
  destruct i as [|i]; simpl.
  - destruct k as [|k]; [done|]. simpl. rewrite (IH 0%nat k); [done|lia].
  - apply IH. lia.
Qed.

(** A name is its stem and its suffix. *)
Lemma stem_suffix (p : list string) : stem p +:+ suffix p = name p.
Proof.
  unfold stem. assert (suffix p = EmptyString
                       ∨ ∃ i, (0 < i < String.length (name p))%nat
                              ∧ suffix p = Str.slice_from i (name p)) as [->|(i & Hi & ->)].
  { unfold suffix. destruct (rfind_dot (name p)) as [i|]; [|by left].
    destruct ((0 <? i)%nat && (i <? String.length (name p) - 1)%nat) eqn:E; [|by left].
    right. exists i. split; [|done].
    apply andb_prop in E as [H1%Nat.ltb_lt H2%Nat.ltb_lt]. lia. }
  - rewrite append_nil_r. simpl. rewrite Nat.sub_0_r. apply substring_all.
  - unfold Str.slice_from, Str.slice_to. rewrite length_substring by lia.
    replace (String.length (name p) - (String.length (name p) - i))%nat with i by lia.
    apply substring_split. lia.
Qed.

Lemma append_inj_r (s t u : string) : s +:+ u = t +:+ u → s = t.
Proof.
  revert t. induction s as [|a s IH]; intros [|b t] Heq.
  - done.
  - apply (f_equal String.length) in Heq.
    rewrite append_cons, append_nil_l in Heq. cbn [String.length] in Heq.
    rewrite length_append in Heq. lia.
  - apply (f_equal String.length) in Heq.
    rewrite append_cons, append_nil_l in Heq. cbn [String.length] in Heq.
    rewrite length_append in Heq. lia.
  - rewrite !append_cons in Heq. injection Heq as -> Heq. f_equal. by apply IH.
Qed.

(** The temporary path of a path: the same directory, the name with
    [.tmp] added. *)
Lemma tmp_path_name (p : list string) :
  tmp_path_of p = parent p ++ [name p +:+ ".tmp"].
Proof.
  rewrite tmp_path_split. by rewrite <- append_assoc, stem_suffix.
Qed.

End TmpName.

Section TmpClaim.

Context {P : Platform}.
Import Pathlib.

(** X25.  The temporary file of an entry lies in the directory of its target
    and bears the name of the target with [.tmp] added; so the workers
    of the pool never share a temporary file unless they have the same
    target. *)
Theorem tmp_file_is_sibling (url_path : string) :
  tmp_path_of (local_path_of url_path)
  = parent (local_path_of url_path) ++ [name (local_path_of url_path) +:+ ".tmp"]
  ∧ tmp_of url_path
    = resolve (parent (local_path_of url_path))
      ++ [name (local_path_of url_path) +:+ ".tmp"]
  ∧ ∀ other,
      tmp_path_of (local_path_of url_path) = tmp_path_of (local_path_of other) →
      local_path_of url_path = local_path_of other.
Proof.
  split; [apply tmp_path_name|]. split.
  - unfold tmp_of. rewrite resolve_tmp_path. by rewrite <- append_assoc, stem_suffix.
  - intros other. rewrite !tmp_path_name.
    intros [Hpar Hname%append_inj_r]%app_inj_tail.
    rewrite (app_removelast_last EmptyString (local_path_nonempty url_path)).
    rewrite (app_removelast_last EmptyString (local_path_nonempty other)).
    fold (parent (local_path_of url_path)) (name (local_path_of url_path)).
    fold (parent (local_path_of other)) (name (local_path_of other)).
    by rewrite Hpar, Hname.
Qed.

End TmpClaim.

(** ** A directory that cannot be made *)

Section Blocked.

Context {P : Platform}.
Import Pathlib.

(** [mkdir] fails when a regular file stands on the way. *)
Lemma fs_mkdirs_blocked (size now : Z) (pre : list string) (x : string)
    (post cur : list string) (f : gmap (list string) node) (d : string) (m : Z) :
  f !! (cur ++ pre ++ [x]) = Some (File d m) →
  (fs_mkdirs size now cur (pre ++ x :: post) f).2 = false.
Proof.
  revert cur f. induction pre as [|a pre IH]; intros cur f Hfile; simpl in *.
  { by rewrite Hfile. }
  assert (cur ++ a :: pre ++ [x] = (cur ++ [a]) ++ pre ++ [x]) as Heq
    by by rewrite <- app_assoc.
  destruct (f !! (cur ++ [a])) as [[]|] eqn:E; [done| |].
  - apply IH. by rewrite <- Heq.
  - apply IH. rewrite <- Heq, lookup_insert_ne; [done|].
    intros H. apply (f_equal length) in H. rewrite !length_app in H.
    simpl in H. rewrite length_app in H. simpl in H. lia.
Qed.

(** X26.  When a regular file stands where a directory above the target is
    needed, [download_one] fails without a request; it may have made
    directories on the way, but it changes and removes nothing. *)
Theorem blocked_directory_fails (url_path : string) (retries : Z) (w : World)
    (q : list string) (d : string) (m : Z) :
  is_Some (inside_site (local_path_of url_path)) →
  present w url_path = false →
  q ≠ [] →
  q `prefix_of` resolve (parent (local_path_of url_path)) →
  fs w !! q = Some (File d m) →
  ∃ w' msg,
    download_one url_path retries w = (w', (Some false, url_path, InfoStr msg))
    ∧ requests w' = requests w
    ∧ (∀ q' n, fs w !! q' = Some n → fs w' !! q' = Some n).
Proof.
  intros [rel Hin] Hpresent Hne [post Hpost] Hfile.
  destruct (exists_last Hne) as (pre & x & ->).
  assert (∀ w2, fs w2 = fs w → clock w2 = clock w →
            ∃ w3, mkdir_parents (parent (local_path_of url_path)) w2
                  = (w3, Raise (OtherError "File exists"))
                  ∧ requests w3 = requests w2
                  ∧ (∀ q' n, fs w !! q' = Some n → fs w3 !! q' = Some n)) as Hmk.
  { intros w2 Hf Hc. unfold mkdir_parents. rewrite Hpost, Hf, Hc.
    rewrite <- app_assoc. cbn [app].
    pose proof (fs_mkdirs_blocked new_dir_size (clock w) pre x post [] (fs w) d m Hfile)
      as Hblocked.
    destruct (fs_mkdirs _ _ _ _ _) as [f' ok] eqn:Hrun. simpl in Hblocked. subst ok.
    eexists. split; [done|]. split; [done|]. simpl.
    intros q' n. by apply (fs_mkdirs_keeps _ _ _ _ _ _ _ _ _ Hrun). }
  unfold download_one. rewrite Hin. cbn [path_exists stat].
  unfold present in Hpresent. rewrite Hin in Hpresent.
  destruct (fs w !! resolve (local_path_of url_path)) as [n|] eqn:E; cbn [fs log];
    rewrite ?E.
  - rewrite Hpresent.
    destruct (Hmk (log (SysStat (local_path_of url_path))
                     (log (SysStat (local_path_of url_path)) w)))
      as (w3 & -> & Hr & Hkeep); [done..|].
    by eexists _, _.
  - destruct (Hmk (log (SysStat (local_path_of url_path)) w))
      as (w3 & -> & Hr & Hkeep); [done..|].
    by eexists _, _.
Qed.

End Blocked.

(** An entry below a page of the demo deployment. *)
Lemma blocked_directory_fails_witness :
  ∃ w' msg,
    download_one (P := Demo.platform) "/a.html/x.js" 3 (Demo.world [])
    = (w', (Some false, "/a.html/x.js", InfoStr msg))
    ∧ requests w' = [].
Proof.
  destruct (blocked_directory_fails (P := Demo.platform) "/a.html/x.js" 3 (Demo.world [])
              ["srv"; "HomDGCat"; "site"; "a.html"] "<html>" 77)
    as (w' & msg & Hrun & Hreq & _).
  - vm_compute. eexists. reflexivity.
  - vm_compute. reflexivity.
  - discriminate.
  - vm_compute. exists []. reflexivity.
  - vm_compute. reflexivity.
  - exists w', msg. split; [exact Hrun|exact Hreq].
Defined.

(** ** The wildcard of conditional requests *)

Section Wildcard.

Context {P : Platform} {L : AsgiLibrary}.
Import Pathlib.

(** X27.  The two engines part on [If-None-Match: *]: the built-in server
    compares it with the ETag like any other value, so it never answers
    304 to it and serves the file; the ASGI application answers 304 to
    it for every address that resolves. *)
Theorem wildcard_if_none_match (w : World) :
  (∀ st, etag_listed (Some "*") (_make_etag st) = false)
  ∧ (∀ p ae fp data m,
       fs w !! resolve fp = Some (File data m) →
       ∃ w' headers body,
         _serve_file (mkRequest p (Some "*") ae) fp false w
         = (w', Sent 200 headers (Some body)))
  ∧ (∀ path raw_path target,
       (_resolve [unquote path; path; Str.lstrip "/" raw_path] w).2 = Some target →
       ∃ headers,
         (handle path raw_path (Some "*") w).2 = Ok (Response 304 headers)).
Proof.
  assert (∀ st, etag_listed (Some "*") (_make_etag st) = false) as Hstar.
  { intros st. unfold etag_listed, _make_etag. done. }
  split; [exact Hstar|]. split.
  - intros p ae fp data m Hfile.
    destruct (serve_file_get (mkRequest p (Some "*") ae) fp data m w Hfile)
      as (w' & ->); [apply Hstar|].
    by eexists _, _, _.
  - intros path raw_path target Hres. unfold handle.
    destruct (asgi_resolve_spec [unquote path; path; Str.lstrip "/" raw_path] w)
      as (ps & Hw & Ht).
    destruct (_resolve _ w) as [w1 t]. simpl in Hw, Ht, Hres. subst w1 t.
    destruct (Ht target eq_refl) as (_ & data & m & Hfile).
    unfold stat. cbn [fs log probed]. rewrite Hfile. simpl.
    by eexists.
Qed.

End Wildcard.
